(** * Food safety analysis: the cleaning, ranking, encoding, splitting and
    scoring steps of [food_safety_analysis.py], embedded and verified.

    The script is a sequence of pandas / scikit-learn calls on one table.
    The table is modelled the way pandas holds it (a frame is a set of named
    columns over one index, a categorical column is a list of categories
    with integer codes), every statement of the script is one definition
    below, and the library calls are given the behaviour the libraries
    document for them. *)

From Stdlib Require Import ZArith QArith Qround OrdersEx.
From stdpp Require Import gmap strings list sorting.

Local Open Scope string_scope.
Local Open Scope Z_scope.

(** ** Cells *)

(** One cell of a column read from the CSV file: missing ([NaN]), a number
    (the counts and the year are integers), or a string. *)
Inductive cell :=
  | NaN
  | Num (z : Z)
  | Str (s : string).

#[global] Instance cell_eq_dec : EqDecision cell.
Proof. solve_decision. Defined.

(** [pd.isna]. *)
Definition isna (c : cell) : bool :=
  match c with NaN => true | _ => false end.

Definition notna (c : cell) : Prop := c ≠ NaN.

#[global] Instance notna_dec c : Decision (notna c).
Proof. unfold notna. apply _. Defined.

(** The order in which pandas and numpy sort labels: numbers by value,
    strings lexicographically (byte-wise, which on UTF-8 text is the order
    of Python's [str]), numbers before strings, missing last. *)
Definition cell_compare (a b : cell) : comparison :=
  match a, b with
  | Num x, Num y => Z.compare x y
  | Num _, _ => Lt
  | Str _, Num _ => Gt
  | Str s, Str t => String_as_OT.compare s t
  | Str _, NaN => Lt
  | NaN, NaN => Eq
  | NaN, _ => Gt
  end.

Definition cell_lt (a b : cell) : Prop := cell_compare a b = Lt.
Definition cell_le (a b : cell) : Prop := cell_compare a b ≠ Gt.

#[global] Instance cell_lt_dec a b : Decision (cell_lt a b).
Proof. unfold cell_lt. apply _. Defined.
#[global] Instance cell_le_dec a b : Decision (cell_le a b).
Proof. unfold cell_le. apply _. Defined.

(** ** Series and frames *)

(** A column. [Plain] is an int64, float64 or object column holding its
    values; [Categorical] is a column of dtype [category]: the categories,
    and per row the position of its value among them, [-1] when missing. *)
Inductive Series :=
  | Plain (values : list cell)
  | Categorical (categories : list cell) (codes : list Z).

Definition all_cells (P : cell → bool) (l : list cell) : bool := forallb P l.

Definition is_num (c : cell) : bool := match c with Num _ => true | _ => false end.
Definition is_str (c : cell) : bool := match c with Str _ => true | _ => false end.

(** [s.dtype.name]: what [read_csv] infers for a plain column, and
    ["category"] exactly for a categorical one. *)
Definition dtype_name (s : Series) : string :=
  match s with
  | Categorical _ _ => "category"
  | Plain vs =>
      if all_cells is_num vs then "int64"
      else if all_cells (λ c, is_num c || isna c) vs then "float64"
      else "object"
  end.

(** The value a code stands for: [categories[code]], missing for [-1]. *)
Definition take_code (cats : list cell) (c : Z) : cell :=
  if c <? 0 then NaN else default NaN (cats !! Z.to_nat c).

(** [np.asarray(s)]: the values of a column, row by row. *)
Definition to_values (s : Series) : list cell :=
  match s with
  | Plain vs => vs
  | Categorical cats codes => take_code cats <$> codes
  end.

(** [len(s)]. *)
Definition Series_len (s : Series) : nat :=
  match s with
  | Plain vs => length vs
  | Categorical _ codes => length codes
  end.

(** A frame: the length of its index and its columns by name. *)
Record DataFrame := mkFrame {
  nrows : nat;
  columns : gmap string Series;
}.

(** [len(df)]. *)
Definition DataFrame_len (d : DataFrame) : nat := nrows d.

(** [df[name]]; [None] is the [KeyError] of an absent column. *)
Definition getitem (d : DataFrame) (name : string) : option Series :=
  columns d !! name.

(** [df[name] = s]: the column is replaced or added, the index stays. *)
Definition setitem (d : DataFrame) (name : string) (s : Series) : DataFrame :=
  mkFrame (nrows d) (<[name := s]> (columns d)).

(** [df[names]]: the listed columns, in the order listed; a [KeyError]
    when one is absent. *)
Definition getitem_list (d : DataFrame) (names : list string) : option (list Series) :=
  mapM (getitem d) names.

(** [df[names] = sub]: the columns of [sub] are assigned position by
    position to the listed names. *)
Fixpoint setitem_list (d : DataFrame) (names : list string) (sub : list Series) : DataFrame :=
  match names, sub with
  | name :: names, s :: sub => setitem_list (setitem d name s) names sub
  | _, _ => d
  end.

(** ** Missing values *)

(** Position of a value in a list of labels. *)
Fixpoint index_of (v : cell) (l : list cell) : option nat :=
  match l with
  | [] => None
  | x :: l => if decide (x = v) then Some 0%nat else S <$> index_of v l
  end.

(** The code of a value under given categories. *)
Definition code_of (cats : list cell) (v : cell) : Z :=
  if isna v then -1
  else match index_of v cats with
       | Some i => Z.of_nat i
       | None => -1
       end.

(** [s.fillna(v)]: every missing cell becomes [v]. A categorical column
    only accepts one of its categories as the fill value ([TypeError]
    otherwise, also when nothing is missing). *)
Definition Series_fillna (v : cell) (s : Series) : option Series :=
  match s with
  | Plain vs => Some (Plain ((λ c, if isna c then v else c) <$> vs))
  | Categorical cats codes =>
      i ← index_of v cats;
      Some (Categorical cats ((λ c, if c <? 0 then Z.of_nat i else c) <$> codes))
  end.

(** [sub.fillna(v)] on a selection of columns. *)
Definition DataFrame_fillna (v : cell) (sub : list Series) : option (list Series) :=
  mapM (Series_fillna v) sub.

(** ** Categorical typing *)

(** The categories [astype('category')] infers: the distinct non-missing
    values, sorted. *)
Definition categories_of (vs : list cell) : list cell :=
  merge_sort cell_le (remove_dups (filter notna vs)).

(** [s.astype('category')]. *)
Definition astype_category (s : Series) : Series :=
  match s with
  | Categorical _ _ => s
  | Plain vs =>
      let cats := categories_of vs in
      Categorical cats (code_of cats <$> vs)
  end.

(** ** Element-wise application *)

(** [s.apply(f)]: [f] on every value; an exception of [f] is the
    exception of the call. *)
Definition Series_apply (f : cell → option cell) (s : Series) : option Series :=
  Plain <$> mapM f (to_values s).

(** The lambda of line 35, [lambda x: 1 if x > 0 else 0]. A missing value
    compares false with everything; a string cannot be compared with [0]
    ([TypeError]). *)
Definition hospitalized_label (x : cell) : option cell :=
  match x with
  | Num z => Some (Num (if 0 <? z then 1 else 0))
  | NaN => Some (Num 0)
  | Str _ => None
  end.

(** ** The cleaning block (lines 21-35) *)

Definition categorical_cols : list string :=
  ["Location"; "Food"; "Ingredient"; "Species"; "Serotype/Genotype"; "Status"].

Definition numeric_cols : list string := ["Hospitalizations"; "Fatalities"].

(** [d[names] = d[names].fillna(v)] (lines 25 and 28). *)
Definition fill_columns (names : list string) (v : cell) (d : DataFrame) : option DataFrame :=
  sub ← getitem_list d names;
  filled ← DataFrame_fillna v sub;
  Some (setitem_list d names filled).

(** [for col in names: d[col] = d[col].astype('category')] (lines 31-32). *)
Fixpoint categorize_columns (names : list string) (d : DataFrame) : option DataFrame :=
  match names with
  | [] => Some d
  | col :: names =>
      s ← getitem d col;
      categorize_columns names (setitem d col (astype_category s))
  end.

(** [d['Hospitalized'] = d['Hospitalizations'].apply(lambda ...)] (line 35). *)
Definition derive_hospitalized (d : DataFrame) : option DataFrame :=
  s ← getitem d "Hospitalizations";
  label ← Series_apply hospitalized_label s;
  Some (setitem d "Hospitalized" label).

(** The statements of lines 25-35, applied to the table [df_cleaned] names. *)
Definition clean_in_place (d : DataFrame) : option DataFrame :=
  d ← fill_columns categorical_cols (Str "Unknown") d;
  d ← fill_columns numeric_cols (Num 0) d;
  d ← categorize_columns (categorical_cols ++ ["State"; "Month"]) d;
  derive_hospitalized d.

(** ** Objects and names

    The script's tables are objects: a name refers to one, an assignment
    to a column changes the object every name of it sees, and [copy()]
    makes a new object. The heap maps object identities to tables. *)

Definition loc := nat.

Definition Script (A : Type) : Type := gmap loc DataFrame → option (A * gmap loc DataFrame).

#[global] Instance Script_ret : MRet Script := λ A a h, Some (a, h).
#[global] Instance Script_bind : MBind Script := λ A B f m h,
  match m h with
  | Some (a, h') => f a h'
  | None => None
  end.

(** [d.copy()]: a new object with the contents of [d] (a deep copy). *)
Definition DataFrame_copy (l : loc) : Script loc := λ h,
  d ← h !! l;
  let l' := fresh (dom h) in
  Some (l', <[l' := d]> h).

(** Statements that assign into the columns of the object at [l] and
    leave a value behind. *)
Definition in_place_with {A} (l : loc) (f : DataFrame → option (DataFrame * A)) : Script A := λ h,
  d ← h !! l;
  r ← f d;
  Some (r.2, <[l := r.1]> h).

(** Statements that assign into the columns of the object at [l]. *)
Definition in_place (l : loc) (f : DataFrame → option DataFrame) : Script unit :=
  in_place_with l (λ d, d' ← f d; Some (d', tt)).

(** Lines 21-35: [df_cleaned = df.copy()] and the cleaning statements on
    [df_cleaned]; the result is the object [df_cleaned] names. *)
Definition cleaning (df : loc) : Script loc :=
  df_cleaned ← DataFrame_copy df;
  _ ← in_place df_cleaned clean_in_place;
  mret df_cleaned.

(** The cleaned table of a raw table, when the block runs through. *)
Definition cleaned_of (raw cleaned : DataFrame) : Prop :=
  clean_in_place raw = Some cleaned.

(** The value of column [name] at row [i]. *)
Definition value_at (d : DataFrame) (name : string) (i : nat) : option cell :=
  s ← getitem d name; to_values s !! i.

(** ** Descriptive analytics: the food ranking (line 49) *)

(** Python's [c == v] on a cell: a missing value equals nothing. *)
Definition cell_eqb (c v : cell) : bool :=
  if isna c then false else bool_decide (c = v).

(** [s == v]: the boolean mask of the rows whose value is [v]. *)
Definition Series_eq (s : Series) (v : cell) : list bool :=
  (λ c, cell_eqb c v) <$> to_values s.

(** The entries of [l] at the positions where the mask is true. *)
Fixpoint select {A} (mask : list bool) (l : list A) : list A :=
  match mask, l with
  | b :: mask, x :: l => if b then x :: select mask l else select mask l
  | _, _ => []
  end.

(** [s[mask]]: a categorical column keeps all its categories. *)
Definition Series_select (mask : list bool) (s : Series) : Series :=
  match s with
  | Plain vs => Plain (select mask vs)
  | Categorical cats codes => Categorical cats (select mask codes)
  end.

(** [df[mask]]: the rows where the mask is true, in every column. *)
Definition DataFrame_select (mask : list bool) (d : DataFrame) : DataFrame :=
  mkFrame (length (select mask (replicate (nrows d) ())))
          (Series_select mask <$> columns d).

(** The kind of sort [sort_values] runs ([kind='quicksort'] by default,
    which numpy implements differently per platform and array size): an
    argsort returns the positions of the items in non-decreasing order of
    the items, and nothing more is known of it; in particular it need not
    be stable. *)
Class SortKind := {
  argsort : list Z → list nat;
  argsort_perm : ∀ l, argsort l ≡ₚ seq 0 (length l);
  argsort_sorted : ∀ l, Sorted Z.le ((λ i, default 0 (l !! i)) <$> argsort l);
}.

(** pandas' [nargsort] on a column without missing values: descending
    order is the ascending argsort of the reversed items, read backwards. *)
Definition nargsort `{SortKind} (ascending : bool) (items : list Z) : list nat :=
  let idx := seq 0 (length items) in
  if ascending then (λ k, default 0%nat (idx !! k)) <$> argsort items
  else reverse ((λ k, default 0%nat (reverse idx !! k)) <$> argsort (reverse items)).

(** [np.bincount(codes[codes >= 0], minlength=ncat)]: per category, the
    number of rows that carry its code (the codes of a categorical are
    below the number of its categories). *)
Definition bincount (ncat : nat) (codes : list Z) : list Z :=
  (λ k, Z.of_nat (length (filter (λ c, c = Z.of_nat k) codes))) <$> seq 0 ncat.

(** The distinct values of a list in the order of their first occurrence. *)
Definition first_seen (vs : list cell) : list cell :=
  reverse (remove_dups (reverse vs)).

(** The table [value_counts] builds before it sorts: for a categorical
    column one entry per category, in category order, zero counts
    included; for a plain column one entry per distinct non-missing value,
    in the order of first occurrence. *)
Definition count_table (s : Series) : list (cell * Z) :=
  match s with
  | Categorical cats codes => zip cats (bincount (length cats) codes)
  | Plain vs =>
      (λ k, (k, Z.of_nat (length (filter (λ c, c = k) vs)))) <$> first_seen (filter notna vs)
  end.

(** [counts.sort_values(ascending=...)] on a table of counts: the entries
    in the order [nargsort] gives for the counts. *)
Definition sort_values `{SortKind} (ascending : bool) (tab : list (cell * Z)) : list (cell * Z) :=
  (λ i, default (NaN, 0) (tab !! i)) <$> nargsort ascending tab.*2.

(** [s.value_counts()]: the table, sorted by count, descending. *)
Definition value_counts `{SortKind} (s : Series) : list (cell * Z) :=
  sort_values false (count_table s).

(** [df_cleaned[df_cleaned['Hospitalized'] == 1]['Food'].value_counts().head(10)]. *)
Definition top_foods `{SortKind} (df_cleaned : DataFrame) : option (list (cell * Z)) :=
  hosp ← getitem df_cleaned "Hospitalized";
  food ← getitem (DataFrame_select (Series_eq hosp (Num 1)) df_cleaned) "Food";
  Some (take 10 (value_counts food)).

(** ** Feature encoding (lines 83-95) *)

Definition features : list string := ["Year"; "Month"; "State"; "Location"; "Food"].
Definition target : string := "Hospitalized".

(** [LabelEncoder.fit]: [classes_] are the distinct values, sorted, a
    missing value last. Labels that mix numbers and strings are refused
    ([TypeError]). *)
Definition LabelEncoder_fit (y : list cell) : option (list cell) :=
  if existsb is_num y && existsb is_str y then None
  else Some (merge_sort cell_le (remove_dups y)).

(** [LabelEncoder.transform]: the position of every label among the
    classes; a label that is not a class is a [ValueError]. *)
Definition LabelEncoder_transform (classes : list cell) (y : list cell) : option (list Z) :=
  mapM (λ v, Z.of_nat <$> index_of v classes) y.

(** [LabelEncoder.fit_transform]. *)
Definition LabelEncoder_fit_transform (y : list cell) : option (list cell * list Z) :=
  classes ← LabelEncoder_fit y;
  codes ← LabelEncoder_transform classes y;
  Some (classes, codes).

(** [LabelEncoder.inverse_transform]: [classes_[code]]; a code outside
    [0 .. len(classes_) - 1] is a [ValueError]. *)
Definition LabelEncoder_inverse_transform (classes : list cell) (codes : list Z) : option (list cell) :=
  mapM (λ c, if c <? 0 then None else classes !! Z.to_nat c) codes.

(** The loop of lines 91-95 over the columns left to visit: a column of
    dtype [category] is replaced by its codes and its encoder is recorded
    under its name, any other column is left as it is. *)
Fixpoint encode_columns (cols : list string) (d : DataFrame)
    (le_dict : gmap string (list cell)) : option (DataFrame * gmap string (list cell)) :=
  match cols with
  | [] => Some (d, le_dict)
  | col :: cols =>
      s ← getitem d col;
      if decide (dtype_name s = "category") then
        fit ← LabelEncoder_fit_transform (to_values s);
        encode_columns cols (setitem d col (Plain (Num <$> fit.2))) (<[col := fit.1]> le_dict)
      else encode_columns cols d le_dict
  end.

(** Lines 83-95: [df_model = df_cleaned.copy()], then the loop on
    [df_model]; the result names the new object and the encoders. *)
Definition encoding (df_cleaned : loc) : Script (loc * gmap string (list cell)) :=
  df_model ← DataFrame_copy df_cleaned;
  le_dict ← in_place_with df_model (λ d, encode_columns features d ∅);
  mret (df_model, le_dict).

(** ** The random generator behind [random_state=42]

    [train_test_split] draws its shuffle from [numpy.random.RandomState],
    a Mersenne Twister (MT19937) on 32-bit words. *)

Module MT19937.

Definition RK_STATE_LEN : nat := 624.
Definition M : nat := 397.
Definition MATRIX_A : Z := 0x9908b0df.
Definition UPPER_MASK : Z := 0x80000000.
Definition LOWER_MASK : Z := 0x7fffffff.

Definition u32 (x : Z) : Z := Z.land x 0xffffffff.

Record state := mkState {
  key : list Z;
  pos : nat;
}.

(** The loop of [mt19937_seed]: [key[pos] = seed] and the next seed. *)
Fixpoint seed_keys (n : nat) (pos : Z) (seed : Z) : list Z :=
  match n with
  | O => []
  | S n =>
      seed :: seed_keys n (pos + 1)
                (u32 (1812433253 * Z.lxor seed (Z.shiftr seed 30) + pos + 1))
  end.

Definition mt19937_seed (seed : Z) : state :=
  mkState (seed_keys RK_STATE_LEN 0 (u32 seed)) RK_STATE_LEN.

Definition word (key : list Z) (i : nat) : Z := default 0 (key !! i).

(** One step of [mt19937_gen]:
    [y = (key[i] & UPPER_MASK) | (key[j] & LOWER_MASK);
     key[i] = key[k] ^ (y >> 1) ^ (-(y & 1) & MATRIX_A)]. *)
Definition twist (i j k : nat) (key : list Z) : list Z :=
  let y := Z.lor (Z.land (word key i) UPPER_MASK) (Z.land (word key j) LOWER_MASK) in
  let mag := if Z.testbit y 0 then MATRIX_A else 0 in
  <[i := Z.lxor (Z.lxor (word key k) (Z.shiftr y 1)) mag]> key.

(** [mt19937_gen]: the three loops over the key, in place. *)
Definition mt19937_gen (key : list Z) : list Z :=
  let key := foldl (λ key i, twist i (i + 1) (i + M) key) key
                   (seq 0 (RK_STATE_LEN - M)) in
  let key := foldl (λ key i, twist i (i + 1) (i + M - RK_STATE_LEN) key) key
                   (seq (RK_STATE_LEN - M) (M - 1)) in
  twist (RK_STATE_LEN - 1) 0 (M - 1) key.

(** [mt19937_next]: the next 32-bit word, tempered. *)
Definition mt19937_next (st : state) : Z * state :=
  let st := if decide (pos st = RK_STATE_LEN) then mkState (mt19937_gen (key st)) 0 else st in
  let y := word (key st) (pos st) in
  let y := Z.lxor y (Z.shiftr y 11) in
  let y := Z.lxor y (Z.land (u32 (Z.shiftl y 7)) 0x9d2c5680) in
  let y := Z.lxor y (Z.land (u32 (Z.shiftl y 15)) 0xefc60000) in
  let y := Z.lxor y (Z.shiftr y 18) in
  (y, mkState (key st) (S (pos st))).

(** [mt19937_next64]: two words, the first one high. *)
Definition mt19937_next64 (st : state) : Z * state :=
  let (hi, st) := mt19937_next st in
  let (lo, st) := mt19937_next st in
  (Z.lor (Z.shiftl hi 32) lo, st).

(** The smallest bit mask that covers [max]. *)
Definition bit_mask (max : Z) : Z :=
  let m := max in
  let m := Z.lor m (Z.shiftr m 1) in
  let m := Z.lor m (Z.shiftr m 2) in
  let m := Z.lor m (Z.shiftr m 4) in
  let m := Z.lor m (Z.shiftr m 8) in
  let m := Z.lor m (Z.shiftr m 16) in
  Z.lor m (Z.shiftr m 32).

(** The rejection loop of [random_interval]: draw, mask, retry while the
    value exceeds [max]. The loop has no bound in the C code; [fuel]
    bounds the number of draws here, and [None] is "not done yet". *)
Fixpoint draw_below (fuel : nat) (next : state → Z * state) (mask max : Z)
    (st : state) : option (Z * state) :=
  match fuel with
  | O => None
  | S fuel =>
      let (y, st) := next st in
      let value := Z.land y mask in
      if max <? value then draw_below fuel next mask max st else Some (value, st)
  end.

(** [random_interval(state, max)]: a uniform value in [0 .. max]. *)
Definition random_interval (fuel : nat) (max : Z) (st : state) : option (Z * state) :=
  if max =? 0 then Some (0, st)
  else if max <=? 0xffffffff then draw_below fuel mt19937_next (bit_mask max) max st
  else draw_below fuel mt19937_next64 (bit_mask max) max st.

(** [x[i], x[j] = x[j], x[i]]. *)
Definition swap (x : list nat) (i j : nat) : list nat :=
  match x !! i, x !! j with
  | Some a, Some b => <[j := a]> (<[i := b]> x)
  | _, _ => x
  end.

(** The loop of [shuffle], [for i in reversed(range(1, n))], from [i] down. *)
Fixpoint shuffle_from (fuel : nat) (i : nat) (x : list nat) (st : state)
    : option (list nat * state) :=
  match i with
  | O => Some (x, st)
  | S i' =>
      r ← random_interval fuel (Z.of_nat i) st;
      shuffle_from fuel i' (swap x i (Z.to_nat r.1)) r.2
  end.

(** [RandomState.permutation(n)]: [arange(n)], shuffled. *)
Definition permutation (fuel : nat) (n : nat) (st : state) : option (list nat * state) :=
  shuffle_from fuel (n - 1) (seq 0 n) st.

End MT19937.

(** ** The train/test split (lines 98-100 and 147-155) *)

(** What [train_test_split] needs of an array: its number of rows and the
    selection of rows by position ([IndexError] out of range). *)
Class ArrayLike (A : Type) := {
  num_samples : A → nat;
  safe_indexing : A → list nat → option A;
}.

Definition take_rows {A} (idx : list nat) (l : list A) : list A :=
  omap (λ i, l !! i) idx.

Definition in_range (n : nat) (idx : list nat) : bool :=
  forallb (λ i, bool_decide (i < n)%nat) idx.

(** A numpy array, by rows. *)
#[global] Instance ndarray_array {A} : ArrayLike (list A) := {|
  num_samples := length;
  safe_indexing l idx := if in_range (length l) idx then Some (take_rows idx l) else None;
|}.

(** [s.iloc[idx]]. *)
Definition Series_iloc (idx : list nat) (s : Series) : Series :=
  match s with
  | Plain vs => Plain (take_rows idx vs)
  | Categorical cats codes => Categorical cats (take_rows idx codes)
  end.

#[global] Instance Series_array : ArrayLike Series := {|
  num_samples := Series_len;
  safe_indexing s idx := if in_range (Series_len s) idx then Some (Series_iloc idx s) else None;
|}.

#[global] Instance DataFrame_array : ArrayLike DataFrame := {|
  num_samples := DataFrame_len;
  safe_indexing d idx :=
    if in_range (nrows d) idx
    then Some (mkFrame (length idx) (Series_iloc idx <$> columns d))
    else None;
|}.

(** [df[names]] as a table of its own. *)
Definition select_columns (d : DataFrame) (names : list string) : option DataFrame :=
  sub ← getitem_list d names;
  Some (setitem_list (mkFrame (nrows d) ∅) names sub).

(** [_validate_shuffle_split] for a fractional [test_size] and no
    [train_size]: [n_test = ceil(test_size * n_samples)], the rest is the
    training part, which may not be empty ([ValueError]). The product is
    taken exactly; for [0.3] and any table that fits in memory the
    floating-point product has the same ceiling. *)
Definition validate_shuffle_split (n_samples : nat) (test_size : Q) : option (nat * nat) :=
  if Qle_bool test_size 0 || Qle_bool 1 test_size then None
  else
    let n_test := Z.to_nat (Qceiling (test_size * inject_Z (Z.of_nat n_samples))) in
    let n_train := (n_samples - n_test)%nat in
    if decide (n_train = 0%nat) then None else Some (n_train, n_test).

(** [check_random_state(random_state).permutation(n)]. An integer seeds a
    new generator of its own ([ValueError] outside [0 .. 2**32 - 1]), and
    the generator numpy shares, [global], is neither read nor advanced;
    without a seed the shared generator is used and moves on. *)
Definition shuffled (fuel : nat) (random_state : option Z) (n : nat)
    (global : MT19937.state) : option (list nat * MT19937.state) :=
  match random_state with
  | None => MT19937.permutation fuel n global
  | Some seed =>
      if (0 <=? seed) && (seed <=? 0xffffffff) then
        r ← MT19937.permutation fuel n (MT19937.mt19937_seed seed);
        Some (r.1, global)
      else None
  end.

(** The one split [ShuffleSplit] yields: the first [n_test] positions of
    the permutation are held out, the next [n_train] are the training
    rows. The result is [(train, test)]. *)
Definition train_test_indices (fuel : nat) (n_samples : nat) (test_size : Q)
    (random_state : option Z) (global : MT19937.state)
    : option ((list nat * list nat) * MT19937.state) :=
  sizes ← validate_shuffle_split n_samples test_size;
  p ← shuffled fuel random_state n_samples global;
  let ind_test := take sizes.2 p.1 in
  let ind_train := take sizes.1 (drop sizes.2 p.1) in
  Some ((ind_train, ind_test), p.2).

(** What [train_test_split] returns. *)
Record Split (A B : Type) := mkSplit {
  X_train : A;
  X_test : A;
  y_train : B;
  y_test : B;
}.
Arguments mkSplit {A B}.
Arguments X_train {A B}.
Arguments X_test {A B}.
Arguments y_train {A B}.
Arguments y_test {A B}.

(** [train_test_split(X, y, test_size=..., random_state=...)]: arrays of
    different lengths are refused ([ValueError]); the rows are selected by
    the positions [train_test_indices] gives for the number of rows of
    [X]. *)
Definition train_test_split {A B} `{ArrayLike A, ArrayLike B} (fuel : nat)
    (X : A) (y : B) (test_size : Q) (random_state : option Z)
    (global : MT19937.state) : option (Split A B * MT19937.state) :=
  if decide (num_samples X = num_samples y) then
    r ← train_test_indices fuel (num_samples X) test_size random_state global;
    xtr ← safe_indexing X r.1.1;
    xte ← safe_indexing X r.1.2;
    ytr ← safe_indexing y r.1.1;
    yte ← safe_indexing y r.1.2;
    Some (mkSplit xtr xte ytr yte, r.2)
  else None.

Definition test_size : Q := 3 # 10.
Definition seed : Z := 42.

(** Lines 98-100: the split the tree model is trained and scored on. *)
Definition tree_split (fuel : nat) (df_model : DataFrame) (global : MT19937.state)
    : option (Split DataFrame Series * MT19937.state) :=
  X ← select_columns df_model features;
  y ← getitem df_model target;
  train_test_split fuel X y test_size (Some seed) global.

(** Lines 147-155: the split the network is trained and scored on. The
    matrix is the one [StandardScaler.fit_transform] makes of [X], a
    floating-point computation that is not modelled: [fit_transform] is
    any function from the table to an array of rows. *)
Definition network_split {R} (fit_transform : DataFrame → list R) (fuel : nat)
    (df_dl : DataFrame) (global : MT19937.state)
    : option (Split (list R) Series * MT19937.state) :=
  X ← select_columns df_dl features;
  y ← getitem df_dl target;
  let X_scaled := fit_transform X in
  train_test_split fuel X_scaled y test_size (Some seed) global.

(** The positions the two calls hold out: those of [train_test_indices]
    for the number of rows of the first array of each call. *)
Definition tree_test_indices (fuel : nat) (df_model : DataFrame) (global : MT19937.state)
    : option (list nat) :=
  X ← select_columns df_model features;
  r ← train_test_indices fuel (num_samples X) test_size (Some seed) global;
  Some r.1.2.

Definition network_test_indices {R} (fit_transform : DataFrame → list R) (fuel : nat)
    (df_dl : DataFrame) (global : MT19937.state) : option (list nat) :=
  X ← select_columns df_dl features;
  r ← train_test_indices fuel (num_samples (fit_transform X)) test_size (Some seed) global;
  Some r.1.2.

(** ** Scores (lines 239-243, 265) *)

(** [unique_labels(y_true, y_pred)]: the labels that occur, sorted. *)
Definition unique_labels (y_true y_pred : list Z) : list Z :=
  merge_sort Z.le (remove_dups (y_true ++ y_pred)).

(** Number of rows whose actual label is [a] and predicted label is [p]. *)
Definition count_pairs (a p : Z) (y_true y_pred : list Z) : Z :=
  Z.of_nat (length (filter (λ tp, tp = (a, p)) (zip y_true y_pred))).

(** [confusion_matrix(y_true, y_pred)]: rows are the actual labels,
    columns the predicted ones, both in the order of [unique_labels].
    Vectors of different lengths and empty vectors are refused
    ([ValueError]). *)
Definition confusion_matrix (y_true y_pred : list Z) : option (list (list Z)) :=
  if decide (length y_true = length y_pred ∧ y_true ≠ []) then
    let labels := unique_labels y_true y_pred in
    Some ((λ a, (λ p, count_pairs a p y_true y_pred) <$> labels) <$> labels)
  else None.

(** [accuracy_score(y_true, y_pred)]: the fraction of rows predicted
    right. Vectors of different lengths are refused; on empty vectors the
    score is not a number. *)
Definition accuracy_score (y_true y_pred : list Z) : option Q :=
  if decide (length y_true = length y_pred ∧ y_true ≠ []) then
    let right := length (filter (λ tp, tp.1 = tp.2) (zip y_true y_pred)) in
    Some (Z.of_nat right # Pos.of_nat (length y_true))
  else None.

(** ** What the claims speak of *)

(** ** The table [read_csv] returns

    Line 12 makes [df] with [pd.read_csv]: every column is a plain one
    (no column of a CSV file is read as a categorical) and as long as the
    index. *)
Definition read_csv_frame (d : DataFrame) : Prop :=
  ∀ name s, getitem d name = Some s → ∃ vs, s = Plain vs ∧ length vs = nrows d.

(** Every column is as long as the index. *)
Definition rectangular (d : DataFrame) : Prop :=
  ∀ name s, getitem d name = Some s → Series_len s = nrows d.

(** C2, as the specification words it: a cleaned categorical field is
    never missing and is the text [Unknown] exactly when the raw field was
    missing. *)
Definition spec_unknown_iff_missing (raw cleaned : DataFrame) : Prop :=
  ∀ c i x y, c ∈ categorical_cols →
    value_at raw c i = Some x → value_at cleaned c i = Some y →
    y ≠ NaN ∧ (y = Str "Unknown" ↔ x = NaN).

(** A check of [read_csv_frame] that runs. *)
Definition plain_of_len (n : nat) (s : Series) : Prop :=
  match s with
  | Plain vs => length vs = n
  | Categorical _ _ => False
  end.

#[global] Instance plain_of_len_dec n s : Decision (plain_of_len n s).
Proof. destruct s; simpl; apply _. Defined.

(** The columns the block reads. *)
Definition required_cols : list string :=
  (categorical_cols ++ numeric_cols ++ ["State"; "Month"])%list.

(** The fields the later stages read. *)
Definition downstream_fields : list string :=
  ["Year"; "Month"; "State"; "Location"; "Food"; "Illnesses"; "Hospitalizations"; "Hospitalized"].

(** C4, as the specification words it: no cleaned record has a missing
    value in a field used downstream. *)
Definition spec_no_missing_downstream (cleaned : DataFrame) : Prop :=
  ∀ c i y, c ∈ downstream_fields → value_at cleaned c i = Some y → y ≠ NaN.

(** The columns the loop encodes in a cleaned table. *)
Definition encoded_cols : list string := ["Month"; "State"; "Location"; "Food"].

(** Labels of one kind: not both numbers and text. *)
Definition one_kind (y : list cell) : Prop :=
  existsb is_num y && existsb is_str y = false.

(** C7, as the specification words it: on the same dataset the rows the
    tree split holds out are not the rows the network split holds out. *)
Definition spec_held_out_rows_differ {R} (fit_transform : DataFrame → list R)
    (fuel : nat) (d : DataFrame) (g1 g2 : MT19937.state) : Prop :=
  tree_test_indices fuel d g1 ≠ network_test_indices fit_transform fuel d g2.

(** The invariant of a categorical column: the categories are distinct
    and none is missing, every code is [-1] or a position among them. *)
Definition wf_categorical (cats : list cell) (codes : list Z) : Prop :=
  NoDup cats ∧ (NaN ∉ cats) ∧ Forall (λ c, -1 <= c < Z.of_nat (length cats)) codes.

(** The [Food] values of the rows whose label is [1], in row order. *)
Definition hospitalized_foods (d : DataFrame) : list cell :=
  match getitem d "Hospitalized", getitem d "Food" with
  | Some hosp, Some food => select (Series_eq hosp (Num 1)) (to_values food)
  | _, _ => []
  end.

(** All [Food] values of a table. *)
Definition food_values (d : DataFrame) : list cell :=
  match getitem d "Food" with
  | Some food => to_values food
  | None => []
  end.

(** Number of occurrences of a value in a list. *)
Definition occurrences (f : cell) (l : list cell) : Z :=
  Z.of_nat (length (filter (λ v, v = f) l)).

(** [f] is met in [l] before [f'] is. *)
Definition first_seen_before (l : list cell) (f f' : cell) : Prop :=
  ∃ i, l !! i = Some f ∧ f' ∉ take i l.

(** C9's tie rule, as the specification words it: of two foods with the
    same count, the one listed first is the one encountered first among
    the hospitalized rows. *)
Definition spec_ties_first_encountered (seen : list cell) (ranking : list (cell * Z)) : Prop :=
  ∀ i j f f' c, (i < j)%nat →
    ranking !! i = Some (f, c) → ranking !! j = Some (f', c) →
    first_seen_before seen f f'.

(** An argsort to run examples with: the positions, sorted by their
    items with the merge sort of the library. *)
Definition by_item (a b : Z * nat) : Prop := a.1 <= b.1.

#[global] Instance by_item_dec a b : Decision (by_item a b).
Proof. unfold by_item. apply _. Defined.

#[global] Instance by_item_total : Total by_item.
Proof. intros a b. unfold by_item. lia. Qed.

Definition sorted_positions (l : list Z) : list nat :=
  (merge_sort by_item (zip l (seq 0 (length l)))).*2.

(** ** Further parts of the script *)

(** *** Missing cells per column (line 18) *)

(** [df.isnull().sum()] (line 18): per column, the number of missing
    cells. *)
Definition isnull_sum (d : DataFrame) : gmap string Z :=
  (λ s, Z.of_nat (length (filter (λ v, v = NaN) (to_values s)))) <$> columns d.

(** *** Sums *)

(** The sum of a list of integers. *)
Definition Zsum (l : list Z) : Z := foldr Z.add 0 l.

(** The sum of the weights of the entries whose key satisfies [P]. *)
Definition weight_where {A} (P : A → Prop) `{∀ x, Decision (P x)} (L : list (A * Z)) : Z :=
  Zsum ((filter (λ x, P x.1) L).*2).

(** *** The location ranking (line 53) *)

(** [df_cleaned[df_cleaned['Hospitalized'] == 1]['Location'].value_counts().head(10)]. *)
Definition top_locations `{SortKind} (df_cleaned : DataFrame) : option (list (cell * Z)) :=
  hosp ← getitem df_cleaned "Hospitalized";
  location ← getitem (DataFrame_select (Series_eq hosp (Num 1)) df_cleaned) "Location";
  Some (take 10 (value_counts location)).

(** The number of outbreaks of a table whose label is [1]. *)
Definition hospitalized_outbreaks (d : DataFrame) : Z :=
  match getitem d "Hospitalized" with
  | Some hosp => occurrences (Num 1) (to_values hosp)
  | None => 0
  end.

(** *** Sums per group (lines 46 and 56) *)

(** The groups of [groupby(key)]: one per distinct non-missing value of a
    plain column, in sorted order ([sort=True], [dropna=True]); one per
    category of a categorical column, in category order (in a cleaned
    table every category of a column occurs in it, so that
    [observed=True] and [observed=False] give the same groups). *)
Definition group_keys (key : Series) : list cell :=
  match key with
  | Plain vs => categories_of vs
  | Categorical cats _ => cats
  end.

(** The column [reset_index] makes of the group keys. *)
Definition keys_column (key : Series) : Series :=
  match key with
  | Plain vs => Plain (categories_of vs)
  | Categorical cats _ => Categorical cats (Z.of_nat <$> seq 0 (length cats))
  end.

(** What a cell of a numeric column adds to a sum: [sum] skips missing
    values. The sum of a column that holds text (dtype [object]) is not
    modelled. *)
Definition addend (c : cell) : option Z :=
  match c with
  | Num z => Some z
  | NaN => Some 0
  | Str _ => None
  end.

(** [s.sum()] on a numeric column ([min_count=0]: the sum of no value is
    [0]); a categorical column has no sum ([TypeError]). *)
Definition Series_sum (s : Series) : option Z :=
  match s with
  | Plain vs => Zsum <$> mapM addend vs
  | Categorical _ _ => None
  end.

(** [df.groupby(key)[s].sum()]: per group key, the sum of [s] over the
    rows whose [key] value is the key. A row whose [key] value is missing
    is in no group. *)
Definition groupby_sum (key s : Series) : option (list (cell * Z)) :=
  mapM (λ k, pair k <$> Series_sum (Series_select (Series_eq key k) s)) (group_keys key).

(** Line 46,
    [df_cleaned.groupby('Year')[['Illnesses', 'Hospitalizations']].sum().reset_index()]. *)
Definition illness_trend (df_cleaned : DataFrame) : option DataFrame :=
  year ← getitem df_cleaned "Year";
  illnesses ← getitem df_cleaned "Illnesses";
  hospitalizations ← getitem df_cleaned "Hospitalizations";
  ill ← groupby_sum year illnesses;
  hosp ← groupby_sum year hospitalizations;
  let index := mkFrame (length (group_keys year)) {[ "Year" := keys_column year ]} in
  Some (setitem (setitem index "Illnesses" (Plain (Num <$> ill.*2)))
                "Hospitalizations" (Plain (Num <$> hosp.*2))).

(** Line 56,
    [df_cleaned.groupby('State')['Illnesses'].sum().sort_values(ascending=False).head(10)]. *)
Definition top_states `{SortKind} (df_cleaned : DataFrame) : option (list (cell * Z)) :=
  state ← getitem df_cleaned "State";
  illnesses ← getitem df_cleaned "Illnesses";
  sums ← groupby_sum state illnesses;
  Some (take 10 (sort_values false sums)).



(** *** Reading the scores (lines 239-269) *)

(** The sum of all entries of a matrix. *)
Definition matrix_total (m : list (list Z)) : Z := Zsum (Zsum <$> m).

(** The sum of the diagonal of a matrix. *)
Definition matrix_trace (m : list (list Z)) : Z :=
  Zsum (imap (λ i row, default 0 (row !! i)) m).

(** The number of rows predicted right. *)
Definition agreements (y_true y_pred : list Z) : nat :=
  length (filter (λ tp, tp.1 = tp.2) (zip y_true y_pred)).

(** *** Error inspection (lines 246-261) *)

(** [final_df]: the held-out rows with their actual and predicted label,
    row by row. [pd.DataFrame(X_test, columns=[5 names])] refuses a matrix
    whose rows do not have five entries, and the assignments of [Actual]
    and [Predicted] refuse vectors that are not as long as the table
    ([ValueError]). *)
Definition final_df {R} (X_test : list (list R)) (y_test y_pred : list Z)
    : option (list (list R * Z * Z)) :=
  if decide (Forall (λ row, length row = 5%nat) X_test ∧
             length y_test = length X_test ∧ length y_pred = length X_test)
  then Some (zip (zip X_test y_test) y_pred)
  else None.

(** [final_df[final_df['Actual'] != final_df['Predicted']]]. *)
Definition incorrect_preds {R} (final : list (list R * Z * Z)) : list (list R * Z * Z) :=
  filter (λ r, r.1.2 ≠ r.2) final.

(** ** Example tables *)

Module Examples.

(** Scenario A of the specification, followed by a row whose location,
    food and hospitalization count are missing and a row whose location is
    the literal text [Unknown]. *)
Definition raw : DataFrame :=
  mkFrame 5 (list_to_map
    [ ("Year", Plain [Num 2010; Num 2011; Num 2012; Num 2013; Num 2014]);
      ("Month", Plain [Str "May"; Str "June"; Str "July"; Str "May"; Str "June"]);
      ("State", Plain [Str "CA"; Str "TX"; Str "CA"; Str "NY"; Str "TX"]);
      ("Location", Plain [Str "Restaurant"; Str "Home"; Str "Restaurant"; NaN; Str "Unknown"]);
      ("Food", Plain [Str "Chicken"; Str "Beef"; Str "Chicken"; NaN; Str "Beef"]);
      ("Ingredient", Plain [NaN; NaN; NaN; NaN; NaN]);
      ("Species", Plain [Str "Salmonella"; NaN; NaN; NaN; NaN]);
      ("Serotype/Genotype", Plain [NaN; NaN; NaN; NaN; NaN]);
      ("Status", Plain [Str "Confirmed"; NaN; Str "Suspected"; NaN; NaN]);
      ("Illnesses", Plain [Num 20; Num 3; Num 8; Num 2; Num 5]);
      ("Hospitalizations", Plain [Num 2; Num 0; Num 1; NaN; Num 3]);
      ("Fatalities", Plain [Num 0; NaN; Num 0; NaN; Num 0]) ]).

Definition cleaned : DataFrame := default raw (clean_in_place raw).

(** The same table with the state of its second row left empty in the file. *)
Definition raw_no_state : DataFrame :=
  setitem raw "State" (Plain [Str "CA"; NaN; Str "CA"; Str "NY"; Str "TX"]).

Definition cleaned_no_state : DataFrame :=
  default raw_no_state (clean_in_place raw_no_state).

(** A heap in which [df] is object [0]. *)
Definition df : loc := 0%nat.
Definition heap : gmap loc DataFrame := {[ df := raw ]}.

End Examples.

(** The example, encoded. *)
Module EncodedExample.

Definition encoded : DataFrame * gmap string (list cell) :=
  default (Examples.cleaned, ∅) (encode_columns features Examples.cleaned ∅).

Definition df_model : DataFrame := encoded.1.
Definition le_dict : gmap string (list cell) := encoded.2.

(** The generator numpy shares, in some state, and in a later one. *)
Definition shared : MT19937.state := MT19937.mt19937_seed 0.
Definition shared_later : MT19937.state := (MT19937.mt19937_next shared).2.

(** A stand-in for what the scaler returns: one row of five numbers per
    record. *)
Definition scaled (X : DataFrame) : list (list Q) :=
  replicate (nrows X) [0; 0; 0; 0; 0]%Q.

(** A heap in which [df_cleaned] is object [0], and the heaps after the
    first and the second encoding. *)
Definition df_cleaned : loc := 0%nat.
Definition heap : gmap loc DataFrame := {[ df_cleaned := Examples.cleaned ]}.
Definition heap1 : gmap loc DataFrame := <[1%nat := df_model]> heap.
Definition heap2 : gmap loc DataFrame := <[2%nat := df_model]> heap1.

End EncodedExample.

(** Two tables that differ in the order of their rows only. *)
Module TiesExample.

(** A table of outbreaks, one per food, each with one hospitalization. *)
Definition outbreaks (foods : list cell) : DataFrame :=
  let n := length foods in
  mkFrame n (list_to_map
    [ ("Year", Plain (replicate n (Num 2015)));
      ("Month", Plain (replicate n (Str "May")));
      ("State", Plain (replicate n (Str "CA")));
      ("Location", Plain (replicate n (Str "Restaurant")));
      ("Food", Plain foods);
      ("Ingredient", Plain (replicate n NaN));
      ("Species", Plain (replicate n NaN));
      ("Serotype/Genotype", Plain (replicate n NaN));
      ("Status", Plain (replicate n NaN));
      ("Illnesses", Plain (replicate n (Num 4)));
      ("Hospitalizations", Plain (replicate n (Num 1)));
      ("Fatalities", Plain (replicate n (Num 0))) ]).

Definition raw_tuna_first : DataFrame := outbreaks [Str "Tuna"; Str "Beef"].
Definition raw_beef_first : DataFrame := outbreaks [Str "Beef"; Str "Tuna"].

Definition tuna_first : DataFrame := default raw_tuna_first (clean_in_place raw_tuna_first).
Definition beef_first : DataFrame := default raw_beef_first (clean_in_place raw_beef_first).

End TiesExample.

Module TrendExample.

(** The example table with two outbreaks in 2010, two in 2009 and one
    whose year is missing. *)
Definition raw : DataFrame :=
  setitem Examples.raw "Year" (Plain [Num 2010; Num 2010; NaN; Num 2009; Num 2009]).

Definition cleaned : DataFrame := default raw (clean_in_place raw).

End TrendExample.

(** * Proofs *)

Ltac string_list_mem :=
  match goal with |- ?P => apply (bool_decide_unpack P) end; vm_compute; exact I.

Ltac by_running :=
  match goal with |- ?P => apply (bool_decide_unpack P) end; vm_compute; exact I.

(** ** Frames *)

Lemma getitem_setitem d name s c :
  getitem (setitem d name s) c = if decide (name = c) then Some s else getitem d c.
Proof. unfold getitem, setitem. simpl. apply lookup_insert. Qed.

Lemma setitem_list_nrows names : ∀ d sub, nrows (setitem_list d names sub) = nrows d.
Proof.
  induction names as [|n names IH]; intros d [|s sub]; simpl; try done.
  by rewrite IH.
Qed.

Lemma setitem_list_other names c :
  c ∉ names → ∀ d sub, getitem (setitem_list d names sub) c = getitem d c.
Proof.
  induction names as [|n names IH]; intros Hc d [|s sub]; simpl; try done.
  apply not_elem_of_cons in Hc as [Hne Hc].
  rewrite IH by done. rewrite getitem_setitem. by case_decide.
Qed.

Lemma setitem_list_assigned (P : string → Series → Prop) names sub c :
  Forall2 P names sub → c ∈ names →
  ∀ d, ∃ s, getitem (setitem_list d names sub) c = Some s ∧ P c s.
Proof.
  induction 1 as [|n s names sub HP _ IH]; intros Hc d.
  - by apply elem_of_nil in Hc.
  - simpl. destruct (decide (c ∈ names)) as [Hin|Hout].
    + by apply IH.
    + apply elem_of_cons in Hc as [->|Hc]; [|done].
      exists s. split; [|done].
      rewrite setitem_list_other by done. rewrite getitem_setitem. by case_decide.
Qed.

Lemma fill_columns_spec names v d d' :
  fill_columns names v d = Some d' →
  nrows d' = nrows d ∧
  (∀ c, c ∉ names → getitem d' c = getitem d c) ∧
  (∀ c, c ∈ names → ∃ s s',
      getitem d c = Some s ∧ Series_fillna v s = Some s' ∧ getitem d' c = Some s').
Proof.
  unfold fill_columns, getitem_list, DataFrame_fillna. intros H.
  apply bind_Some in H as (sub & Hsub & H).
  apply bind_Some in H as (filled & Hfilled & H).
  injection H as <-.
  apply mapM_Some in Hsub. apply mapM_Some in Hfilled.
  split; [apply setitem_list_nrows|]. split.
  - intros c Hc. by apply setitem_list_other.
  - intros c Hc.
    assert (Forall2 (λ n s', ∃ s, getitem d n = Some s ∧ Series_fillna v s = Some s')
                    names filled) as HF.
    { eapply Forall2_trans; [|exact Hsub|exact Hfilled]. simpl. eauto. }
    destruct (setitem_list_assigned _ _ _ c HF Hc d) as (s' & Hs' & s & Hs & Hfill).
    eauto.
Qed.

Lemma astype_category_idemp s : astype_category (astype_category s) = astype_category s.
Proof. by destruct s. Qed.

Lemma categorize_columns_spec names : ∀ d d',
  categorize_columns names d = Some d' →
  nrows d' = nrows d ∧
  (∀ c, c ∉ names → getitem d' c = getitem d c) ∧
  (∀ c, c ∈ names → ∃ s,
      getitem d c = Some s ∧ getitem d' c = Some (astype_category s)).
Proof.
  induction names as [|col names IH]; intros d d' H; simpl in H.
  - injection H as <-. split; [done|]. split; [done|]. intros c Hc. by apply elem_of_nil in Hc.
  - apply bind_Some in H as (s0 & Hs0 & H).
    apply IH in H as (Hn & Hother & Hin).
    split; [done|]. split.
    + intros c Hc. apply not_elem_of_cons in Hc as [Hne Hc].
      rewrite Hother by done. rewrite getitem_setitem. by case_decide.
    + intros c Hc. destruct (decide (c ∈ names)) as [Hc'|Hc'].
      * destruct (Hin c Hc') as (s & Hs & Hd'). rewrite getitem_setitem in Hs.
        case_decide as Heq.
        -- subst c. injection Hs as <-. exists s0. by rewrite Hd', astype_category_idemp.
        -- by exists s.
      * apply elem_of_cons in Hc as [->|Hc]; [|done].
        exists s0. split; [done|]. rewrite Hother by done.
        rewrite getitem_setitem. by case_decide.
Qed.

Lemma derive_hospitalized_spec d d' :
  derive_hospitalized d = Some d' →
  nrows d' = nrows d ∧
  (∀ c, c ≠ "Hospitalized" → getitem d' c = getitem d c) ∧
  ∃ s label, getitem d "Hospitalizations" = Some s ∧
             Series_apply hospitalized_label s = Some label ∧
             getitem d' "Hospitalized" = Some label.
Proof.
  unfold derive_hospitalized. intros H.
  apply bind_Some in H as (s & Hs & H).
  apply bind_Some in H as (label & Hlabel & H).
  injection H as <-. split; [done|]. split.
  - intros c Hc. rewrite getitem_setitem. by case_decide.
  - exists s, label. rewrite getitem_setitem. by case_decide.
Qed.

(** ** Categories and codes *)

Lemma index_of_Some v l i : index_of v l = Some i → l !! i = Some v.
Proof.
  revert i. induction l as [|x l IH]; intros i H; simpl in H; [done|].
  case_decide as Hx.
  - injection H as <-. by subst.
  - apply fmap_Some in H as (j & Hj & ->). simpl. by apply IH.
Qed.

Lemma index_of_elem v l : v ∈ l → ∃ i, index_of v l = Some i.
Proof.
  induction 1 as [x l|x y l _ IH]; simpl.
  - exists 0%nat. by case_decide.
  - case_decide; [by exists 0%nat|]. destruct IH as (i & ->). by exists (S i).
Qed.

Lemma index_of_lt v l i : index_of v l = Some i → (i < length l)%nat.
Proof. intros H. apply index_of_Some in H. by eapply lookup_lt_Some. Qed.

Lemma elem_of_categories_of v vs : v ∈ categories_of vs ↔ v ∈ vs ∧ v ≠ NaN.
Proof.
  unfold categories_of. rewrite merge_sort_Permutation, elem_of_remove_dups.
  rewrite list_elem_of_filter. unfold notna. tauto.
Qed.

Lemma isna_true c : isna c = true ↔ c = NaN.
Proof. by destruct c. Qed.

Lemma isna_false c : isna c = false ↔ c ≠ NaN.
Proof. by destruct c. Qed.

Lemma take_code_code_of cats v :
  (v ≠ NaN → v ∈ cats) → take_code cats (code_of cats v) = v.
Proof.
  intros Hv. unfold code_of, take_code. destruct (isna v) eqn:Hna.
  - apply isna_true in Hna. by subst.
  - apply isna_false in Hna. destruct (index_of_elem v cats (Hv Hna)) as (i & Hi).
    rewrite Hi. apply index_of_Some in Hi.
    destruct (Z.ltb_spec (Z.of_nat i) 0) as [?|_]; [lia|].
    by rewrite Nat2Z.id, Hi.
Qed.

(** Typing a column as categorical changes no value of it. *)
Lemma to_values_astype_category s : to_values (astype_category s) = to_values s.
Proof.
  destruct s as [vs|cats codes]; [|done]. simpl.
  apply list_eq; intros i.
  rewrite !list_lookup_fmap. destruct (vs !! i) as [v|] eqn:Hv; [|done]. simpl. f_equal.
  apply take_code_code_of. intros Hna. apply elem_of_categories_of. split; [|done].
  by eapply list_elem_of_lookup_2.
Qed.

Lemma Series_len_to_values s : length (to_values s) = Series_len s.
Proof. destruct s; simpl; [done|]. by rewrite length_fmap. Qed.

Lemma Series_len_astype_category s : Series_len (astype_category s) = Series_len s.
Proof. by rewrite <- !Series_len_to_values, to_values_astype_category. Qed.

Lemma Series_fillna_len v s s' : Series_fillna v s = Some s' → Series_len s' = Series_len s.
Proof.
  destruct s as [vs|cats codes]; simpl; intros H.
  - injection H as <-. simpl. by rewrite length_fmap.
  - apply bind_Some in H as (i & _ & H). injection H as <-. simpl. by rewrite length_fmap.
Qed.

Lemma Series_apply_len f s s' : Series_apply f s = Some s' → Series_len s' = Series_len s.
Proof.
  unfold Series_apply. intros H. apply fmap_Some in H as (l & Hl & ->).
  apply mapM_Some, Forall2_length in Hl. simpl. by rewrite <- Hl, Series_len_to_values.
Qed.

(** ** The cleaned table, column by column *)

Lemma clean_in_place_steps raw cleaned :
  cleaned_of raw cleaned →
  ∃ d1 d2 d3,
    fill_columns categorical_cols (Str "Unknown") raw = Some d1 ∧
    fill_columns numeric_cols (Num 0) d1 = Some d2 ∧
    categorize_columns (categorical_cols ++ ["State"; "Month"])%list d2 = Some d3 ∧
    derive_hospitalized d3 = Some cleaned.
Proof.
  unfold cleaned_of, clean_in_place. intros H.
  apply bind_Some in H as (d1 & H1 & H).
  apply bind_Some in H as (d2 & H2 & H).
  apply bind_Some in H as (d3 & H3 & H).
  by exists d1, d2, d3.
Qed.

Lemma cleaned_nrows raw cleaned : cleaned_of raw cleaned → nrows cleaned = nrows raw.
Proof.
  intros (d1 & d2 & d3 & H1 & H2 & H3 & H4)%clean_in_place_steps.
  apply fill_columns_spec in H1 as (E1 & _). apply fill_columns_spec in H2 as (E2 & _).
  apply categorize_columns_spec in H3 as (E3 & _).
  apply derive_hospitalized_spec in H4 as (E4 & _). congruence.
Qed.

Lemma cleaned_categorical raw cleaned c :
  cleaned_of raw cleaned → c ∈ categorical_cols →
  ∃ s s', getitem raw c = Some s ∧ Series_fillna (Str "Unknown") s = Some s' ∧
          getitem cleaned c = Some (astype_category s').
Proof.
  intros (d1 & d2 & d3 & H1 & H2 & H3 & H4)%clean_in_place_steps Hc.
  apply fill_columns_spec in H1 as (_ & _ & H1).
  apply fill_columns_spec in H2 as (_ & H2 & _).
  apply categorize_columns_spec in H3 as (_ & _ & H3).
  apply derive_hospitalized_spec in H4 as (_ & H4 & _).
  destruct (H1 c Hc) as (s & s' & Hs & Hfill & Hd1).
  assert ((c ∉ numeric_cols) ∧ c ∈ (categorical_cols ++ ["State"; "Month"])%list ∧ c ≠ "Hospitalized")
    as (Hnum & Hcat & Hne).
  { unfold categorical_cols in Hc.
    repeat (apply elem_of_cons in Hc as [->|Hc]); try (by apply elem_of_nil in Hc);
      (split; [|split]); string_list_mem. }
  exists s, s'. split; [done|]. split; [done|].
  rewrite H4 by done. destruct (H3 c Hcat) as (s2 & Hs2 & ->).
  rewrite H2, Hd1 in Hs2 by done. by injection Hs2 as <-.
Qed.

Lemma cleaned_numeric raw cleaned c :
  cleaned_of raw cleaned → c ∈ numeric_cols →
  ∃ s s', getitem raw c = Some s ∧ Series_fillna (Num 0) s = Some s' ∧
          getitem cleaned c = Some s'.
Proof.
  intros (d1 & d2 & d3 & H1 & H2 & H3 & H4)%clean_in_place_steps Hc.
  apply fill_columns_spec in H1 as (_ & H1 & _).
  apply fill_columns_spec in H2 as (_ & _ & H2).
  apply categorize_columns_spec in H3 as (_ & H3 & _).
  apply derive_hospitalized_spec in H4 as (_ & H4 & _).
  destruct (H2 c Hc) as (s & s' & Hs & Hfill & Hd2).
  assert ((c ∉ categorical_cols) ∧ (c ∉ (categorical_cols ++ ["State"; "Month"])%list) ∧ c ≠ "Hospitalized")
    as (Hcat & Hcat' & Hne).
  { unfold numeric_cols in Hc.
    repeat (apply elem_of_cons in Hc as [->|Hc]); try (by apply elem_of_nil in Hc);
      (split; [|split]); string_list_mem. }
  exists s, s'. rewrite <- H1 by done. split; [done|]. split; [done|].
  by rewrite H4, H3.
Qed.

Lemma cleaned_state_month raw cleaned c :
  cleaned_of raw cleaned → c ∈ ["State"; "Month"] →
  ∃ s, getitem raw c = Some s ∧ getitem cleaned c = Some (astype_category s).
Proof.
  intros (d1 & d2 & d3 & H1 & H2 & H3 & H4)%clean_in_place_steps Hc.
  apply fill_columns_spec in H1 as (_ & H1 & _).
  apply fill_columns_spec in H2 as (_ & H2 & _).
  apply categorize_columns_spec in H3 as (_ & _ & H3).
  apply derive_hospitalized_spec in H4 as (_ & H4 & _).
  assert ((c ∉ categorical_cols) ∧ (c ∉ numeric_cols) ∧
          c ∈ (categorical_cols ++ ["State"; "Month"])%list ∧ c ≠ "Hospitalized")
    as (Hcat & Hnum & Hcat' & Hne).
  { repeat (apply elem_of_cons in Hc as [->|Hc]); try (by apply elem_of_nil in Hc);
      (split; [|split; [|split]]); string_list_mem. }
  destruct (H3 c Hcat') as (s & Hs & Hd3).
  exists s. rewrite <- H1, <- H2 by done. split; [done|]. by rewrite H4.
Qed.

Lemma cleaned_hospitalized raw cleaned :
  cleaned_of raw cleaned →
  ∃ s label, getitem cleaned "Hospitalizations" = Some s ∧
             Series_apply hospitalized_label s = Some label ∧
             getitem cleaned "Hospitalized" = Some label.
Proof.
  intros (d1 & d2 & d3 & H1 & H2 & H3 & H4)%clean_in_place_steps.
  apply derive_hospitalized_spec in H4 as (_ & H4 & s & label & Hs & Hl & Hh).
  exists s, label. by rewrite H4.
Qed.

Lemma cleaned_other raw cleaned c :
  cleaned_of raw cleaned →
  c ∉ (categorical_cols ++ numeric_cols ++ ["State"; "Month"; "Hospitalized"])%list →
  getitem cleaned c = getitem raw c.
Proof.
  intros (d1 & d2 & d3 & H1 & H2 & H3 & H4)%clean_in_place_steps Hc.
  apply fill_columns_spec in H1 as (_ & H1 & _).
  apply fill_columns_spec in H2 as (_ & H2 & _).
  apply categorize_columns_spec in H3 as (_ & H3 & _).
  apply derive_hospitalized_spec in H4 as (_ & H4 & _).
  rewrite !not_elem_of_app in Hc. destruct Hc as (Hcat & Hnum & Hrest).
  rewrite !not_elem_of_cons in Hrest. destruct Hrest as (HS & HM & HH & _).
  rewrite H4, H3, H2, H1; try done.
  rewrite not_elem_of_app, !not_elem_of_cons. repeat split; try done. apply not_elem_of_nil.
Qed.

Lemma value_at_Some d c i x :
  value_at d c i = Some x ↔ ∃ s, getitem d c = Some s ∧ to_values s !! i = Some x.
Proof. unfold value_at. by rewrite bind_Some. Qed.

Lemma read_csv_fillna raw c s v s' :
  read_csv_frame raw → getitem raw c = Some s → Series_fillna v s = Some s' →
  to_values s' = (λ x, if isna x then v else x) <$> to_values s.
Proof.
  intros Hraw Hs Hfill. destruct (Hraw c s Hs) as (vs & -> & _).
  simpl in Hfill. by injection Hfill as <-.
Qed.

Lemma read_csv_rectangular d : read_csv_frame d → rectangular d.
Proof. intros Hd c s Hs. by destruct (Hd c s Hs) as (vs & -> & ?). Qed.

Lemma hospitalized_label_spec x h :
  hospitalized_label x = Some h →
  (h = Num 1 ∨ h = Num 0) ∧ (h = Num 1 ↔ ∃ z, x = Num z ∧ 0 < z).
Proof.
  destruct x as [|z|s]; simpl; intros H; [| |done]; injection H as <-.
  - split; [by right|]. split; [done|]. by intros (z & ? & _).
  - destruct (Z.ltb_spec 0 z) as [Hz|Hz].
    + split; [by left|]. split; [|done]. intros _. by exists z.
    + split; [by right|]. split; [done|]. intros (z' & [= <-] & ?). lia.
Qed.

(** The cleaned value of an imputed field, from the raw one. *)
Lemma cleaned_categorical_value raw cleaned c i x :
  read_csv_frame raw → cleaned_of raw cleaned → c ∈ categorical_cols →
  value_at raw c i = Some x →
  value_at cleaned c i = Some (if isna x then Str "Unknown" else x).
Proof.
  intros Hraw Hclean Hc Hx. apply value_at_Some in Hx as (s & Hs & Hx).
  destruct (cleaned_categorical _ _ _ Hclean Hc) as (s0 & s' & Hs0 & Hfill & Hcl).
  rewrite Hs in Hs0. injection Hs0 as <-.
  apply value_at_Some. eexists. split; [exact Hcl|].
  rewrite to_values_astype_category, (read_csv_fillna _ _ _ _ _ Hraw Hs Hfill).
  by rewrite list_lookup_fmap, Hx.
Qed.

Lemma cleaned_numeric_value raw cleaned c i x :
  read_csv_frame raw → cleaned_of raw cleaned → c ∈ numeric_cols →
  value_at raw c i = Some x →
  value_at cleaned c i = Some (if isna x then Num 0 else x).
Proof.
  intros Hraw Hclean Hc Hx. apply value_at_Some in Hx as (s & Hs & Hx).
  destruct (cleaned_numeric _ _ _ Hclean Hc) as (s0 & s' & Hs0 & Hfill & Hcl).
  rewrite Hs in Hs0. injection Hs0 as <-.
  apply value_at_Some. eexists. split; [exact Hcl|].
  rewrite (read_csv_fillna _ _ _ _ _ Hraw Hs Hfill).
  by rewrite list_lookup_fmap, Hx.
Qed.

(** The rows of a cleaned column are the rows of the raw one. *)
Lemma cleaned_categorical_rows raw cleaned c i y :
  read_csv_frame raw → cleaned_of raw cleaned → c ∈ categorical_cols →
  value_at cleaned c i = Some y → ∃ x, value_at raw c i = Some x.
Proof.
  intros Hraw Hclean Hc Hy. apply value_at_Some in Hy as (s & Hs & Hy).
  destruct (cleaned_categorical _ _ _ Hclean Hc) as (s0 & s' & Hs0 & Hfill & Hcl).
  rewrite Hcl in Hs. injection Hs as <-.
  rewrite to_values_astype_category, (read_csv_fillna _ _ _ _ _ Hraw Hs0 Hfill) in Hy.
  rewrite list_lookup_fmap in Hy. apply fmap_Some in Hy as (x & Hx & _).
  exists x. apply value_at_Some. by exists s0.
Qed.

Lemma cleaned_numeric_rows raw cleaned c i y :
  read_csv_frame raw → cleaned_of raw cleaned → c ∈ numeric_cols →
  value_at cleaned c i = Some y → ∃ x, value_at raw c i = Some x.
Proof.
  intros Hraw Hclean Hc Hy. apply value_at_Some in Hy as (s & Hs & Hy).
  destruct (cleaned_numeric _ _ _ Hclean Hc) as (s0 & s' & Hs0 & Hfill & Hcl).
  rewrite Hcl in Hs. injection Hs as <-.
  rewrite (read_csv_fillna _ _ _ _ _ Hraw Hs0 Hfill) in Hy.
  rewrite list_lookup_fmap in Hy. apply fmap_Some in Hy as (x & Hx & _).
  exists x. apply value_at_Some. by exists s0.
Qed.

(** ** Cleaning: the claims *)

(** C1. In every row of the cleaned table the label [Hospitalized] is [1]
    exactly when the (imputed) count [Hospitalizations] is greater than
    zero, and [0] otherwise; a count of [0] gives [0], a count of [1]
    gives [1]. *)
Theorem C1_hospitalized_iff_positive raw cleaned i x :
  cleaned_of raw cleaned →
  value_at cleaned "Hospitalizations" i = Some x →
  ∃ h, value_at cleaned "Hospitalized" i = Some h ∧
       (h = Num 1 ∨ h = Num 0) ∧
       (h = Num 1 ↔ ∃ z, x = Num z ∧ 0 < z) ∧
       (x = Num 0 → h = Num 0) ∧
       (x = Num 1 → h = Num 1).
Proof.
  intros Hclean Hx.
  destruct (cleaned_hospitalized _ _ Hclean) as (s & label & Hs & Hlabel & Hh).
  apply value_at_Some in Hx as (s0 & Hs0 & Hx). rewrite Hs in Hs0. injection Hs0 as <-.
  unfold Series_apply in Hlabel. apply fmap_Some in Hlabel as (l & Hl & ->).
  apply mapM_Some in Hl. destruct (Forall2_lookup_l _ _ _ _ _ Hl Hx) as (h & Hh' & Hf).
  exists h. split; [apply value_at_Some; by exists (Plain l)|].
  destruct (hospitalized_label_spec _ _ Hf) as (H01 & Hiff).
  repeat split; try done; try apply Hiff.
  - intros ->. simpl in Hf. by injection Hf as <-.
  - intros ->. simpl in Hf. by injection Hf as <-.
Qed.

Lemma C1_witness :
  ∃ h, value_at Examples.cleaned "Hospitalized" 0 = Some h ∧
       (h = Num 1 ∨ h = Num 0) ∧
       (h = Num 1 ↔ ∃ z, Num 2 = Num z ∧ 0 < z) ∧
       (Num 2 = Num 0 → h = Num 0) ∧
       (Num 2 = Num 1 → h = Num 1).
Proof.
  apply (C1_hospitalized_iff_positive Examples.raw Examples.cleaned 0 (Num 2)).
  - vm_compute. reflexivity.
  - vm_compute. reflexivity.
Defined.

(** The rows of the label are the rows of the count. *)
Lemma hospitalized_rows raw cleaned i :
  cleaned_of raw cleaned →
  is_Some (value_at cleaned "Hospitalized" i) ↔ is_Some (value_at cleaned "Hospitalizations" i).
Proof.
  intros Hclean.
  destruct (cleaned_hospitalized _ _ Hclean) as (s & label & Hs & Hlabel & Hh).
  unfold value_at. rewrite Hs, Hh. simpl.
  rewrite !lookup_lt_is_Some, !Series_len_to_values.
  by rewrite (Series_apply_len _ _ _ Hlabel).
Qed.

(** C2 fails as worded: a raw field that holds the text [Unknown] is not
    missing, and its cleaned field is [Unknown] all the same (row 4 of the
    example, column [Location]). *)
Lemma C2_counterexample :
  cleaned_of Examples.raw Examples.cleaned ∧
  ¬ spec_unknown_iff_missing Examples.raw Examples.cleaned.
Proof.
  split; [vm_compute; reflexivity|]. intros H.
  destruct (H "Location" 4%nat (Str "Unknown") (Str "Unknown")) as (_ & Hiff).
  - string_list_mem.
  - vm_compute. reflexivity.
  - vm_compute. reflexivity.
  - by destruct Hiff as [Hiff _]; specialize (Hiff eq_refl).
Qed.

(** C2, amended. In every row, each of the six categorical fields of the
    cleaned table is [Unknown] where the raw field was missing and the raw
    value otherwise (so it is never missing, and it is [Unknown] exactly
    when the raw field was missing or was the text [Unknown] itself); each
    of [Hospitalizations] and [Fatalities] is [0] where the raw field was
    missing and the raw value otherwise. *)
Theorem C2_imputed_values raw cleaned c i x :
  read_csv_frame raw → cleaned_of raw cleaned →
  value_at raw c i = Some x →
  (c ∈ categorical_cols →
     value_at cleaned c i = Some (if isna x then Str "Unknown" else x) ∧
     (∀ y, value_at cleaned c i = Some y →
        y ≠ NaN ∧ (x = NaN → y = Str "Unknown") ∧
        (y = Str "Unknown" ↔ x = NaN ∨ x = Str "Unknown"))) ∧
  (c ∈ numeric_cols →
     value_at cleaned c i = Some (if isna x then Num 0 else x)).
Proof.
  intros Hraw Hclean Hx. split; intros Hc.
  - pose proof (cleaned_categorical_value _ _ _ _ _ Hraw Hclean Hc Hx) as Hv.
    split; [done|]. intros y Hy. rewrite Hv in Hy. injection Hy as <-.
    destruct x as [|z|t]; simpl; repeat split; try done; try (intros [?|?]; done); auto.
  - by apply (cleaned_numeric_value raw).
Qed.

Lemma read_csv_frame_check d :
  map_Forall (λ _ s, plain_of_len (nrows d) s) (columns d) → read_csv_frame d.
Proof.
  intros H name s Hs. specialize (H name s Hs). destruct s as [vs|]; [|done].
  by exists vs.
Qed.

Lemma example_read_csv : read_csv_frame Examples.raw.
Proof. apply read_csv_frame_check. by_running. Qed.

Lemma example_no_state_read_csv : read_csv_frame Examples.raw_no_state.
Proof. apply read_csv_frame_check. by_running. Qed.

Lemma C2_witness :
  ("Location" ∈ categorical_cols →
     value_at Examples.cleaned "Location" 3 = Some (if isna NaN then Str "Unknown" else NaN) ∧
     (∀ y, value_at Examples.cleaned "Location" 3 = Some y →
        y ≠ NaN ∧ (NaN = NaN → y = Str "Unknown") ∧
        (y = Str "Unknown" ↔ NaN = NaN ∨ NaN = Str "Unknown"))) ∧
  ("Location" ∈ numeric_cols →
     value_at Examples.cleaned "Location" 3 = Some (if isna NaN then Num 0 else NaN)).
Proof.
  apply (C2_imputed_values Examples.raw Examples.cleaned "Location" 3 NaN).
  - exact example_read_csv.
  - vm_compute. reflexivity.
  - vm_compute. reflexivity.
Defined.

(** C10. A row whose raw [Hospitalizations] field is absent has the count
    [0] and the label [0] in the cleaned table. *)
Theorem C10_absent_count_gives_zero_label raw cleaned i :
  read_csv_frame raw → cleaned_of raw cleaned →
  value_at raw "Hospitalizations" i = Some NaN →
  value_at cleaned "Hospitalizations" i = Some (Num 0) ∧
  value_at cleaned "Hospitalized" i = Some (Num 0).
Proof.
  intros Hraw Hclean Hx.
  assert (value_at cleaned "Hospitalizations" i = Some (Num 0)) as Hv.
  { apply (cleaned_numeric_value raw cleaned "Hospitalizations" i NaN); try done.
    string_list_mem. }
  split; [done|].
  destruct (cleaned_hospitalized _ _ Hclean) as (s & label & Hs & Hlabel & Hh).
  apply value_at_Some in Hv as (s0 & Hs0 & Hv). rewrite Hs in Hs0. injection Hs0 as <-.
  unfold Series_apply in Hlabel. apply fmap_Some in Hlabel as (l & Hl & ->).
  apply mapM_Some in Hl. destruct (Forall2_lookup_l _ _ _ _ _ Hl Hv) as (h & Hh' & Hf).
  simpl in Hf. injection Hf as <-.
  apply value_at_Some. by exists (Plain l).
Qed.

Lemma C10_witness :
  value_at Examples.cleaned "Hospitalizations" 3 = Some (Num 0) ∧
  value_at Examples.cleaned "Hospitalized" 3 = Some (Num 0).
Proof.
  apply (C10_absent_count_gives_zero_label Examples.raw Examples.cleaned 3).
  - exact example_read_csv.
  - vm_compute. reflexivity.
  - vm_compute. reflexivity.
Defined.

(** ** When the cleaning block runs through *)

Lemma fill_columns_runs names v d :
  (∀ c, c ∈ names → ∃ vs, getitem d c = Some (Plain vs)) →
  is_Some (fill_columns names v d).
Proof.
  intros Hcols. unfold fill_columns, getitem_list, DataFrame_fillna.
  assert (is_Some (mapM (getitem d) names)) as (sub & Hsub).
  { apply mapM_is_Some, Forall_forall. intros c Hc. destruct (Hcols c Hc) as (vs & Hvs).
    simpl. rewrite Hvs. by eexists. }
  rewrite Hsub. simpl.
  assert (is_Some (mapM (Series_fillna v) sub)) as (filled & Hfilled).
  { apply mapM_is_Some. apply mapM_Some in Hsub.
    eapply Forall2_Forall_r; [exact Hsub|]. apply Forall_forall. intros c Hc s Hs.
    destruct (Hcols c Hc) as (vs & Hvs). rewrite Hvs in Hs. injection Hs as <-.
    simpl. by eexists. }
  rewrite Hfilled. simpl. by eexists.
Qed.

Lemma categorize_columns_runs names : ∀ d,
  (∀ c, c ∈ names → is_Some (getitem d c)) → is_Some (categorize_columns names d).
Proof.
  induction names as [|col names IH]; intros d Hcols; simpl; [by eexists|].
  destruct (Hcols col) as (s & Hs); [by left|]. rewrite Hs. simpl.
  apply IH. intros c Hc. rewrite getitem_setitem. case_decide; [by eexists|].
  apply Hcols. by right.
Qed.

(** The block runs through on a table [read_csv] returned that has the
    columns the block reads and no text in [Hospitalizations]. *)
Lemma clean_in_place_runs raw :
  read_csv_frame raw →
  (∀ c, c ∈ required_cols → is_Some (getitem raw c)) →
  (∀ i t, value_at raw "Hospitalizations" i ≠ Some (Str t)) →
  ∃ cleaned, cleaned_of raw cleaned.
Proof.
  intros Hraw Hcols Hnum. unfold cleaned_of, clean_in_place.
  assert (∀ c, c ∈ required_cols → ∃ vs, getitem raw c = Some (Plain vs)) as Hplain.
  { intros c Hc. destruct (Hcols c Hc) as (s & Hs).
    destruct (Hraw c s Hs) as (vs & -> & _). by exists vs. }
  destruct (fill_columns_runs categorical_cols (Str "Unknown") raw) as (d1 & H1).
  { intros c Hc. apply Hplain. unfold required_cols. apply elem_of_app. by left. }
  rewrite H1. cbn [mbind option_bind]. pose proof (fill_columns_spec _ _ _ _ H1) as (_ & H1o & H1i).
  destruct (fill_columns_runs numeric_cols (Num 0) d1) as (d2 & H2).
  { intros c Hc. rewrite H1o.
    - apply Hplain. unfold required_cols. rewrite !elem_of_app. auto.
    - unfold numeric_cols in Hc.
      repeat (apply elem_of_cons in Hc as [->|Hc]); try (by apply elem_of_nil in Hc);
        string_list_mem. }
  rewrite H2. cbn [mbind option_bind]. pose proof (fill_columns_spec _ _ _ _ H2) as (_ & H2o & H2i).
  destruct (categorize_columns_runs (categorical_cols ++ ["State"; "Month"])%list d2)
    as (d3 & H3).
  { intros c Hc. apply elem_of_app in Hc as [Hc|Hc].
    - destruct (H1i c Hc) as (s & s' & _ & _ & Hd1). rewrite H2o; [by eexists|].
      unfold categorical_cols in Hc.
      repeat (apply elem_of_cons in Hc as [->|Hc]); try (by apply elem_of_nil in Hc);
        string_list_mem.
    - assert ((c ∉ categorical_cols) ∧ (c ∉ numeric_cols)) as (? & ?).
      { repeat (apply elem_of_cons in Hc as [->|Hc]); try (by apply elem_of_nil in Hc);
          split; string_list_mem. }
      rewrite H2o, H1o by done. apply Hcols. unfold required_cols. rewrite !elem_of_app. auto. }
  rewrite H3. cbn [mbind option_bind]. pose proof (categorize_columns_spec _ _ _ H3) as (_ & H3o & _).
  unfold derive_hospitalized.
  destruct (H2i "Hospitalizations") as (s & s' & Hs & Hfill & Hd2); [string_list_mem|].
  rewrite H3o by string_list_mem. rewrite Hd2. cbn [mbind option_bind].
  assert ("Hospitalizations" ∉ categorical_cols) as Hnc by string_list_mem.
  rewrite (H1o _ Hnc) in Hs.
  destruct (Hraw _ _ Hs) as (vs & -> & _). simpl in Hfill. injection Hfill as <-.
  assert (is_Some (Series_apply hospitalized_label
            (Plain ((λ c, if isna c then Num 0 else c) <$> vs)))) as (label & ->).
  { unfold Series_apply. simpl. apply fmap_is_Some, mapM_is_Some, Forall_fmap, Forall_lookup.
    intros i x Hx. simpl. destruct x as [|z|t]; simpl; try by eexists.
    exfalso. apply (Hnum i t). apply value_at_Some. by eexists. }
  simpl. by eexists.
Qed.

Lemma example_runs : ∃ cleaned, cleaned_of Examples.raw cleaned.
Proof.
  apply clean_in_place_runs.
  - exact example_read_csv.
  - intros c Hc. unfold required_cols, categorical_cols, numeric_cols in Hc. simpl in Hc.
    repeat (apply elem_of_cons in Hc as [->|Hc]); try (by apply elem_of_nil in Hc);
      by_running.
  - intros i t H. apply value_at_Some in H as (s & Hs & H).
    vm_compute in Hs. injection Hs as <-. simpl in H.
    do 5 (destruct i as [|i]; [by simplify_eq/=|]). done.
Qed.

(** ** No missing values downstream *)

(** C4 fails as worded: the block imputes nothing in [Year], [Month],
    [State] and [Illnesses], so a state left empty in the file is still
    missing in the cleaned table (row 1 of the example). *)
Lemma C4_counterexample :
  read_csv_frame Examples.raw_no_state ∧
  cleaned_of Examples.raw_no_state Examples.cleaned_no_state ∧
  ¬ spec_no_missing_downstream Examples.cleaned_no_state.
Proof.
  split; [exact example_no_state_read_csv|]. split; [vm_compute; reflexivity|].
  intros H. apply (H "State" 1%nat NaN); [string_list_mem| |done].
  vm_compute. reflexivity.
Qed.

(** C4, amended. In every cleaned record the imputed and derived fields
    used downstream ([Location], [Food], [Hospitalizations],
    [Hospitalized]) are never missing; [Year], [Month], [State] and
    [Illnesses] are carried over as they are, so they are missing in the
    cleaned record exactly where they are missing in the raw one. *)
Theorem C4_missing_values_after_cleaning raw cleaned :
  read_csv_frame raw → cleaned_of raw cleaned →
  (∀ c i y, c ∈ ["Location"; "Food"; "Hospitalizations"; "Hospitalized"] →
     value_at cleaned c i = Some y → y ≠ NaN) ∧
  (∀ c i, c ∈ ["Year"; "Month"; "State"; "Illnesses"] →
     value_at cleaned c i = value_at raw c i) ∧
  ((∀ c i, c ∈ ["Year"; "Month"; "State"; "Illnesses"] → value_at raw c i ≠ Some NaN) →
   spec_no_missing_downstream cleaned).
Proof.
  intros Hraw Hclean.
  assert (∀ c i y, c ∈ ["Location"; "Food"; "Hospitalizations"; "Hospitalized"] →
            value_at cleaned c i = Some y → y ≠ NaN) as Himputed.
  { intros c i y Hc Hy.
    assert (c ∈ categorical_cols ∨ c ∈ numeric_cols ∨ c = "Hospitalized") as [Hcat|[Hnum| ->]].
    { repeat (apply elem_of_cons in Hc as [->|Hc]); try (by apply elem_of_nil in Hc);
        [left|left|right;left|right;right]; try done; string_list_mem. }
    - destruct (cleaned_categorical_rows _ _ _ _ _ Hraw Hclean Hcat Hy) as (x & Hx).
      rewrite (cleaned_categorical_value _ _ _ _ _ Hraw Hclean Hcat Hx) in Hy.
      injection Hy as <-. by destruct x.
    - destruct (cleaned_numeric_rows _ _ _ _ _ Hraw Hclean Hnum Hy) as (x & Hx).
      rewrite (cleaned_numeric_value _ _ _ _ _ Hraw Hclean Hnum Hx) in Hy.
      injection Hy as <-. by destruct x.
    - destruct (cleaned_hospitalized _ _ Hclean) as (s & label & Hs & Hlabel & Hh).
      apply value_at_Some in Hy as (s0 & Hs0 & Hy). rewrite Hh in Hs0. injection Hs0 as <-.
      unfold Series_apply in Hlabel. apply fmap_Some in Hlabel as (l & Hl & ->).
      apply mapM_Some in Hl. destruct (Forall2_lookup_r _ _ _ _ _ Hl Hy) as (x & _ & Hf).
      destruct (hospitalized_label_spec _ _ Hf) as ([-> | ->] & _); done. }
  assert (∀ c i, c ∈ ["Year"; "Month"; "State"; "Illnesses"] →
            value_at cleaned c i = value_at raw c i) as Hcarried.
  { intros c i Hc.
    assert (c ∈ ["State"; "Month"] ∨
            c ∉ (categorical_cols ++ numeric_cols ++ ["State"; "Month"; "Hospitalized"])%list)
      as [Hsm|Hother].
    { repeat (apply elem_of_cons in Hc as [->|Hc]); try (by apply elem_of_nil in Hc);
        [right|left|left|right]; string_list_mem. }
    - destruct (cleaned_state_month _ _ _ Hclean Hsm) as (s & Hs & Hcl).
      unfold value_at. rewrite Hs, Hcl. simpl. by rewrite to_values_astype_category.
    - unfold value_at. by rewrite (cleaned_other _ _ _ Hclean Hother). }
  split; [done|]. split; [done|].
  intros Hpresent c i y Hc Hy.
  assert (c ∈ ["Location"; "Food"; "Hospitalizations"; "Hospitalized"] ∨
          c ∈ ["Year"; "Month"; "State"; "Illnesses"]) as [Hi|Hk].
  { unfold downstream_fields in Hc.
    repeat (apply elem_of_cons in Hc as [->|Hc]); try (by apply elem_of_nil in Hc);
      [right|right|right|left|left|right|left|left]; string_list_mem. }
  - by apply (Himputed c i).
  - intros ->. rewrite (Hcarried c i Hk) in Hy. by apply (Hpresent c i).
Qed.

Lemma C4_witness :
  (∀ c i y, c ∈ ["Location"; "Food"; "Hospitalizations"; "Hospitalized"] →
     value_at Examples.cleaned c i = Some y → y ≠ NaN) ∧
  (∀ c i, c ∈ ["Year"; "Month"; "State"; "Illnesses"] →
     value_at Examples.cleaned c i = value_at Examples.raw c i) ∧
  ((∀ c i, c ∈ ["Year"; "Month"; "State"; "Illnesses"] → value_at Examples.raw c i ≠ Some NaN) →
   spec_no_missing_downstream Examples.cleaned).
Proof.
  apply (C4_missing_values_after_cleaning Examples.raw Examples.cleaned).
  - exact example_read_csv.
  - vm_compute. reflexivity.
Defined.

(** ** Objects: what cleaning touches *)

Lemma Script_bind_Some {A B} (m : Script A) (f : A → Script B) h b h'' :
  (m ≫= f) h = Some (b, h'') ↔ ∃ a h', m h = Some (a, h') ∧ f a h' = Some (b, h'').
Proof.
  unfold mbind, Script_bind. destruct (m h) as [[a h']|].
  - split; [by exists a, h'|]. intros (a' & h2 & Heq & ?). by simplify_eq.
  - split; [done|]. by intros (a' & h2 & ? & _).
Qed.

Lemma DataFrame_copy_spec l h l' h' :
  DataFrame_copy l h = Some (l', h') →
  ∃ d, h !! l = Some d ∧ h !! l' = None ∧ h' = <[l' := d]> h.
Proof.
  unfold DataFrame_copy. intros H. apply bind_Some in H as (d & Hd & H).
  injection H as <- <-. exists d. split; [done|]. split; [|done].
  apply not_elem_of_dom, is_fresh.
Qed.

Lemma in_place_with_spec {A} l (f : DataFrame → option (DataFrame * A)) h a h' :
  in_place_with l f h = Some (a, h') →
  ∃ d d', h !! l = Some d ∧ f d = Some (d', a) ∧ h' = <[l := d']> h.
Proof.
  unfold in_place_with. intros H. apply bind_Some in H as (d & Hd & H).
  apply bind_Some in H as ([d' a'] & Hf & H). injection H as <- <-. by exists d, d'.
Qed.

(** What [cleaning] does to the heap: a new object holds the cleaned
    table, nothing else changes. *)
Lemma cleaning_spec df h df_cleaned h' :
  cleaning df h = Some (df_cleaned, h') →
  ∃ raw cleaned, h !! df = Some raw ∧ h !! df_cleaned = None ∧
                 cleaned_of raw cleaned ∧ h' = <[df_cleaned := cleaned]> h.
Proof.
  unfold cleaning. intros H.
  apply Script_bind_Some in H as (c & h1 & Hcopy & H).
  apply Script_bind_Some in H as ([] & h2 & Hin & H).
  injection H as <- <-.
  apply DataFrame_copy_spec in Hcopy as (raw & Hraw & Hfresh & ->).
  unfold in_place in Hin. apply in_place_with_spec in Hin as (d & d' & Hd & Hf & ->).
  rewrite lookup_insert_eq in Hd. injection Hd as <-.
  apply bind_Some in Hf as (cleaned & Hclean & [= <-]).
  exists raw, cleaned. by rewrite insert_insert_eq.
Qed.

Lemma cleaned_rectangular raw cleaned :
  cleaned_of raw cleaned → rectangular raw → rectangular cleaned.
Proof.
  intros Hclean Hrect c s Hs. rewrite (cleaned_nrows _ _ Hclean).
  destruct (decide (c ∈ categorical_cols)) as [Hcat|Hcat].
  { destruct (cleaned_categorical _ _ _ Hclean Hcat) as (s0 & s' & Hs0 & Hfill & Hcl).
    rewrite Hcl in Hs. injection Hs as <-.
    rewrite Series_len_astype_category, (Series_fillna_len _ _ _ Hfill). by eapply Hrect. }
  destruct (decide (c ∈ numeric_cols)) as [Hnum|Hnum].
  { destruct (cleaned_numeric _ _ _ Hclean Hnum) as (s0 & s' & Hs0 & Hfill & Hcl).
    rewrite Hcl in Hs. injection Hs as <-.
    rewrite (Series_fillna_len _ _ _ Hfill). by eapply Hrect. }
  destruct (decide (c ∈ ["State"; "Month"])) as [Hsm|Hsm].
  { destruct (cleaned_state_month _ _ _ Hclean Hsm) as (s0 & Hs0 & Hcl).
    rewrite Hcl in Hs. injection Hs as <-.
    rewrite Series_len_astype_category. by eapply Hrect. }
  destruct (decide (c = "Hospitalized")) as [->|Hh].
  { destruct (cleaned_hospitalized _ _ Hclean) as (s0 & label & Hs0 & Hlabel & Hcl).
    rewrite Hcl in Hs. injection Hs as <-.
    rewrite (Series_apply_len _ _ _ Hlabel).
    destruct (cleaned_numeric _ _ "Hospitalizations" Hclean) as (s1 & s' & Hs1 & Hfill & Hcl');
      [string_list_mem|].
    rewrite Hcl' in Hs0. injection Hs0 as <-.
    rewrite (Series_fillna_len _ _ _ Hfill). by eapply Hrect. }
  rewrite (cleaned_other _ _ c Hclean) in Hs; [by eapply Hrect|].
  rewrite !not_elem_of_app. split; [done|]. split; [done|].
  rewrite !not_elem_of_cons in Hsm. rewrite !not_elem_of_cons. tauto.
Qed.

(** C3. When the cleaning block has run, the object [df] names holds the
    raw table as before and no other object that existed has changed; the
    cleaned table is a new object, its index is as long as the raw one,
    and every column of it has one value per raw row. *)
Theorem C3_row_count_and_raw_table_preserved h df raw df_cleaned h' :
  h !! df = Some raw → rectangular raw →
  cleaning df h = Some (df_cleaned, h') →
  h' !! df = Some raw ∧
  (∀ l, is_Some (h !! l) → h' !! l = h !! l) ∧
  ∃ cleaned, h' !! df_cleaned = Some cleaned ∧ cleaned_of raw cleaned ∧
             DataFrame_len cleaned = DataFrame_len raw ∧
             (∀ c s, getitem cleaned c = Some s → Series_len s = DataFrame_len raw).
Proof.
  intros Hdf Hrect Hrun.
  apply cleaning_spec in Hrun as (raw' & cleaned & Hraw' & Hfresh & Hclean & ->).
  rewrite Hdf in Hraw'. injection Hraw' as <-.
  assert (∀ l, is_Some (h !! l) → <[df_cleaned := cleaned]> h !! l = h !! l) as Hframe.
  { intros l (d & Hl). rewrite lookup_insert_ne; [done|]. intros ->. congruence. }
  split; [rewrite Hframe; [done|by eexists]|]. split; [done|].
  exists cleaned. rewrite lookup_insert_eq. split; [done|]. split; [done|].
  unfold DataFrame_len. split; [by apply cleaned_nrows|].
  intros c s Hs. rewrite <- (cleaned_nrows _ _ Hclean).
  by apply (cleaned_rectangular _ _ Hclean Hrect c).
Qed.

Lemma C3_witness :
  Examples.heap !! Examples.df = Some Examples.raw ∧
  cleaning Examples.df Examples.heap = Some (1%nat, <[1%nat := Examples.cleaned]> Examples.heap) ∧
  (<[1%nat := Examples.cleaned]> Examples.heap !! Examples.df = Some Examples.raw ∧
   (∀ l, is_Some (Examples.heap !! l) →
      <[1%nat := Examples.cleaned]> Examples.heap !! l = Examples.heap !! l) ∧
   ∃ cleaned, <[1%nat := Examples.cleaned]> Examples.heap !! 1%nat = Some cleaned ∧
              cleaned_of Examples.raw cleaned ∧
              DataFrame_len cleaned = DataFrame_len Examples.raw ∧
              (∀ c s, getitem cleaned c = Some s → Series_len s = DataFrame_len Examples.raw)).
Proof.
  assert (cleaning Examples.df Examples.heap
          = Some (1%nat, <[1%nat := Examples.cleaned]> Examples.heap)) as Hrun.
  { vm_compute. reflexivity. }
  split; [reflexivity|]. split; [exact Hrun|].
  apply (C3_row_count_and_raw_table_preserved Examples.heap Examples.df Examples.raw).
  - reflexivity.
  - apply read_csv_rectangular, example_read_csv.
  - exact Hrun.
Defined.

(** ** The order of labels *)

Lemma string_lt_irrefl s : ¬ String_as_OT.lt s s.
Proof. apply (irreflexivity String_as_OT.lt). Qed.

Lemma string_compare_antisym s t :
  String_as_OT.compare t s = CompOpp (String_as_OT.compare s t).
Proof.
  destruct (String_as_OT.compare_spec s t) as [E|Hlt|Hgt];
    destruct (String_as_OT.compare_spec t s) as [E'|Hlt'|Hgt'];
    unfold String_as_OT.eq in *; subst; try done; exfalso;
    solve [ eapply string_lt_irrefl; eassumption
          | eapply string_lt_irrefl; etransitivity; eassumption ].
Qed.

Lemma cell_compare_antisym a b : cell_compare b a = CompOpp (cell_compare a b).
Proof.
  destruct a as [|x|s], b as [|y|t]; simpl; try done.
  - apply Z.compare_antisym.
  - apply string_compare_antisym.
Qed.

Lemma cell_compare_eq a b : cell_compare a b = Eq ↔ a = b.
Proof.
  destruct a as [|x|s], b as [|y|t]; simpl; try (split; done).
  - rewrite Z.compare_eq_iff. split; [by intros ->|by intros [= ->]].
  - destruct (String_as_OT.compare_spec s t) as [E|Hlt|Hgt];
      unfold String_as_OT.eq in *; split; subst; try done;
      intros [= E]; subst; exfalso; eapply string_lt_irrefl; eassumption.
Qed.

#[global] Instance cell_lt_irrefl : Irreflexive cell_lt.
Proof. intros a H. unfold cell_lt in H. by rewrite (proj2 (cell_compare_eq a a)) in H. Qed.

#[global] Instance cell_lt_trans : Transitive cell_lt.
Proof.
  unfold cell_lt. intros a b c.
  destruct a as [|x|s], b as [|y|t], c as [|z|u]; simpl; try done.
  - rewrite !Z.compare_lt_iff. lia.
  - intros H1 H2. by apply (transitivity (R := String_as_OT.lt) H1 H2).
Qed.

Lemma cell_le_lt_eq a b : cell_le a b ↔ cell_lt a b ∨ a = b.
Proof.
  unfold cell_le, cell_lt. rewrite <- cell_compare_eq.
  destruct (cell_compare a b); intuition congruence.
Qed.

#[global] Instance cell_le_total : Total cell_le.
Proof.
  intros a b. unfold cell_le. rewrite (cell_compare_antisym a b).
  destruct (cell_compare a b); simpl; auto.
Qed.

#[global] Instance cell_le_trans : Transitive cell_le.
Proof.
  intros a b c. rewrite !cell_le_lt_eq. intros [H1| ->] [H2| ->]; auto.
  left. by transitivity b.
Qed.

#[global] Instance cell_le_antisym : AntiSymm (=) cell_le.
Proof.
  intros a b. rewrite !cell_le_lt_eq. intros [H1|H1] [H2|H2]; try done.
  destruct (irreflexivity cell_lt a). by transitivity b.
Qed.

(** On text the order is the lexicographic one. *)
Lemma cell_lt_Str s t : cell_lt (Str s) (Str t) ↔ String_as_OT.lt s t.
Proof. done. Qed.

(** On numbers it is the numeric one. *)
Lemma cell_lt_Num x y : cell_lt (Num x) (Num y) ↔ x < y.
Proof. unfold cell_lt. simpl. by rewrite Z.compare_lt_iff. Qed.

Lemma StronglySorted_lookup_lt {A} (R : relation A) l i j x y :
  StronglySorted R l → l !! i = Some x → l !! j = Some y → (i < j)%nat → R x y.
Proof.
  intros Hl. revert i j. induction Hl as [|a l Hl IH Hall]; intros i j Hi Hj Hij; [done|].
  destruct j as [|j]; [lia|]. simpl in Hj. destruct i as [|i]; simpl in Hi.
  - injection Hi as <-. rewrite Forall_forall in Hall. apply Hall.
    by eapply list_elem_of_lookup_2.
  - apply (IH i j); [done|done|lia].
Qed.

(** Distinct labels in non-decreasing order are in increasing order. *)
Lemma sorted_distinct_strict l :
  NoDup l → StronglySorted cell_le l → StronglySorted cell_lt l.
Proof.
  induction l as [|a l IH]; intros Hnd Hs; [constructor|].
  apply NoDup_cons in Hnd as (Ha & Hnd). apply StronglySorted_cons in Hs as (Hall & Hs).
  constructor; [by apply IH|]. rewrite Forall_forall in *. intros b Hb.
  destruct (proj1 (cell_le_lt_eq a b) (Hall b Hb)) as [?| ->]; done.
Qed.

(** ** The label encoder *)

(** The classes of a fitted encoder: the distinct labels, each once, in
    strictly increasing order. *)
Lemma LabelEncoder_fit_spec y classes :
  LabelEncoder_fit y = Some classes →
  NoDup classes ∧ (∀ v, v ∈ classes ↔ v ∈ y) ∧ StronglySorted cell_lt classes.
Proof.
  unfold LabelEncoder_fit. case_match; [done|]. intros [= <-].
  assert (NoDup (merge_sort cell_le (remove_dups y))) as Hnd.
  { rewrite merge_sort_Permutation. apply NoDup_remove_dups. }
  split; [done|]. split.
  - intros v. by rewrite merge_sort_Permutation, elem_of_remove_dups.
  - apply sorted_distinct_strict; [done|]. apply (StronglySorted_merge_sort cell_le).
Qed.

Lemma LabelEncoder_fit_transform_spec y classes codes :
  LabelEncoder_fit_transform y = Some (classes, codes) →
  LabelEncoder_fit y = Some classes ∧
  Forall2 (λ v c, ∃ k, c = Z.of_nat k ∧ classes !! k = Some v) y codes.
Proof.
  unfold LabelEncoder_fit_transform, LabelEncoder_transform. intros H.
  apply bind_Some in H as (cl & Hfit & H). apply bind_Some in H as (cs & Hcs & H).
  injection H as <- <-. split; [done|].
  apply mapM_Some in Hcs. eapply Forall2_impl; [exact Hcs|].
  intros v c Hc. simpl in Hc. apply fmap_Some in Hc as (k & Hk & ->).
  exists k. split; [done|]. by apply index_of_Some.
Qed.

(** Fitting never fails on the labels of one kind, and every label then
    has a code. *)
Lemma LabelEncoder_fit_transform_runs y :
  existsb is_num y && existsb is_str y = false →
  ∃ classes codes, LabelEncoder_fit_transform y = Some (classes, codes).
Proof.
  intros Hkind. unfold LabelEncoder_fit_transform, LabelEncoder_fit. rewrite Hkind.
  cbn [mbind option_bind]. unfold LabelEncoder_transform.
  assert (is_Some (mapM (λ v, Z.of_nat <$> index_of v (merge_sort cell_le (remove_dups y))) y))
    as (codes & Hcodes).
  { apply mapM_is_Some, Forall_forall. intros v Hv. simpl.
    destruct (index_of_elem v (merge_sort cell_le (remove_dups y))) as (k & ->).
    - by rewrite merge_sort_Permutation, elem_of_remove_dups.
    - by eexists. }
  rewrite Hcodes. by eexists _, _.
Qed.

(** Decoding the codes of a column gives the column back. *)
Lemma LabelEncoder_inverse_transform_codes y classes codes :
  Forall2 (λ v c, ∃ k, c = Z.of_nat k ∧ classes !! k = Some v) y codes →
  LabelEncoder_inverse_transform classes codes = Some y.
Proof.
  intros H. unfold LabelEncoder_inverse_transform. apply mapM_Some.
  induction H as [|v c y codes (k & -> & Hk) _ IH]; constructor; [|done].
  destruct (Z.ltb_spec (Z.of_nat k) 0); [lia|]. by rewrite Nat2Z.id.
Qed.

(** Codes compare as their labels do. *)
Lemma LabelEncoder_codes_order classes (k1 k2 : nat) v w :
  NoDup classes → StronglySorted cell_lt classes →
  classes !! k1 = Some v → classes !! k2 = Some w →
  (Z.of_nat k1 = Z.of_nat k2 ↔ v = w) ∧ (Z.of_nat k1 < Z.of_nat k2 ↔ cell_lt v w).
Proof.
  intros Hnd Hs H1 H2. split.
  - split; [intros ?%Nat2Z.inj; congruence|].
    intros ->. f_equal. by eapply NoDup_lookup.
  - split.
    + intros Hlt. eapply StronglySorted_lookup_lt; [done..|lia].
    + intros Hlt. destruct (Nat.lt_trichotomy k1 k2) as [?|[->|Hgt]]; [lia| |].
      * rewrite H1 in H2. injection H2 as ->. by destruct (irreflexivity cell_lt w).
      * pose proof (StronglySorted_lookup_lt _ _ _ _ _ _ Hs H2 H1 Hgt) as Hwv.
        destruct (irreflexivity cell_lt v). by transitivity w.
Qed.

(** ** The encoding loop *)

Lemma dtype_name_category s :
  dtype_name s = "category" ↔ ∃ cats codes, s = Categorical cats codes.
Proof.
  destruct s as [vs|cats codes]; simpl.
  - split; [|by intros (? & ? & ?)]. by repeat case_match.
  - split; [by eexists _, _|done].
Qed.

Lemma encode_columns_spec cols : ∀ d le_dict d' le_dict',
  NoDup cols →
  encode_columns cols d le_dict = Some (d', le_dict') →
  nrows d' = nrows d ∧
  (∀ c, c ∉ cols → getitem d' c = getitem d c ∧ le_dict' !! c = le_dict !! c) ∧
  (∀ c, c ∈ cols → ∃ s, getitem d c = Some s ∧
     ((dtype_name s = "category" ∧ ∃ classes codes,
         LabelEncoder_fit_transform (to_values s) = Some (classes, codes) ∧
         getitem d' c = Some (Plain (Num <$> codes)) ∧
         le_dict' !! c = Some classes) ∨
      (dtype_name s ≠ "category" ∧ getitem d' c = Some s ∧ le_dict' !! c = le_dict !! c))).
Proof.
  induction cols as [|col cols IH]; intros d le_dict d' le_dict' Hnd H; simpl in H.
  - injection H as <- <-. split; [done|]. split; [done|]. intros c Hc. by apply elem_of_nil in Hc.
  - apply NoDup_cons in Hnd as (Hcol & Hnd).
    apply bind_Some in H as (s & Hs & H). case_decide as Hcat.
    + apply bind_Some in H as ([classes codes] & Hfit & H). simpl in H.
      apply IH in H as (Hn & Hother & Hin); [|done].
      split; [done|]. split.
      * intros c Hc. apply not_elem_of_cons in Hc as (Hne & Hc).
        destruct (Hother c Hc) as (-> & ->). rewrite getitem_setitem, lookup_insert_ne by done.
        by case_decide.
      * intros c Hc. apply elem_of_cons in Hc as [->|Hc].
        -- exists s. split; [done|]. left. split; [done|]. exists classes, codes.
           destruct (Hother col Hcol) as (-> & ->).
           rewrite getitem_setitem, lookup_insert_eq. by case_decide.
        -- destruct (Hin c Hc) as (s' & Hs' & Hcase). assert (col ≠ c) by (by intros ->).
           rewrite getitem_setitem in Hs'. case_decide; [done|].
           exists s'. split; [done|]. by rewrite lookup_insert_ne in Hcase.
    + apply IH in H as (Hn & Hother & Hin); [|done].
      split; [done|]. split.
      * intros c Hc. apply not_elem_of_cons in Hc as (Hne & Hc). by apply Hother.
      * intros c Hc. apply elem_of_cons in Hc as [->|Hc]; [|by apply Hin].
        exists s. split; [done|]. right. split; [done|].
        destruct (Hother col Hcol) as (-> & ->). by rewrite Hs.
Qed.

Lemma features_NoDup : NoDup features.
Proof. by_running. Qed.

(** What [encoding] does to the heap: a new object holds the encoded
    table, nothing else changes. *)
Lemma encoding_spec df_cleaned h df_model le_dict h' :
  encoding df_cleaned h = Some ((df_model, le_dict), h') →
  ∃ cleaned encoded, h !! df_cleaned = Some cleaned ∧ h !! df_model = None ∧
    encode_columns features cleaned ∅ = Some (encoded, le_dict) ∧
    h' = <[df_model := encoded]> h.
Proof.
  unfold encoding. intros H.
  apply Script_bind_Some in H as (m & h1 & Hcopy & H).
  apply Script_bind_Some in H as (le & h2 & Hin & H).
  injection H as <- <- <-.
  apply DataFrame_copy_spec in Hcopy as (cleaned & Hcl & Hfresh & ->).
  apply in_place_with_spec in Hin as (d & d' & Hd & Hf & ->).
  rewrite lookup_insert_eq in Hd. injection Hd as <-.
  exists cleaned, d'. by rewrite insert_insert_eq.
Qed.

Lemma cleaned_feature_categorical raw cleaned c :
  cleaned_of raw cleaned → c ∈ encoded_cols →
  ∃ s, getitem cleaned c = Some s ∧ dtype_name s = "category".
Proof.
  intros Hclean Hc.
  assert (c ∈ categorical_cols ∨ c ∈ ["State"; "Month"]) as [Hcat|Hsm].
  { unfold encoded_cols in Hc.
    repeat (apply elem_of_cons in Hc as [->|Hc]); try (by apply elem_of_nil in Hc);
      [right|right|left|left]; string_list_mem. }
  - destruct (cleaned_categorical _ _ _ Hclean Hcat) as (s0 & s' & _ & _ & Hcl).
    eexists. split; [exact Hcl|]. by destruct s'.
  - destruct (cleaned_state_month _ _ _ Hclean Hsm) as (s0 & _ & Hcl).
    eexists. split; [exact Hcl|]. by destruct s0.
Qed.

(** C5. For each of the columns [Month], [State], [Location] and [Food]
    of the cleaned table the fitted encoder is a bijection between the
    values observed in the whole column and their codes: every row has a
    code, the classes are exactly the observed values, each once,
    decoding the codes gives the column back, two rows have the same code
    exactly when they have the same value, and codes are ordered as the
    labels are (lexicographically for text). [Year] is not encoded: it is
    the column of the raw table. *)
Theorem C5_label_encoding_is_bijective raw cleaned df_model le_dict :
  read_csv_frame raw → cleaned_of raw cleaned →
  encode_columns features cleaned ∅ = Some (df_model, le_dict) →
  (∀ col, col ∈ encoded_cols →
     ∃ s classes codes,
       getitem cleaned col = Some s ∧
       le_dict !! col = Some classes ∧
       getitem df_model col = Some (Plain (Num <$> codes)) ∧
       length codes = length (to_values s) ∧
       NoDup classes ∧
       (∀ v, v ∈ classes ↔ v ∈ to_values s) ∧
       LabelEncoder_inverse_transform classes codes = Some (to_values s) ∧
       (∀ i j v w a b,
          to_values s !! i = Some v → to_values s !! j = Some w →
          codes !! i = Some a → codes !! j = Some b →
          0 <= a < Z.of_nat (length classes) ∧
          (a = b ↔ v = w) ∧ (a < b ↔ cell_lt v w)) ∧
       (∀ t u, cell_lt (Str t) (Str u) ↔ String_as_OT.lt t u)) ∧
  getitem df_model "Year" = getitem raw "Year" ∧
  is_Some (getitem raw "Year") ∧
  le_dict !! "Year" = None.
Proof.
  intros Hraw Hclean Henc.
  apply encode_columns_spec in Henc as (_ & _ & Hin); [|apply features_NoDup].
  split.
  - intros col Hcol.
    destruct (cleaned_feature_categorical _ _ _ Hclean Hcol) as (s & Hs & Hcat).
    destruct (Hin col) as (s' & Hs' & Hcase).
    { unfold encoded_cols in Hcol.
      repeat (apply elem_of_cons in Hcol as [->|Hcol]); try (by apply elem_of_nil in Hcol);
        string_list_mem. }
    rewrite Hs in Hs'. injection Hs' as <-.
    destruct Hcase as [(_ & classes & codes & Hfit & Hcol' & Hle)|(Hne & _)]; [|done].
    apply LabelEncoder_fit_transform_spec in Hfit as (Hfit & Hcodes).
    apply LabelEncoder_fit_spec in Hfit as (Hnd & Hmem & Hsorted).
    exists s, classes, codes.
    split; [done|]. split; [done|]. split; [done|].
    split; [symmetry; by eapply Forall2_length|]. split; [done|]. split; [done|].
    split; [by apply LabelEncoder_inverse_transform_codes|]. split; [|done].
    intros i j v w a b Hv Hw Ha Hb.
    destruct (Forall2_lookup_lr _ _ _ _ _ _ Hcodes Hv Ha) as (k1 & -> & Hk1).
    destruct (Forall2_lookup_lr _ _ _ _ _ _ Hcodes Hw Hb) as (k2 & -> & Hk2).
    split; [apply lookup_lt_Some in Hk1; lia|].
    by apply (LabelEncoder_codes_order classes k1 k2 v w).
  - destruct (Hin "Year") as (s & Hs & Hcase); [string_list_mem|].
    rewrite (cleaned_other raw cleaned "Year" Hclean) in Hs by string_list_mem.
    destruct (Hraw _ _ Hs) as (vs & -> & _).
    destruct Hcase as [(Hcat & _)|(_ & HY & Hle)].
    + apply dtype_name_category in Hcat as (? & ? & ?). done.
    + rewrite HY, Hs. split; [done|]. split; [by eexists|]. by rewrite Hle.
Qed.

Example encoded_runs :
  encode_columns features Examples.cleaned ∅
  = Some (EncodedExample.df_model, EncodedExample.le_dict).
Proof. vm_compute. reflexivity. Qed.

Example encoded_classes :
  EncodedExample.le_dict !! "Food" = Some [Str "Beef"; Str "Chicken"; Str "Unknown"] ∧
  to_values <$> getitem EncodedExample.df_model "Food"
  = Some [Num 1; Num 0; Num 1; Num 2; Num 0].
Proof. split; vm_compute; reflexivity. Qed.

Lemma C5_witness :
  (∀ col, col ∈ encoded_cols →
     ∃ s classes codes,
       getitem Examples.cleaned col = Some s ∧
       EncodedExample.le_dict !! col = Some classes ∧
       getitem EncodedExample.df_model col = Some (Plain (Num <$> codes)) ∧
       length codes = length (to_values s) ∧
       NoDup classes ∧
       (∀ v, v ∈ classes ↔ v ∈ to_values s) ∧
       LabelEncoder_inverse_transform classes codes = Some (to_values s) ∧
       (∀ i j v w a b,
          to_values s !! i = Some v → to_values s !! j = Some w →
          codes !! i = Some a → codes !! j = Some b →
          0 <= a < Z.of_nat (length classes) ∧
          (a = b ↔ v = w) ∧ (a < b ↔ cell_lt v w)) ∧
       (∀ t u, cell_lt (Str t) (Str u) ↔ String_as_OT.lt t u)) ∧
  getitem EncodedExample.df_model "Year" = getitem Examples.raw "Year" ∧
  is_Some (getitem Examples.raw "Year") ∧
  EncodedExample.le_dict !! "Year" = None.
Proof.
  apply (C5_label_encoding_is_bijective Examples.raw Examples.cleaned).
  - exact example_read_csv.
  - vm_compute. reflexivity.
  - vm_compute. reflexivity.
Defined.

Lemma encode_columns_runs_on cols : ∀ d le_dict,
  NoDup cols →
  (∀ c, c ∈ cols → ∃ s, getitem d c = Some s ∧
                        (dtype_name s = "category" → one_kind (to_values s))) →
  is_Some (encode_columns cols d le_dict).
Proof.
  induction cols as [|col cols IH]; intros d le_dict Hnd Hcols; simpl; [by eexists|].
  apply NoDup_cons in Hnd as (Hcol & Hnd).
  destruct (Hcols col) as (s & Hs & Hkind); [by left|].
  rewrite Hs. cbn [mbind option_bind]. case_decide as Hcat.
  - destruct (LabelEncoder_fit_transform_runs (to_values s) (Hkind Hcat))
      as (classes & codes & ->).
    cbn [mbind option_bind]. apply IH; [done|]. intros c Hc.
    rewrite getitem_setitem. case_decide as Heq; [by subst|].
    apply Hcols. by right.
  - apply IH; [done|]. intros c Hc. apply Hcols. by right.
Qed.

(** The loop runs through on a cleaned table that has a [Year] and whose
    encoded columns hold labels of one kind. *)
Lemma encode_columns_runs raw cleaned :
  read_csv_frame raw → cleaned_of raw cleaned →
  is_Some (getitem raw "Year") →
  (∀ c s, c ∈ encoded_cols → getitem cleaned c = Some s → one_kind (to_values s)) →
  ∃ df_model le_dict, encode_columns features cleaned ∅ = Some (df_model, le_dict).
Proof.
  intros Hraw Hclean (year & Hyear) Hkind.
  destruct (encode_columns_runs_on features cleaned ∅ features_NoDup) as ([d le] & H);
    [|by exists d, le].
  intros c Hc.
  assert (c = "Year" ∨ c ∈ encoded_cols) as [->|Henc].
  { unfold features in Hc.
    repeat (apply elem_of_cons in Hc as [->|Hc]); try (by apply elem_of_nil in Hc);
      [by left|right..]; string_list_mem. }
  - exists year. rewrite (cleaned_other raw cleaned "Year" Hclean) by string_list_mem.
    split; [done|]. intros Hcat. destruct (Hraw _ _ Hyear) as (vs & -> & _).
    apply dtype_name_category in Hcat as (? & ? & ?). done.
  - destruct (cleaned_feature_categorical _ _ _ Hclean Henc) as (s & Hs & _).
    exists s. split; [done|]. intros _. by eapply Hkind.
Qed.

(** ** The seeded split *)

(** With a seed, the permutation is that of a generator made for the
    call: the state of the shared generator does not enter it and is
    handed back as it was. *)
Lemma shuffled_seeded fuel sd n g :
  shuffled fuel (Some sd) n g
  = (λ r, (r.1, g)) <$> shuffled fuel (Some sd) n (MT19937.mt19937_seed 0).
Proof.
  unfold shuffled. case_match; [|done].
  by destruct (MT19937.permutation fuel n (MT19937.mt19937_seed sd)) as [[]|].
Qed.

Lemma train_test_indices_seeded fuel n ts sd g :
  train_test_indices fuel n ts (Some sd) g
  = (λ r, (r.1, g)) <$> train_test_indices fuel n ts (Some sd) (MT19937.mt19937_seed 0).
Proof.
  unfold train_test_indices. destruct (validate_shuffle_split n ts) as [sizes|]; [|done].
  cbn [mbind option_bind]. rewrite (shuffled_seeded fuel sd n g).
  by destruct (shuffled fuel (Some sd) n (MT19937.mt19937_seed 0)) as [[]|].
Qed.

Lemma train_test_indices_seeded_eq fuel n ts sd g1 g2 :
  fst <$> train_test_indices fuel n ts (Some sd) g1
  = fst <$> train_test_indices fuel n ts (Some sd) g2.
Proof.
  rewrite (train_test_indices_seeded fuel n ts sd g1),
          (train_test_indices_seeded fuel n ts sd g2).
  by destruct (train_test_indices fuel n ts (Some sd) (MT19937.mt19937_seed 0)) as [[]|].
Qed.

Lemma train_test_split_seeded {A B} `{ArrayLike A, ArrayLike B} fuel (X : A) (y : B) ts sd g :
  train_test_split fuel X y ts (Some sd) g
  = (λ r, (r.1, g)) <$> train_test_split fuel X y ts (Some sd) (MT19937.mt19937_seed 0).
Proof.
  unfold train_test_split. case_decide; [|done].
  rewrite (train_test_indices_seeded fuel _ ts sd g).
  destruct (train_test_indices fuel _ ts (Some sd) (MT19937.mt19937_seed 0)) as [[r g0]|];
    [|done].
  cbn [mbind option_bind fmap option_map option_fmap fst snd].
  destruct (safe_indexing X r.1) as [xtr|]; [|done]. cbn [mbind option_bind].
  destruct (safe_indexing X r.2) as [xte|]; [|done]. cbn [mbind option_bind].
  destruct (safe_indexing y r.1) as [ytr|]; [|done]. cbn [mbind option_bind].
  by destruct (safe_indexing y r.2) as [yte|].
Qed.

(** C6. The split with [random_state=42] and [test_size=0.3] is a function
    of the arrays alone: whatever state the shared generator is in (before
    a first run, after it, after any other use), the call yields the same
    train and test positions and the same four arrays, and it leaves the
    shared generator as it found it. *)
Theorem C6_seeded_split_is_reproducible {A B} `{ArrayLike A, ArrayLike B}
    (fuel : nat) (X : A) (y : B) (g1 g2 : MT19937.state) :
  fst <$> train_test_indices fuel (num_samples X) test_size (Some seed) g1
  = fst <$> train_test_indices fuel (num_samples X) test_size (Some seed) g2 ∧
  fst <$> train_test_split fuel X y test_size (Some seed) g1
  = fst <$> train_test_split fuel X y test_size (Some seed) g2 ∧
  snd <$> train_test_split fuel X y test_size (Some seed) g1
  = (λ _, g1) <$> train_test_split fuel X y test_size (Some seed) g1.
Proof.
  split; [apply train_test_indices_seeded_eq|].
  rewrite (train_test_split_seeded fuel X y test_size seed g1),
          (train_test_split_seeded fuel X y test_size seed g2).
  by destruct (train_test_split fuel X y test_size (Some seed) (MT19937.mt19937_seed 0))
    as [[]|].
Qed.

(** The split does produce a partition: ten rows, three held out. *)
Example seeded_split_of_ten :
  ∀ g, fst <$> train_test_indices 64 10 test_size (Some seed) g
       = Some ([0; 7; 2; 9; 4; 3; 6], [8; 1; 5])%nat.
Proof.
  intros g. rewrite (train_test_indices_seeded_eq 64 10 test_size seed g (MT19937.mt19937_seed 0)).
  vm_compute. reflexivity.
Qed.

(** Without a seed the partition follows the state of the shared
    generator: reproducibility is the seed's doing. *)
Example unseeded_split_depends_on_state :
  fst <$> train_test_indices 64 10 test_size None (MT19937.mt19937_seed 1)
  ≠ fst <$> train_test_indices 64 10 test_size None (MT19937.mt19937_seed 2).
Proof. vm_compute. discriminate. Qed.

(** ** The two splits of the script *)

Lemma encoding_twice df_cleaned h df_model le1 h1 df_dl le2 h2 :
  encoding df_cleaned h = Some ((df_model, le1), h1) →
  encoding df_cleaned h1 = Some ((df_dl, le2), h2) →
  ∃ encoded, h2 !! df_model = Some encoded ∧ h2 !! df_dl = Some encoded ∧
             df_model ≠ df_dl ∧ le1 = le2 ∧ h2 !! df_cleaned = h !! df_cleaned.
Proof.
  intros (cleaned & e1 & Hc & Hfresh & He1 & ->)%encoding_spec
         (cleaned' & e2 & Hc' & Hfresh' & He2 & ->)%encoding_spec.
  assert (df_cleaned ≠ df_model) by (intros ->; congruence).
  rewrite lookup_insert_ne in Hc' by done. rewrite Hc in Hc'. injection Hc' as <-.
  rewrite He1 in He2. injection He2 as <- <-.
  assert (df_model ≠ df_dl) by (intros ->; by rewrite lookup_insert_eq in Hfresh').
  assert (df_cleaned ≠ df_dl).
  { intros ->. rewrite lookup_insert_ne in Hfresh' by done. congruence. }
  exists e1. rewrite lookup_insert_eq, !lookup_insert_ne, lookup_insert_eq by done.
  by rewrite !lookup_insert_ne by done.
Qed.

(** On one table the two calls hold out the same positions and the same
    labels, whatever the scaled matrix holds. *)
Lemma same_held_out_rows {R} (fit_transform : DataFrame → list R) fuel d g1 g2 :
  (∀ X, length (fit_transform X) = DataFrame_len X) →
  tree_test_indices fuel d g1 = network_test_indices fit_transform fuel d g2 ∧
  (y_test ∘ fst) <$> tree_split fuel d g1
  = (y_test ∘ fst) <$> network_split fit_transform fuel d g2 ∧
  (y_train ∘ fst) <$> tree_split fuel d g1
  = (y_train ∘ fst) <$> network_split fit_transform fuel d g2.
Proof.
  intros Hrows. unfold tree_test_indices, network_test_indices, tree_split, network_split.
  destruct (select_columns d features) as [X|]; [|done]. cbn [mbind option_bind].
  assert (num_samples (fit_transform X) = num_samples X) as Hn by apply Hrows.
  split.
  - rewrite Hn.
    pose proof (train_test_indices_seeded_eq fuel (num_samples X) test_size seed g1 g2) as E.
    destruct (train_test_indices fuel _ test_size (Some seed) g1) as [[]|],
             (train_test_indices fuel _ test_size (Some seed) g2) as [[]|];
      simpl in *; congruence.
  - destruct (getitem d target) as [y|]; [|done]. cbn [mbind option_bind].
    unfold train_test_split. rewrite Hn. case_decide; [|done].
    pose proof (train_test_indices_seeded_eq fuel (num_samples X) test_size seed g1 g2) as E.
    destruct (train_test_indices fuel _ test_size (Some seed) g1) as [[r ?]|],
             (train_test_indices fuel _ test_size (Some seed) g2) as [[r' ?]|];
      simpl in E; try done. injection E as <-.
    cbn [mbind option_bind fst snd]. simpl safe_indexing.
    unfold DataFrame_len in *. rewrite (Hrows X).
    destruct (in_range (nrows X) r.1); [|done]. cbn [mbind option_bind].
    destruct (in_range (nrows X) r.2); [|done]. cbn [mbind option_bind].
    destruct (in_range (Series_len y) r.1); [|done]. cbn [mbind option_bind].
    by destruct (in_range (Series_len y) r.2).
Qed.

(** C7 fails as worded: on the encoded example both calls hold out rows
    [1] and [4], for every matrix the scaler may return and every state
    the shared generator may be in at the second call. *)
Lemma C7_counterexample :
  tree_test_indices 64 EncodedExample.df_model EncodedExample.shared = Some [1; 4]%nat ∧
  ¬ ∃ (fit_transform : DataFrame → list (list Q)) (g2 : MT19937.state),
      (∀ X, length (fit_transform X) = DataFrame_len X) ∧
      spec_held_out_rows_differ fit_transform 64
        EncodedExample.df_model EncodedExample.shared g2.
Proof.
  split; [vm_compute; reflexivity|].
  intros (ft & g2 & Hrows & Hdiff). apply Hdiff.
  by apply same_held_out_rows.
Qed.

(** C7, amended. The split is invoked twice, on the unscaled table for the
    tree and on the scaled matrix for the network, each time on a fresh
    encoded copy of the cleaned table; since both calls pass the same
    seed and ratio and both arrays have one row per record, the two calls
    hold out the same row positions: the two models are scored on the
    same held-out records. *)
Theorem C7_both_splits_hold_out_the_same_rows {R} (fit_transform : DataFrame → list R)
    (fuel : nat) (df_cleaned : loc) (h : gmap loc DataFrame)
    df_model le1 h1 df_dl le2 h2 d_model d_dl (g1 g2 : MT19937.state) :
  (∀ X, length (fit_transform X) = DataFrame_len X) →
  encoding df_cleaned h = Some ((df_model, le1), h1) →
  encoding df_cleaned h1 = Some ((df_dl, le2), h2) →
  h2 !! df_model = Some d_model → h2 !! df_dl = Some d_dl →
  tree_test_indices fuel d_model g1 = network_test_indices fit_transform fuel d_dl g2 ∧
  (y_test ∘ fst) <$> tree_split fuel d_model g1
  = (y_test ∘ fst) <$> network_split fit_transform fuel d_dl g2 ∧
  (y_train ∘ fst) <$> tree_split fuel d_model g1
  = (y_train ∘ fst) <$> network_split fit_transform fuel d_dl g2.
Proof.
  intros Hrows Henc1 Henc2 Hm Hdl.
  destruct (encoding_twice _ _ _ _ _ _ _ _ Henc1 Henc2) as (e & Hm' & Hdl' & _).
  rewrite Hm in Hm'. rewrite Hdl in Hdl'. injection Hm' as ->. injection Hdl' as ->.
  by apply same_held_out_rows.
Qed.

Lemma C7_witness :
  tree_test_indices 64 EncodedExample.df_model EncodedExample.shared
  = network_test_indices EncodedExample.scaled 64 EncodedExample.df_model
      EncodedExample.shared_later ∧
  (y_test ∘ fst) <$> tree_split 64 EncodedExample.df_model EncodedExample.shared
  = (y_test ∘ fst) <$> network_split EncodedExample.scaled 64 EncodedExample.df_model
      EncodedExample.shared_later ∧
  (y_train ∘ fst) <$> tree_split 64 EncodedExample.df_model EncodedExample.shared
  = (y_train ∘ fst) <$> network_split EncodedExample.scaled 64 EncodedExample.df_model
      EncodedExample.shared_later.
Proof.
  apply (C7_both_splits_hold_out_the_same_rows EncodedExample.scaled 64
           EncodedExample.df_cleaned EncodedExample.heap
           1%nat EncodedExample.le_dict EncodedExample.heap1
           2%nat EncodedExample.le_dict EncodedExample.heap2).
  - intros X. apply length_replicate.
  - vm_compute. reflexivity.
  - vm_compute. reflexivity.
  - vm_compute. reflexivity.
  - vm_compute. reflexivity.
Defined.

(** Both calls do return on the example: rows [1] and [4] are held out,
    with labels [0] and [1]. *)
Example held_out_rows_of_the_example :
  tree_test_indices 64 EncodedExample.df_model EncodedExample.shared = Some [1; 4]%nat ∧
  (y_test ∘ fst) <$> tree_split 64 EncodedExample.df_model EncodedExample.shared
  = Some (Plain [Num 0; Num 1]).
Proof. split; vm_compute; reflexivity. Qed.

(** ** Sorting by count *)

Lemma lookup_all_positions {A} (d : A) (l : list A) :
  (λ i, default d (l !! i)) <$> seq 0 (length l) = l.
Proof.
  apply list_eq. intros i. rewrite list_lookup_fmap.
  destruct (decide (i < length l)%nat) as [Hi|Hi].
  - rewrite lookup_seq_lt by done. simpl.
    destruct (lookup_lt_is_Some_2 l i Hi) as (x & Hx). by rewrite Hx.
  - rewrite (lookup_ge_None_2 l) by lia.
    rewrite (lookup_ge_None_2 (seq 0 (length l))); [done|]. rewrite length_seq. lia.
Qed.

Lemma nargsort_desc_perm `{SortKind} items :
  nargsort false items ≡ₚ seq 0 (length items).
Proof.
  unfold nargsort. rewrite reverse_Permutation, (argsort_perm (reverse items)), length_reverse.
  pose proof (lookup_all_positions 0%nat (reverse (seq 0 (length items)))) as E.
  rewrite length_reverse, length_seq in E. rewrite E. apply reverse_Permutation.
Qed.

Lemma nargsort_desc_sorted `{SortKind} items :
  Sorted (flip Z.le) ((λ i, default 0 (items !! i)) <$> nargsort false items).
Proof.
  unfold nargsort. rewrite fmap_reverse. apply Sorted_reverse.
  rewrite <- list_fmap_compose.
  pose proof (argsort_sorted (reverse items)) as Hs.
  pose proof (argsort_perm (reverse items)) as Hp.
  assert (∀ k, k ∈ argsort (reverse items) → (k < length items)%nat) as Hlt.
  { intros k Hk. rewrite Hp, length_reverse in Hk. apply elem_of_seq in Hk. lia. }
  erewrite list_fmap_ext; [exact Hs|].
  intros i k Hk. simpl. assert (k < length items)%nat as Hk'.
  { apply Hlt. by eapply list_elem_of_lookup_2. }
  rewrite (reverse_lookup (seq 0 (length items))) by (rewrite length_seq; lia).
  rewrite length_seq, lookup_seq_lt by lia. simpl.
  rewrite (reverse_lookup items) by lia. done.
Qed.

Lemma sort_values_desc_perm `{SortKind} tab : sort_values false tab ≡ₚ tab.
Proof.
  unfold sort_values. rewrite nargsort_desc_perm, length_fmap.
  by rewrite lookup_all_positions.
Qed.

Lemma sort_values_desc_sorted `{SortKind} tab :
  StronglySorted (flip Z.le) ((sort_values false tab).*2).
Proof.
  apply Sorted_StronglySorted; [intros x y z; unfold flip; lia|].
  unfold sort_values. rewrite <- list_fmap_compose.
  erewrite list_fmap_ext; [apply nargsort_desc_sorted|].
  intros i k _. simpl. rewrite list_lookup_fmap. by destruct (tab !! k).
Qed.

Lemma value_counts_perm `{SortKind} s : value_counts s ≡ₚ count_table s.
Proof. apply sort_values_desc_perm. Qed.

Lemma value_counts_sorted `{SortKind} s :
  StronglySorted (flip Z.le) ((value_counts s).*2).
Proof. apply sort_values_desc_sorted. Qed.

(** ** Counting per category *)

Lemma astype_category_wf vs :
  wf_categorical (categories_of vs) (code_of (categories_of vs) <$> vs).
Proof.
  split; [|split].
  - unfold categories_of. rewrite merge_sort_Permutation. apply NoDup_remove_dups.
  - rewrite elem_of_categories_of. by intros (_ & ?).
  - apply Forall_fmap, Forall_forall. intros v _. simpl. unfold code_of.
    destruct (isna v); [lia|].
    destruct (index_of v (categories_of vs)) as [k|] eqn:Hk; [|lia].
    apply index_of_lt in Hk. lia.
Qed.

Lemma select_fmap {A B} (f : A → B) mask l : select mask (f <$> l) = f <$> select mask l.
Proof.
  revert l. induction mask as [|b mask IH]; intros [|x l]; simpl; try done.
  destruct b; simpl; by rewrite IH.
Qed.

Lemma select_Forall {A} (P : A → Prop) mask l : Forall P l → Forall P (select mask l).
Proof.
  intros Hl. revert mask. induction Hl as [|x l Hx _ IH]; intros [|b mask]; simpl; try done.
  destruct b; [constructor|]; auto.
Qed.

Lemma to_values_select mask s : to_values (Series_select mask s) = select mask (to_values s).
Proof. destruct s; simpl; [done|]. by rewrite select_fmap. Qed.

Lemma take_code_position cats codes k f c :
  wf_categorical cats codes → cats !! k = Some f → c ∈ codes →
  take_code cats c = f ↔ c = Z.of_nat k.
Proof.
  intros (Hnd & Hna & Hcodes) Hk Hc. rewrite Forall_forall in Hcodes.
  specialize (Hcodes c Hc). unfold take_code. split.
  - destruct (Z.ltb_spec c 0) as [?|Hc0].
    + intros <-. destruct Hna. by eapply list_elem_of_lookup_2.
    + destruct (lookup_lt_is_Some_2 cats (Z.to_nat c)) as (f' & Hf'); [lia|].
      rewrite Hf'. simpl. intros ->.
      pose proof (NoDup_lookup _ _ _ _ Hnd Hf' Hk). lia.
  - intros ->. destruct (Z.ltb_spec (Z.of_nat k) 0); [lia|]. by rewrite Nat2Z.id, Hk.
Qed.

Lemma bincount_values cats codes k f :
  wf_categorical cats codes → cats !! k = Some f →
  length (filter (λ c, c = Z.of_nat k) codes)
  = length (filter (λ v, v = f) (take_code cats <$> codes)).
Proof.
  intros Hwf Hk.
  assert (∀ c, c ∈ codes → take_code cats c = f ↔ c = Z.of_nat k) as Hiff.
  { intros c Hc. by eapply take_code_position. }
  clear Hwf. induction codes as [|c codes IH]; [done|].
  rewrite fmap_cons, !filter_cons.
  pose proof (Hiff c (list_elem_of_here _ _)) as Hc.
  assert (length (filter (λ c, c = Z.of_nat k) codes)
          = length (filter (λ v, v = f) (take_code cats <$> codes))) as IH'.
  { apply IH. intros c' Hc'. apply Hiff. by right. }
  destruct (decide (c = Z.of_nat k)), (decide (take_code cats c = f));
    simpl; rewrite ?IH'; try done; tauto.
Qed.

(** The entries of the table of a categorical column: every category
    once, with the number of rows that hold it. *)
Lemma count_table_categorical cats codes :
  wf_categorical cats codes →
  (count_table (Categorical cats codes)).*1 = cats ∧
  ∀ f c, (f, c) ∈ count_table (Categorical cats codes) ↔
         f ∈ cats ∧ c = Z.of_nat (length (filter (λ v, v = f) (take_code cats <$> codes))).
Proof.
  intros Hwf. simpl. unfold bincount.
  split; [apply fst_zip; by rewrite length_fmap, length_seq|].
  intros f c. rewrite list_elem_of_lookup. split.
  - intros (k & Hk). apply lookup_zip_with_Some in Hk as (f' & c' & [= <- <-] & Hf & Hc).
    rewrite list_lookup_fmap in Hc. apply fmap_Some in Hc as (k' & Hk' & ->).
    apply lookup_seq in Hk' as (-> & _). simpl.
    split; [by eapply list_elem_of_lookup_2|]. by rewrite (bincount_values cats codes k f).
  - intros (Hf & ->). apply list_elem_of_lookup in Hf as (k & Hk). exists k.
    apply lookup_zip_with_Some. eexists f, _. split; [done|]. split; [done|].
    rewrite list_lookup_fmap, lookup_seq_lt by (by eapply lookup_lt_Some). simpl.
    by rewrite (bincount_values cats codes k f).
Qed.

Lemma getitem_select mask d c :
  getitem (DataFrame_select mask d) c = Series_select mask <$> getitem d c.
Proof. unfold getitem, DataFrame_select. simpl. apply lookup_fmap. Qed.

(** The [Food] column of a cleaned table is a well-formed categorical
    whose categories are its values. *)
Lemma cleaned_food raw cleaned :
  read_csv_frame raw → cleaned_of raw cleaned →
  ∃ cats codes, getitem cleaned "Food" = Some (Categorical cats codes) ∧
                wf_categorical cats codes ∧
                (∀ f, f ∈ cats ↔ f ∈ take_code cats <$> codes).
Proof.
  intros Hraw Hclean.
  destruct (cleaned_categorical raw cleaned "Food" Hclean) as (s & s' & Hs & Hfill & Hcl);
    [by_running|].
  destruct (Hraw _ _ Hs) as (vs & -> & _). simpl in Hfill. injection Hfill as <-.
  simpl in Hcl. eexists _, _. split; [exact Hcl|]. split; [apply astype_category_wf|].
  intros f. set (vs' := (λ c, if isna c then Str "Unknown" else c) <$> vs).
  pose proof (to_values_astype_category (Plain vs')) as E. simpl in E. rewrite E.
  rewrite elem_of_categories_of. split; [tauto|]. intros Hf. split; [done|].
  subst vs'. apply list_elem_of_fmap in Hf as (x & -> & _). by destruct x.
Qed.

Section ranking.
Context `{SortKind}.

Lemma top_foods_spec raw cleaned ranking :
  read_csv_frame raw → cleaned_of raw cleaned →
  top_foods cleaned = Some ranking →
  (length ranking ≤ 10)%nat ∧
  StronglySorted (flip Z.le) ranking.*2 ∧
  NoDup ranking.*1 ∧
  (∀ f c, (f, c) ∈ ranking → c = occurrences f (hospitalized_foods cleaned)) ∧
  (∀ f, f ∈ food_values cleaned →
     f ∈ ranking.*1 ∨
     (length ranking = 10%nat ∧
      ∀ f' c', (f', c') ∈ ranking → occurrences f (hospitalized_foods cleaned) <= c')).
Proof.
  intros Hraw Hclean Htop.
  destruct (cleaned_food _ _ Hraw Hclean) as (cats & codes & Hfood & Hwf & Hcats).
  unfold top_foods in Htop. apply bind_Some in Htop as (hosp & Hhosp & Htop).
  rewrite getitem_select, Hfood in Htop. simpl in Htop. injection Htop as <-.
  set (mask := Series_eq hosp (Num 1)).
  set (food := Categorical cats (select mask codes)).
  assert (wf_categorical cats (select mask codes)) as Hwf'.
  { destruct Hwf as (Hnd & Hna & Hall). split; [exact Hnd|]. split; [exact Hna|]. by apply select_Forall. }
  assert (hospitalized_foods cleaned = take_code cats <$> select mask codes) as Hhf.
  { unfold hospitalized_foods. rewrite Hhosp, Hfood. simpl. apply select_fmap. }
  destruct (count_table_categorical _ _ Hwf') as (Hfst & Hentries).
  fold food in Hfst, Hentries.
  pose proof (value_counts_perm food) as Hperm.
  pose proof (value_counts_sorted food) as Hsorted.
  rewrite <- (take_drop 10 (value_counts food)), fmap_app in Hsorted.
  apply StronglySorted_app in Hsorted as (Hcross & Hs1 & _).
  split; [rewrite length_take; lia|]. split; [exact Hs1|]. split.
  { rewrite fmap_take.
    assert (NoDup (value_counts food).*1) as Hnd by (rewrite Hperm, Hfst; by destruct Hwf).
    eapply sublist_NoDup; first [exact Hnd | apply sublist_take]. }
  split.
  { intros f c Hfc. apply subseteq_take in Hfc. rewrite Hperm in Hfc.
    apply Hentries in Hfc as (_ & ->). by rewrite Hhf. }
  intros f Hf. unfold food_values in Hf. rewrite Hfood in Hf. simpl in Hf.
  apply Hcats in Hf.
  assert ((f, occurrences f (hospitalized_foods cleaned)) ∈ value_counts food) as Hin.
  { rewrite Hperm. apply Hentries. split; [done|]. by rewrite Hhf. }
  rewrite <- (take_drop 10 (value_counts food)) in Hin. apply elem_of_app in Hin as [Hin|Hin].
  - left. apply list_elem_of_fmap. by exists (f, occurrences f (hospitalized_foods cleaned)).
  - right. split.
    + rewrite length_take. destruct (decide (10 ≤ length (value_counts food))%nat); [lia|].
      rewrite drop_ge in Hin by lia. by apply elem_of_nil in Hin.
    + intros f' c' Hf'. apply (Hcross c' (occurrences f (hospitalized_foods cleaned))).
      * apply list_elem_of_fmap. by exists (f', c').
      * apply list_elem_of_fmap. by exists (f, occurrences f (hospitalized_foods cleaned)).
Qed.

End ranking.

(** ** The order of ties *)

Lemma categories_of_sorted vs : StronglySorted cell_lt (categories_of vs).
Proof.
  apply sorted_distinct_strict.
  - unfold categories_of. rewrite merge_sort_Permutation. apply NoDup_remove_dups.
  - apply (StronglySorted_merge_sort cell_le).
Qed.

#[global] Instance cell_lt_antisym : AntiSymm (=) cell_lt.
Proof. intros a b Hab Hba. destruct (irreflexivity cell_lt a). by transitivity b. Qed.

(** A strictly sorted list is determined by its elements. *)
Lemma strictly_sorted_unique l1 l2 :
  StronglySorted cell_lt l1 → StronglySorted cell_lt l2 →
  (∀ f, f ∈ l1 ↔ f ∈ l2) → l1 = l2.
Proof.
  intros H1 H2 Hmem.
  assert (∀ l, StronglySorted cell_lt l → NoDup l) as Hnd.
  { induction 1 as [|a l _ IH Hall]; constructor; [|done].
    intros Ha. rewrite Forall_forall in Hall. by destruct (irreflexivity cell_lt a (Hall a Ha)). }
  apply (StronglySorted_unique cell_lt); [done..|].
  apply NoDup_Permutation; auto.
Qed.

(** The table of a categorical column, entry by entry. *)
Lemma count_table_categorical_eq cats codes :
  wf_categorical cats codes →
  count_table (Categorical cats codes)
  = (λ f, (f, occurrences f (take_code cats <$> codes))) <$> cats.
Proof.
  intros Hwf. simpl. unfold bincount. apply list_eq. intros k.
  rewrite list_lookup_fmap, lookup_zip_with, list_lookup_fmap.
  destruct (cats !! k) as [f|] eqn:Hk; [|done]. simpl.
  rewrite lookup_seq_lt by (by eapply lookup_lt_Some). simpl.
  unfold occurrences. by rewrite (bincount_values cats codes k f).
Qed.

Section ties.
Context `{SortKind}.

(** The ranking is made from the distinct food values of the table in
    label order and their counts among the hospitalized rows, and from
    nothing else. *)
Lemma top_foods_from_counts raw cleaned ranking :
  read_csv_frame raw → cleaned_of raw cleaned →
  top_foods cleaned = Some ranking →
  ∃ cats, StronglySorted cell_lt cats ∧
          (∀ f, f ∈ cats ↔ f ∈ food_values cleaned) ∧
          ranking = take 10 (sort_values false
            ((λ f, (f, occurrences f (hospitalized_foods cleaned))) <$> cats)).
Proof.
  intros Hraw Hclean Htop.
  destruct (cleaned_categorical raw cleaned "Food" Hclean) as (s & s' & Hs & Hfill & Hfood);
    [by_running|].
  destruct (Hraw _ _ Hs) as (vs & -> & _). simpl in Hfill. injection Hfill as <-.
  simpl in Hfood. set (vs' := (λ c, if isna c then Str "Unknown" else c) <$> vs) in *.
  set (cats := categories_of vs') in *. set (codes := code_of cats <$> vs') in *.
  pose proof (astype_category_wf vs') as Hwf. fold cats codes in Hwf.
  unfold top_foods in Htop. apply bind_Some in Htop as (hosp & Hhosp & Htop).
  rewrite getitem_select, Hfood in Htop. simpl in Htop. injection Htop as <-.
  exists cats. split; [apply categories_of_sorted|]. split.
  - intros f. unfold food_values. rewrite Hfood.
    pose proof (to_values_astype_category (Plain vs')) as E. simpl in E.
    fold cats codes in E. simpl. rewrite E. unfold cats. rewrite elem_of_categories_of.
    split; [tauto|]. intros Hf. split; [done|].
    subst vs'. apply list_elem_of_fmap in Hf as (x & -> & _). by destruct x.
  - unfold value_counts. f_equal. f_equal.
    rewrite count_table_categorical_eq.
    + unfold hospitalized_foods. rewrite Hhosp, Hfood. simpl. by rewrite select_fmap.
    + destruct Hwf as (? & ? & ?). split; [done|]. split; [done|]. by apply select_Forall.
Qed.

(** Two cleaned tables with the same food values and the same counts
    among their hospitalized rows have the same ranking, however their
    rows are ordered. *)
Lemma top_foods_row_order_irrelevant raw1 cleaned1 raw2 cleaned2 r1 r2 :
  read_csv_frame raw1 → cleaned_of raw1 cleaned1 →
  read_csv_frame raw2 → cleaned_of raw2 cleaned2 →
  (∀ f, f ∈ food_values cleaned1 ↔ f ∈ food_values cleaned2) →
  (∀ f, occurrences f (hospitalized_foods cleaned1)
        = occurrences f (hospitalized_foods cleaned2)) →
  top_foods cleaned1 = Some r1 → top_foods cleaned2 = Some r2 → r1 = r2.
Proof.
  intros Hraw1 Hc1 Hraw2 Hc2 Hvals Hocc Ht1 Ht2.
  destruct (top_foods_from_counts _ _ _ Hraw1 Hc1 Ht1) as (cats1 & Hs1 & Hm1 & ->).
  destruct (top_foods_from_counts _ _ _ Hraw2 Hc2 Ht2) as (cats2 & Hs2 & Hm2 & ->).
  assert (cats1 = cats2) as <-.
  { apply strictly_sorted_unique; [done..|]. intros f. by rewrite Hm1, Hvals, Hm2. }
  do 2 f_equal. apply list_fmap_ext. intros _ f _. by rewrite Hocc.
Qed.

End ties.

Lemma sorted_positions_perm l : sorted_positions l ≡ₚ seq 0 (length l).
Proof.
  unfold sorted_positions. rewrite merge_sort_Permutation.
  by rewrite snd_zip by (by rewrite length_seq).
Qed.

Lemma sorted_positions_sorted l :
  Sorted Z.le ((λ i, default 0 (l !! i)) <$> sorted_positions l).
Proof.
  unfold sorted_positions. rewrite <- list_fmap_compose.
  pose proof (Sorted_merge_sort by_item (zip l (seq 0 (length l)))) as Hs.
  assert (∀ p, p ∈ merge_sort by_item (zip l (seq 0 (length l))) → l !! p.2 = Some p.1) as Hp.
  { intros [z i] Hp. rewrite merge_sort_Permutation in Hp.
    apply list_elem_of_lookup in Hp as (k & Hk).
    apply lookup_zip_with_Some in Hk as (z' & i' & [= <- <-] & Hz & Hi).
    apply lookup_seq in Hi as (-> & _). done. }
  revert Hs Hp. generalize (merge_sort by_item (zip l (seq 0 (length l)))). intros m Hs Hp.
  induction Hs as [|p m Hs IH Hhd]; [constructor|].
  rewrite fmap_cons. constructor.
  - apply IH. intros q Hq. apply Hp. by right.
  - destruct Hhd as [|q m' Hpq]; [constructor|]. rewrite fmap_cons. constructor. simpl.
    rewrite (Hp p) by left. rewrite (Hp q) by (right; left). done.
Qed.

Definition merge_kind : SortKind := {|
  argsort := sorted_positions;
  argsort_perm := sorted_positions_perm;
  argsort_sorted := sorted_positions_sorted;
|}.

Example top_foods_example :
  @top_foods merge_kind Examples.cleaned
  = Some [(Str "Chicken", 2); (Str "Beef", 1); (Str "Unknown", 0)].
Proof. vm_compute. reflexivity. Qed.

(** On a plain column the table is made in the order of first
    occurrence; on the same values as a categorical, in label order. *)
Example count_table_plain_and_categorical :
  count_table (Plain [Str "Tuna"; Str "Beef"; Str "Tuna"])
  = [(Str "Tuna", 2); (Str "Beef", 1)] ∧
  count_table (astype_category (Plain [Str "Tuna"; Str "Beef"; Str "Tuna"]))
  = [(Str "Beef", 1); (Str "Tuna", 2)].
Proof. split; vm_compute; reflexivity. Qed.

Lemma permutation_of_two (l : list nat) :
  l ≡ₚ [0; 1]%nat → l = [0; 1]%nat ∨ l = [1; 0]%nat.
Proof.
  intros Hp. pose proof (Permutation_length Hp) as Hlen.
  destruct l as [|a [|b [|]]]; try done.
  assert (a ∈ [0; 1]%nat) as Ha by (rewrite <- Hp; left).
  assert (b ∈ [0; 1]%nat) as Hb by (rewrite <- Hp; right; left).
  assert (NoDup [a; b]) as Hnd by (rewrite Hp; by_running).
  apply NoDup_cons in Hnd as (Hab & _). rewrite list_elem_of_singleton in Hab.
  rewrite !elem_of_cons, elem_of_nil in Ha, Hb.
  destruct Ha as [->|[->|[]]], Hb as [->|[->|[]]]; try done; auto.
Qed.

(** C9 fails as worded on the order of ties. Two tables hold the same two
    outbreaks, tuna and beef, one hospitalization each, in the two row
    orders. Whatever sort is used, both tables get the same ranking, so
    in one of them the food listed first is not the food encountered
    first. *)
Lemma C9_counterexample :
  cleaned_of TiesExample.raw_tuna_first TiesExample.tuna_first ∧
  cleaned_of TiesExample.raw_beef_first TiesExample.beef_first ∧
  hospitalized_foods TiesExample.tuna_first = [Str "Tuna"; Str "Beef"] ∧
  hospitalized_foods TiesExample.beef_first = [Str "Beef"; Str "Tuna"] ∧
  ¬ ∃ (kind : SortKind) r1 r2,
      @top_foods kind TiesExample.tuna_first = Some r1 ∧
      @top_foods kind TiesExample.beef_first = Some r2 ∧
      spec_ties_first_encountered (hospitalized_foods TiesExample.tuna_first) r1 ∧
      spec_ties_first_encountered (hospitalized_foods TiesExample.beef_first) r2.
Proof.
  split; [vm_compute; reflexivity|]. split; [vm_compute; reflexivity|].
  assert (hospitalized_foods TiesExample.tuna_first = [Str "Tuna"; Str "Beef"]) as Hf1
    by (vm_compute; reflexivity).
  assert (hospitalized_foods TiesExample.beef_first = [Str "Beef"; Str "Tuna"]) as Hf2
    by (vm_compute; reflexivity).
  split; [done|]. split; [done|].
  intros (kind & r1 & r2 & H1 & H2 & S1 & S2). rewrite Hf1 in S1. rewrite Hf2 in S2.
  set (tab := [(Str "Beef", 1); (Str "Tuna", 1)]).
  assert (∀ d, getitem d "Hospitalized" = Some (Plain [Num 1; Num 1]) →
               (∃ codes, getitem d "Food" = Some (Categorical [Str "Beef"; Str "Tuna"] codes) ∧
                         count_table (Categorical [Str "Beef"; Str "Tuna"]
                                        (select [true; true] codes)) = tab) →
               @top_foods kind d = Some (take 10 (@sort_values kind false tab))) as Htop.
  { intros d Hh (codes & Hfood & Htab). unfold top_foods. rewrite Hh. cbn [mbind option_bind].
    rewrite getitem_select, Hfood. simpl. unfold value_counts.
    change (select [true; true] codes) with (select [true; true] codes) in Htab.
    by rewrite <- Htab. }
  rewrite Htop in H1; [|vm_compute; reflexivity|eexists; split; vm_compute; reflexivity].
  rewrite Htop in H2; [|vm_compute; reflexivity|eexists; split; vm_compute; reflexivity].
  injection H1 as <-. injection H2 as <-.
  unfold sort_values in S1, S2.
  destruct (permutation_of_two (@nargsort kind false tab.*2)) as [E|E].
  { apply (@nargsort_desc_perm kind). }
  - rewrite E in S1. destruct (S1 0%nat 1%nat (Str "Beef") (Str "Tuna") 1) as (i & Hi & Hno);
      [lia|done|done|].
    destruct i as [|[|i]]; try done. apply Hno. simpl. left.
  - rewrite E in S2. destruct (S2 0%nat 1%nat (Str "Tuna") (Str "Beef") 1) as (i & Hi & Hno);
      [lia|done|done|].
    destruct i as [|[|i]]; try done. apply Hno. simpl. left.
Qed.

(** The ranking is made on every cleaned table. *)
Lemma top_foods_runs `{SortKind} raw cleaned :
  cleaned_of raw cleaned → is_Some (top_foods cleaned).
Proof.
  intros Hclean. unfold top_foods.
  destruct (cleaned_hospitalized _ _ Hclean) as (s & label & _ & _ & ->).
  cbn [mbind option_bind]. rewrite getitem_select.
  destruct (cleaned_categorical raw cleaned "Food" Hclean) as (s0 & s' & _ & _ & ->);
    [by_running|].
  by eexists.
Qed.

(** C9, amended. The ranking of foods counts occurrences over the rows
    whose label is [1] only, lists at most ten foods, each once, in
    descending order of count, and a food it leaves out has a count no
    greater than any listed one. Foods with equal counts are not ordered
    by first encounter: the ranking is the sort, by count, of the
    distinct food values of the table taken in label order with their
    counts (zero counts included), so it does not depend on the order of
    the rows at all. *)
Theorem C9_top_foods_ranking `{SortKind} raw cleaned ranking :
  read_csv_frame raw → cleaned_of raw cleaned →
  top_foods cleaned = Some ranking →
  (length ranking ≤ 10)%nat ∧
  StronglySorted (flip Z.le) ranking.*2 ∧
  NoDup ranking.*1 ∧
  (∀ f c, (f, c) ∈ ranking → c = occurrences f (hospitalized_foods cleaned)) ∧
  (∀ f, f ∈ food_values cleaned →
     f ∈ ranking.*1 ∨
     (length ranking = 10%nat ∧
      ∀ f' c', (f', c') ∈ ranking → occurrences f (hospitalized_foods cleaned) <= c')) ∧
  (∃ cats, StronglySorted cell_lt cats ∧
           (∀ f, f ∈ cats ↔ f ∈ food_values cleaned) ∧
           ranking = take 10 (sort_values false
             ((λ f, (f, occurrences f (hospitalized_foods cleaned))) <$> cats))).
Proof.
  intros Hraw Hclean Htop.
  destruct (top_foods_spec _ _ _ Hraw Hclean Htop) as (H1 & H2 & H3 & H4 & H5).
  repeat (split; [done|]). by apply (top_foods_from_counts raw).
Qed.

Lemma C9_witness :
  let ranking := [(Str "Chicken", 2); (Str "Beef", 1); (Str "Unknown", 0)] in
  (length ranking ≤ 10)%nat ∧
  StronglySorted (flip Z.le) ranking.*2 ∧
  NoDup ranking.*1 ∧
  (∀ f c, (f, c) ∈ ranking → c = occurrences f (hospitalized_foods Examples.cleaned)) ∧
  (∀ f, f ∈ food_values Examples.cleaned →
     f ∈ ranking.*1 ∨
     (length ranking = 10%nat ∧
      ∀ f' c', (f', c') ∈ ranking →
               occurrences f (hospitalized_foods Examples.cleaned) <= c')) ∧
  (∃ cats, StronglySorted cell_lt cats ∧
           (∀ f, f ∈ cats ↔ f ∈ food_values Examples.cleaned) ∧
           ranking = take 10 (@sort_values merge_kind false
             ((λ f, (f, occurrences f (hospitalized_foods Examples.cleaned))) <$> cats))).
Proof.
  apply (@C9_top_foods_ranking merge_kind Examples.raw Examples.cleaned).
  - exact example_read_csv.
  - vm_compute. reflexivity.
  - vm_compute. reflexivity.
Defined.

(** ** Scores *)

Lemma accuracy_score_range y_true y_pred q :
  accuracy_score y_true y_pred = Some q → (0 <= q <= 1)%Q.
Proof.
  unfold accuracy_score. case_decide as Hlen; [|done]. intros [= <-].
  destruct Hlen as (Hlen & Hne).
  set (pairs := zip y_true y_pred).
  assert (length (filter (λ tp, tp.1 = tp.2) pairs) ≤ length y_true)%nat as Hle.
  { etrans; [apply length_filter|]. unfold pairs. rewrite length_zip. lia. }
  destruct y_true as [|t y_true]; [done|]. simpl length in *.
  unfold Qle. simpl Qnum. simpl Qden.
  rewrite <- Pos.of_nat_succ, Zpos_P_of_succ_nat. lia.
Qed.

(** A prediction that is right in every row scores [1]. *)
Lemma accuracy_score_perfect y :
  y ≠ [] → ∃ q, accuracy_score y y = Some q ∧ (q == 1)%Q.
Proof.
  intros Hy. unfold accuracy_score. case_decide as Hlen; [|by destruct Hlen].
  eexists. split; [done|].
  assert (filter (λ tp : Z * Z, tp.1 = tp.2) (zip y y) = zip y y) as ->.
  { clear. induction y as [|a y IH]; [done|]. simpl zip. rewrite filter_cons.
    simpl. case_decide; [|done]. by rewrite IH. }
  rewrite length_zip, Nat.min_id. destruct y as [|a y]; [done|]. simpl length.
  unfold Qeq. simpl Qnum. simpl Qden.
  rewrite <- Pos.of_nat_succ, Zpos_P_of_succ_nat. lia.
Qed.

(** C8. For [y_test = [0,1,1,0]] and [y_pred = [0,1,0,0]] the labels are
    [0] (no hospitalization) and [1] (hospitalization) in this order, the
    confusion matrix, rows actual and columns predicted, is
    [[2,0],[1,1]], and the accuracy is [0.75]. *)
Theorem C8_confusion_matrix_and_accuracy :
  unique_labels [0; 1; 1; 0] [0; 1; 0; 0] = [0; 1] ∧
  confusion_matrix [0; 1; 1; 0] [0; 1; 0; 0] = Some [[2; 0]; [1; 1]] ∧
  ∃ q, accuracy_score [0; 1; 1; 0] [0; 1; 0; 0] = Some q ∧ (q == 0.75)%Q.
Proof.
  split; [vm_compute; reflexivity|]. split; [vm_compute; reflexivity|].
  exists (3 # 4)%Q. split; [vm_compute; reflexivity|]. reflexivity.
Qed.

(** ** The split is a partition *)

Lemma insert_head_perm {A} (t : list A) j b h :
  t !! j = Some b → b :: <[j := h]> t ≡ₚ h :: t.
Proof.
  revert j. induction t as [|c t IH]; intros [|j] Hj; simpl in *; try done.
  - injection Hj as ->. apply Permutation_swap.
  - rewrite Permutation_swap, (IH j Hj). apply Permutation_swap.
Qed.

Lemma swap_perm (x : list nat) i j : MT19937.swap x i j ≡ₚ x.
Proof.
  unfold MT19937.swap.
  destruct (x !! i) as [a|] eqn:Hi; [|done]. destruct (x !! j) as [b|] eqn:Hj; [|done].
  revert i j Hi Hj. induction x as [|h t IH]; intros [|i] [|j] Hi Hj; simpl in *; try done.
  - by simplify_eq.
  - injection Hi as ->. by apply insert_head_perm.
  - injection Hj as ->. by apply insert_head_perm.
  - by rewrite IH.
Qed.

Lemma shuffle_from_S fuel i x st :
  MT19937.shuffle_from fuel (S i) x st
  = MT19937.random_interval fuel (Z.of_nat (S i)) st ≫= λ r,
      MT19937.shuffle_from fuel i (MT19937.swap x (S i) (Z.to_nat r.1)) r.2.
Proof. reflexivity. Qed.

Lemma shuffle_from_perm fuel i : ∀ x st x' st',
  MT19937.shuffle_from fuel i x st = Some (x', st') → x' ≡ₚ x.
Proof.
  induction i as [|i IH]; intros x st x' st' H.
  - injection H as <- <-. done.
  - rewrite shuffle_from_S in H.
    apply bind_Some in H as (r & _ & H). apply IH in H.
    etrans; [exact H|]. apply swap_perm.
Qed.

Lemma permutation_perm fuel n st p st' :
  MT19937.permutation fuel n st = Some (p, st') → p ≡ₚ seq 0 n.
Proof. apply shuffle_from_perm. Qed.

Lemma shuffled_perm fuel rs n g p g' :
  shuffled fuel rs n g = Some (p, g') → p ≡ₚ seq 0 n.
Proof.
  unfold shuffled. destruct rs as [sd|]; [|apply permutation_perm].
  case_match; [|done]. intros Hs. apply bind_Some in Hs as ([p' st'] & Hp & [= <- <-]).
  by eapply permutation_perm.
Qed.

Lemma validate_shuffle_split_spec n ts n_train n_test :
  validate_shuffle_split n ts = Some (n_train, n_test) →
  (n_train + n_test = n)%nat ∧ (0 < n_train)%nat ∧ (0 < n_test)%nat ∧
  Z.of_nat n_test = Qceiling (ts * inject_Z (Z.of_nat n)).
Proof.
  unfold validate_shuffle_split.
  destruct (Qle_bool ts 0) eqn:H0; [done|]. destruct (Qle_bool 1 ts) eqn:H1; [done|].
  cbn [orb]. case_decide as Hz; [done|]. intros [= <- <-].
  assert (0 < ts)%Q as Hpos.
  { apply Qnot_le_lt. intros Hle. apply Qle_bool_iff in Hle. congruence. }
  assert (ts < 1)%Q as Hlt.
  { apply Qnot_le_lt. intros Hle. apply Qle_bool_iff in Hle. congruence. }
  set (c := Qceiling (ts * inject_Z (Z.of_nat n))) in *.
  assert (0 < n)%nat as Hn by lia.
  assert (0 < c) as Hc.
  { assert (0 < inject_Z c)%Q as Hq.
    { eapply Qlt_le_trans; [|apply Qle_ceiling].
      apply Qmult_lt_0_compat; [done|]. unfold Qlt. simpl. lia. }
    unfold Qlt in Hq. simpl in Hq. lia. }
  lia.
Qed.

Lemma train_test_indices_spec fuel n ts rs g train test g' :
  train_test_indices fuel n ts rs g = Some ((train, test), g') →
  ∃ p, p ≡ₚ seq 0 n ∧ p = (test ++ train)%list ∧ (0 < length train)%nat ∧ (0 < length test)%nat ∧
       Z.of_nat (length test) = Qceiling (ts * inject_Z (Z.of_nat n)).
Proof.
  unfold train_test_indices. intros H.
  apply bind_Some in H as ([n_train n_test] & Hsizes & H).
  apply bind_Some in H as ([p g1] & Hp & H). simpl in H. injection H as <- <- <-.
  apply validate_shuffle_split_spec in Hsizes as (Hsum & Htr & Hte & Hceil).
  apply shuffled_perm in Hp. pose proof (Permutation_length Hp) as Hlen.
  rewrite length_seq in Hlen.
  assert (take n_train (drop n_test p) = drop n_test p) as ->.
  { apply take_ge. rewrite length_drop. lia. }
  exists p. rewrite take_drop, length_drop, length_take. repeat split; try done; lia.
Qed.



(** With [test_size=0.3] the held-out part has [(3 n + 9) / 10] rows. *)
Lemma ceiling_three_tenths (n : nat) :
  Qceiling (test_size * inject_Z (Z.of_nat n)) = (3 * Z.of_nat n + 9) / 10.
Proof.
  unfold Qceiling, Qfloor, test_size. simpl Qopp. unfold Qmult, Qopp, inject_Z.
  cbn [Qnum Qden]. change (Z.pos (10 * 1)) with 10.
  Z.to_euclidean_division_equations. lia.
Qed.

Lemma select_columns_nrows d names X :
  select_columns d names = Some X → nrows X = nrows d.
Proof.
  unfold select_columns. intros H. apply bind_Some in H as (sub & _ & [= <-]).
  by rewrite setitem_list_nrows.
Qed.

Lemma validate_three_tenths n :
  validate_shuffle_split n test_size = None ↔ (n ≤ 1)%nat.
Proof.
  unfold validate_shuffle_split.
  assert (Qle_bool test_size 0 || Qle_bool 1 test_size = false) as -> by reflexivity.
  rewrite ceiling_three_tenths.
  assert (10 * ((3 * Z.of_nat n + 9) / 10) <= 3 * Z.of_nat n + 9
          < 10 * ((3 * Z.of_nat n + 9) / 10) + 10) as Hq.
  { Z.to_euclidean_division_equations. lia. }
  revert Hq. generalize ((3 * Z.of_nat n + 9) / 10). intros q Hq.
  case_decide as Hz; split; try done; intros Hn; [lia|]. exfalso. apply Hz. lia.
Qed.

(** X2. A table of fewer than two rows cannot be split at [test_size=0.3]:
    no row would be left to train on, and both calls of the script raise
    ([ValueError]); from two rows on the sizes are accepted. *)
Theorem split_needs_two_rows {R} (fit_transform : DataFrame → list R) fuel d g :
  (validate_shuffle_split (DataFrame_len d) test_size = None ↔ (DataFrame_len d ≤ 1)%nat) ∧
  ((DataFrame_len d ≤ 1)%nat → tree_split fuel d g = None) ∧
  ((DataFrame_len d ≤ 1)%nat → (∀ X, length (fit_transform X) = DataFrame_len X) →
     network_split fit_transform fuel d g = None).
Proof.
  split; [apply validate_three_tenths|]. split.
  - intros Hn. unfold tree_split.
    destruct (select_columns d features) as [X|] eqn:HX; [|done]. cbn [mbind option_bind].
    destruct (getitem d target) as [y|]; [|done]. cbn [mbind option_bind].
    unfold train_test_split. case_decide; [|done]. unfold train_test_indices.
    simpl num_samples. unfold DataFrame_len in *. rewrite (select_columns_nrows _ _ _ HX).
    by rewrite (proj2 (validate_three_tenths (nrows d)) Hn).
  - intros Hn Hrows. unfold network_split.
    destruct (select_columns d features) as [X|] eqn:HX; [|done]. cbn [mbind option_bind].
    destruct (getitem d target) as [y|]; [|done]. cbn [mbind option_bind].
    unfold train_test_split. case_decide; [|done]. unfold train_test_indices.
    simpl num_samples. rewrite (Hrows X). unfold DataFrame_len in *.
    rewrite (select_columns_nrows _ _ _ HX).
    by rewrite (proj2 (validate_three_tenths (nrows d)) Hn).
Qed.

Lemma split_needs_two_rows_witness :
  let d := DataFrame_select [true; false; false; false; false] EncodedExample.df_model in
  (validate_shuffle_split (DataFrame_len d) test_size = None ↔ (DataFrame_len d ≤ 1)%nat) ∧
  ((DataFrame_len d ≤ 1)%nat → tree_split 64 d EncodedExample.shared = None) ∧
  ((DataFrame_len d ≤ 1)%nat →
     (∀ X, length (EncodedExample.scaled X) = DataFrame_len X) →
     network_split EncodedExample.scaled 64 d EncodedExample.shared = None).
Proof.
  cbv zeta.
  exact (split_needs_two_rows EncodedExample.scaled 64
           (DataFrame_select [true; false; false; false; false] EncodedExample.df_model)
           EncodedExample.shared).
Defined.

(** ** The split keeps every record *)

Lemma take_rows_fmap {A B} (f : A → B) idx l :
  take_rows idx (f <$> l) = f <$> take_rows idx l.
Proof.
  unfold take_rows. rewrite list_fmap_omap. apply list_omap_ext.
  apply Forall_Forall2_diag, Forall_forall. intros i _. apply list_lookup_fmap.
Qed.

Lemma take_rows_all {A} (l : list A) : take_rows (seq 0 (length l)) l = l.
Proof.
  unfold take_rows. induction l as [|a l IH] using rev_ind; [done|].
  rewrite length_app. simpl. rewrite Nat.add_1_r, seq_S, omap_app. simpl.
  rewrite lookup_app_r, Nat.sub_diag by lia. simpl. f_equal.
  rewrite <- IH at 2. apply list_omap_ext, Forall2_same_length_lookup_2; [done|].
  intros i x y Hx Hy. rewrite Hx in Hy. injection Hy as <-.
  apply lookup_seq in Hx as (-> & Hi). simpl. by rewrite lookup_app_l.
Qed.

Lemma take_rows_perm {A} idx (l : list A) :
  idx ≡ₚ seq 0 (length l) → take_rows idx l ≡ₚ l.
Proof. intros Hp. unfold take_rows. rewrite Hp. by rewrite <- (take_rows_all l) at 2. Qed.

Lemma take_rows_length {A} idx (l : list A) :
  in_range (length l) idx = true → length (take_rows idx l) = length idx.
Proof.
  unfold in_range, take_rows. induction idx as [|i idx IH]; [done|].
  cbn [forallb]. intros (Hi & Hidx)%andb_prop. apply bool_decide_eq_true in Hi.
  destruct (lookup_lt_is_Some_2 l i Hi) as (x & Hx).
  change (i :: idx) with ([i] ++ idx)%list. rewrite omap_app, !length_app, IH by done.
  simpl. by rewrite Hx.
Qed.

Lemma to_values_iloc idx s : to_values (Series_iloc idx s) = take_rows idx (to_values s).
Proof. destruct s; simpl; [done|]. by rewrite take_rows_fmap. Qed.

Lemma occurrences_app v l1 l2 :
  occurrences v (l1 ++ l2) = occurrences v l1 + occurrences v l2.
Proof. unfold occurrences. rewrite filter_app, length_app. lia. Qed.

Lemma occurrences_perm v l1 l2 : l1 ≡ₚ l2 → occurrences v l1 = occurrences v l2.
Proof. intros Hp. unfold occurrences. by rewrite Hp. Qed.

(** X3. The split of lines 98-100 loses and repeats no record: the training
    and held-out labels together are the labels of the table, so each
    label occurs as often in the two parts as in the table; the two
    feature tables have as many rows as their label vectors, and together
    as many as the table. *)
Theorem split_keeps_every_record fuel d g s g' :
  tree_split fuel d g = Some (s, g') →
  ∃ y, getitem d target = Some y ∧
       (to_values (y_train s) ++ to_values (y_test s))%list ≡ₚ to_values y ∧
       (∀ v, occurrences v (to_values (y_train s)) + occurrences v (to_values (y_test s))
             = occurrences v (to_values y)) ∧
       (DataFrame_len (X_train s) + DataFrame_len (X_test s) = DataFrame_len d)%nat ∧
       Series_len (y_train s) = DataFrame_len (X_train s) ∧
       Series_len (y_test s) = DataFrame_len (X_test s).
Proof.
  unfold tree_split. intros H.
  apply bind_Some in H as (X & HX & H). apply bind_Some in H as (y & Hy & H).
  unfold train_test_split in H. case_decide as Hlen; [|done].
  apply bind_Some in H as ([[train test] g1] & Hidx & H).
  cbn [fst snd] in H. simpl num_samples in *. simpl safe_indexing in H.
  unfold DataFrame_len in *. rewrite (select_columns_nrows _ _ _ HX) in *.
  destruct (in_range (nrows d) train) eqn:Htr; [|done].
  destruct (in_range (nrows d) test) eqn:Hte; [|done].
  rewrite <- Hlen, Htr, Hte in H. cbn [mbind option_bind] in H. injection H as <- <-.
  apply train_test_indices_spec in Hidx as (p & Hp & -> & _ & _ & _).
  assert ((train ++ test)%list ≡ₚ seq 0 (nrows d)) as Hperm.
  { by rewrite (Permutation_app_comm train test). }
  assert ((length train + length test)%nat = nrows d) as Hsum.
  { rewrite <- length_app, Hperm. apply length_seq. }
  exists y. split; [done|]. cbn [y_train y_test X_train X_test nrows].
  rewrite !to_values_iloc.
  assert ((take_rows train (to_values y) ++ take_rows test (to_values y))%list
          ≡ₚ to_values y) as Hy'.
  { unfold take_rows. rewrite <- omap_app. apply take_rows_perm.
    by rewrite Series_len_to_values, <- Hlen. }
  split; [done|]. split.
  { intros v. by rewrite <- occurrences_app, (occurrences_perm _ _ _ Hy'). }
  split; [done|].
  rewrite <- !Series_len_to_values, !to_values_iloc.
  rewrite !take_rows_length by (by rewrite Series_len_to_values, <- Hlen). done.
Qed.

Lemma split_keeps_every_record_witness :
  ∃ s g', tree_split 64 EncodedExample.df_model EncodedExample.shared = Some (s, g') ∧
  ∃ y, getitem EncodedExample.df_model target = Some y ∧
       (to_values (y_train s) ++ to_values (y_test s))%list ≡ₚ to_values y ∧
       (∀ v, occurrences v (to_values (y_train s)) + occurrences v (to_values (y_test s))
             = occurrences v (to_values y)) ∧
       (DataFrame_len (X_train s) + DataFrame_len (X_test s)
        = DataFrame_len EncodedExample.df_model)%nat ∧
       Series_len (y_train s) = DataFrame_len (X_train s) ∧
       Series_len (y_test s) = DataFrame_len (X_test s).
Proof.
  destruct (tree_split 64 EncodedExample.df_model EncodedExample.shared) as [[s g']|] eqn:Hs;
    [|by vm_compute in Hs].
  exists s, g'. split; [done|].
  exact (split_keeps_every_record 64 EncodedExample.df_model EncodedExample.shared s g' Hs).
Defined.

(** ** When cleaning raises *)

(** X4. The cleaning block runs through exactly on the tables that have the
    ten columns it reads and no text in [Hospitalizations]: a column
    that is absent is a [KeyError], a text in [Hospitalizations] is the
    [TypeError] of [x > 0]. *)
Theorem cleaning_runs_iff raw :
  read_csv_frame raw →
  (is_Some (clean_in_place raw) ↔
   (∀ c, c ∈ required_cols → is_Some (getitem raw c)) ∧
   (∀ i t, value_at raw "Hospitalizations" i ≠ Some (Str t))).
Proof.
  intros Hraw. split.
  - intros (cleaned & Hclean). split.
    + intros c Hc. unfold required_cols in Hc. rewrite !elem_of_app in Hc.
      destruct Hc as [Hc|[Hc|Hc]].
      * destruct (cleaned_categorical _ _ _ Hclean Hc) as (s & _ & -> & _). by eexists.
      * destruct (cleaned_numeric _ _ _ Hclean Hc) as (s & _ & -> & _). by eexists.
      * destruct (cleaned_state_month _ _ _ Hclean Hc) as (s & -> & _). by eexists.
    + intros i t Ht.
      pose proof (cleaned_numeric_value raw cleaned "Hospitalizations" i (Str t) Hraw Hclean) as Hv.
      simpl in Hv. specialize (Hv ltac:(by_running) Ht).
      destruct (cleaned_hospitalized _ _ Hclean) as (s & label & Hs & Hlabel & _).
      apply value_at_Some in Hv as (s' & Hs' & Hv). rewrite Hs in Hs'. injection Hs' as <-.
      unfold Series_apply in Hlabel. apply fmap_Some in Hlabel as (l & Hl & _).
      apply mapM_Some in Hl. by destruct (Forall2_lookup_l _ _ _ _ _ Hl Hv) as (h & _ & ?).
  - intros (Hcols & Htext). destruct (clean_in_place_runs raw Hraw Hcols Htext) as (c & Hc).
    by exists c.
Qed.

Lemma cleaning_runs_iff_witness :
  is_Some (clean_in_place Examples.raw) ↔
  (∀ c, c ∈ required_cols → is_Some (getitem Examples.raw c)) ∧
  (∀ i t, value_at Examples.raw "Hospitalizations" i ≠ Some (Str t)).
Proof. apply (cleaning_runs_iff Examples.raw). exact example_read_csv. Defined.

(** ** Missing cells, before and after *)

Lemma fill_counts v l :
  v ≠ NaN →
  length (filter (λ x, x = NaN) ((λ c, if isna c then v else c) <$> l)) = 0%nat ∧
  length (filter (λ x, x = v) ((λ c, if isna c then v else c) <$> l))
  = (length (filter (λ x, x = NaN) l) + length (filter (λ x, x = v) l))%nat.
Proof.
  intros Hv. induction l as [|c l (IH1 & IH2)]; [done|].
  rewrite fmap_cons, !filter_cons.
  destruct c as [|z|t]; simpl; repeat case_decide; simpl; try done; split; try lia;
    try congruence.
Qed.

(** X5. What line 18 counts is what lines 25 and 28 fill: after cleaning no
    imputed column has a missing cell, and the cells of a categorical
    column that read [Unknown] are its missing cells and the cells that
    read [Unknown] before, the zeros of a count column its missing cells
    and the zeros it had. *)
Theorem missing_cells_become_fill_values raw cleaned c :
  read_csv_frame raw → cleaned_of raw cleaned →
  c ∈ (categorical_cols ++ numeric_cols)%list →
  ∃ missing s s',
    isnull_sum raw !! c = Some missing ∧
    isnull_sum cleaned !! c = Some 0 ∧
    getitem raw c = Some s ∧ getitem cleaned c = Some s' ∧
    (c ∈ categorical_cols →
       occurrences (Str "Unknown") (to_values s')
       = missing + occurrences (Str "Unknown") (to_values s)) ∧
    (c ∈ numeric_cols →
       occurrences (Num 0) (to_values s') = missing + occurrences (Num 0) (to_values s)).
Proof.
  intros Hraw Hclean Hc. unfold isnull_sum. rewrite !lookup_fmap.
  assert (∃ fill s s', (fill = if decide (c ∈ categorical_cols) then Str "Unknown" else Num 0) ∧
            fill ≠ NaN ∧ getitem raw c = Some s ∧ getitem cleaned c = Some s' ∧
            to_values s' = (λ x, if isna x then fill else x) <$> to_values s)
    as (fill & s & s' & Hfill & Hna & Hs & Hs' & Hvals).
  { apply elem_of_app in Hc as [Hc|Hc].
    - destruct (cleaned_categorical _ _ _ Hclean Hc) as (s & s1 & Hs & Hf & Hcl).
      exists (Str "Unknown"), s, (astype_category s1). rewrite decide_True by done.
      repeat split; try done.
      by rewrite to_values_astype_category, (read_csv_fillna _ _ _ _ _ Hraw Hs Hf).
    - destruct (cleaned_numeric _ _ _ Hclean Hc) as (s & s1 & Hs & Hf & Hcl).
      exists (Num 0), s, s1. rewrite decide_False.
      + repeat split; try done. by rewrite (read_csv_fillna _ _ _ _ _ Hraw Hs Hf).
      + unfold numeric_cols in Hc.
        repeat (apply elem_of_cons in Hc as [->|Hc]); try (by apply elem_of_nil in Hc);
          by_running. }
  unfold getitem in Hs, Hs'. rewrite Hs, Hs'. cbn [fmap option_fmap option_map].
  destruct (fill_counts fill (to_values s) Hna) as (H0 & Hsum).
  eexists _, s, s'. split; [done|]. rewrite Hvals, H0. split; [done|].
  split; [done|]. split; [done|].
  assert (occurrences fill (to_values s') =
          Z.of_nat (length (filter (λ v, v = NaN) (to_values s)))
          + occurrences fill (to_values s)) as Hocc.
  { unfold occurrences. rewrite Hvals, Hsum. lia. }
  split.
  - intros Hcat. rewrite decide_True in Hfill by done. subst fill.
    rewrite <- Hvals. exact Hocc.
  - intros Hnum. rewrite decide_False in Hfill; [subst fill; rewrite <- Hvals; exact Hocc|].
    unfold numeric_cols in Hnum.
    repeat (apply elem_of_cons in Hnum as [->|Hnum]); try (by apply elem_of_nil in Hnum);
      by_running.
Qed.

Lemma missing_cells_become_fill_values_witness :
  ∃ missing s s',
    isnull_sum Examples.raw !! "Food" = Some missing ∧
    isnull_sum Examples.cleaned !! "Food" = Some 0 ∧
    getitem Examples.raw "Food" = Some s ∧ getitem Examples.cleaned "Food" = Some s' ∧
    ("Food" ∈ categorical_cols →
       occurrences (Str "Unknown") (to_values s')
       = missing + occurrences (Str "Unknown") (to_values s)) ∧
    ("Food" ∈ numeric_cols →
       occurrences (Num 0) (to_values s') = missing + occurrences (Num 0) (to_values s)).
Proof.
  apply (missing_cells_become_fill_values Examples.raw Examples.cleaned "Food").
  - exact example_read_csv.
  - vm_compute. reflexivity.
  - by_running.
Defined.

(** ** Encoders and categories *)

Lemma filter_notna_id (vs : list cell) : NaN ∉ vs → filter notna vs = vs.
Proof.
  induction vs as [|v vs IH]; [done|]. intros (Hv & Hvs)%not_elem_of_cons.
  rewrite filter_cons. rewrite decide_True by (unfold notna; congruence). by rewrite IH.
Qed.

(** On a column without missing values the label encoder finds the
    categories the column already has, and gives every row the code it
    already has. *)
Lemma fit_transform_of_categorical vs classes codes :
  NaN ∉ vs →
  LabelEncoder_fit_transform vs = Some (classes, codes) →
  classes = categories_of vs ∧ codes = code_of (categories_of vs) <$> vs.
Proof.
  intros Hna Hfit. unfold LabelEncoder_fit_transform, LabelEncoder_fit in Hfit.
  destruct (existsb is_num vs && existsb is_str vs); [done|].
  cbn [mbind option_bind] in Hfit. apply bind_Some in Hfit as (cs & Hcs & [= <- <-]).
  assert (merge_sort cell_le (remove_dups vs) = categories_of vs) as E.
  { unfold categories_of. by rewrite filter_notna_id. }
  rewrite E in *. split; [done|].
  unfold LabelEncoder_transform in Hcs. apply mapM_Some in Hcs.
  apply list_eq. intros i. rewrite list_lookup_fmap.
  destruct (vs !! i) as [v|] eqn:Hv.
  - destruct (Forall2_lookup_l _ _ _ _ _ Hcs Hv) as (c & -> & Hc). simpl. f_equal.
    apply fmap_Some in Hc as (k & Hk & ->). unfold code_of. rewrite Hk.
    destruct v; try done. destruct Hna. by eapply list_elem_of_lookup_2.
  - simpl. apply lookup_ge_None. rewrite <- (Forall2_length _ _ _ Hcs).
    by apply lookup_ge_None.
Qed.

(** X6. The second typing of lines 91-95 repeats the first of lines 31-32:
    for [Location] and [Food], and for [State] and [Month] when the file
    leaves none of them empty, the classes of the encoder are the
    categories of the cleaned column and the encoded column holds the
    category codes. *)
Theorem encoder_repeats_the_categories raw cleaned df_model le_dict c :
  read_csv_frame raw → cleaned_of raw cleaned →
  encode_columns features cleaned ∅ = Some (df_model, le_dict) →
  c ∈ ["Location"; "Food"] ∨
  (c ∈ ["State"; "Month"] ∧ (∀ i, value_at raw c i ≠ Some NaN)) →
  ∃ cats codes, getitem cleaned c = Some (Categorical cats codes) ∧
                le_dict !! c = Some cats ∧
                getitem df_model c = Some (Plain (Num <$> codes)).
Proof.
  intros Hraw Hclean Henc Hc.
  assert (∃ vs, getitem cleaned c = Some (astype_category (Plain vs)) ∧ (NaN ∉ vs) ∧
                c ∈ features) as (vs & Hcl & Hna & Hfeat).
  { destruct Hc as [Hc|(Hc & Hpresent)].
    - assert (c ∈ categorical_cols ∧ c ∈ features) as (Hcat & Hfeat).
      { repeat (apply elem_of_cons in Hc as [->|Hc]); try (by apply elem_of_nil in Hc);
          split; by_running. }
      destruct (cleaned_categorical _ _ _ Hclean Hcat) as (s & s' & Hs & Hfill & Hcl).
      destruct (Hraw _ _ Hs) as (vs & -> & _). simpl in Hfill. injection Hfill as <-.
      eexists. split; [exact Hcl|]. split; [|done].
      intros (x & Hx & _)%list_elem_of_fmap. by destruct x.
    - assert (c ∈ features) as Hfeat.
      { repeat (apply elem_of_cons in Hc as [->|Hc]); try (by apply elem_of_nil in Hc);
          by_running. }
      destruct (cleaned_state_month _ _ _ Hclean Hc) as (s & Hs & Hcl).
      destruct (Hraw _ _ Hs) as (vs & -> & _).
      exists vs. split; [done|]. split; [|done].
      intros (i & Hi)%list_elem_of_lookup. apply (Hpresent i).
      apply value_at_Some. by eexists. }
  apply encode_columns_spec in Henc as (_ & _ & Hin); [|apply features_NoDup].
  destruct (Hin c Hfeat) as (s & Hs & Hcase). rewrite Hcl in Hs. injection Hs as <-.
  destruct Hcase as [(_ & classes & codes & Hfit & Hcol & Hle)|(Hne & _)]; [|done].
  change (Categorical (categories_of vs) (code_of (categories_of vs) <$> vs))
    with (astype_category (Plain vs)) in Hfit.
  rewrite to_values_astype_category in Hfit. simpl in Hfit.
  apply fit_transform_of_categorical in Hfit as (-> & ->); [|done].
  eexists _, _. split; [exact Hcl|]. done.
Qed.

Lemma encoder_repeats_the_categories_witness :
  ∃ cats codes, getitem Examples.cleaned "Food" = Some (Categorical cats codes) ∧
                EncodedExample.le_dict !! "Food" = Some cats ∧
                getitem EncodedExample.df_model "Food" = Some (Plain (Num <$> codes)).
Proof.
  apply (encoder_repeats_the_categories Examples.raw Examples.cleaned).
  - exact example_read_csv.
  - vm_compute. reflexivity.
  - vm_compute. reflexivity.
  - left. by_running.
Defined.

(** ** When encoding raises *)

(** X7. The encoding loop runs through on a cleaned table exactly when the
    table has a [Year] and none of [Month], [State], [Location], [Food]
    holds numbers and text together ([LabelEncoder] refuses such labels
    with a [TypeError]). *)
Theorem encoding_runs_iff raw cleaned :
  read_csv_frame raw → cleaned_of raw cleaned →
  (is_Some (encode_columns features cleaned ∅) ↔
   is_Some (getitem raw "Year") ∧
   ∀ c s, c ∈ encoded_cols → getitem cleaned c = Some s → one_kind (to_values s)).
Proof.
  intros Hraw Hclean. split.
  - intros ([d le] & Henc).
    apply encode_columns_spec in Henc as (_ & _ & Hin); [|apply features_NoDup]. split.
    + destruct (Hin "Year") as (s & Hs & _); [by_running|].
      rewrite (cleaned_other raw cleaned "Year" Hclean) in Hs by by_running. by eexists.
    + intros c s Hc Hs.
      destruct (cleaned_feature_categorical _ _ _ Hclean Hc) as (s' & Hs' & Hcat).
      rewrite Hs in Hs'. injection Hs' as <-.
      destruct (Hin c) as (s' & Hs' & Hcase).
      { unfold encoded_cols in Hc.
        repeat (apply elem_of_cons in Hc as [->|Hc]); try (by apply elem_of_nil in Hc);
          by_running. }
      rewrite Hs in Hs'. injection Hs' as <-.
      destruct Hcase as [(_ & classes & codes & Hfit & _)|(Hne & _)]; [|done].
      unfold LabelEncoder_fit_transform, LabelEncoder_fit in Hfit. unfold one_kind.
      by destruct (existsb is_num (to_values s) && existsb is_str (to_values s)).
  - intros (Hyear & Hkind).
    destruct (encode_columns_runs raw cleaned Hraw Hclean Hyear Hkind) as (d & le & ->).
    by eexists.
Qed.

Lemma encoding_runs_iff_witness :
  is_Some (encode_columns features Examples.cleaned ∅) ↔
  is_Some (getitem Examples.raw "Year") ∧
  ∀ c s, c ∈ encoded_cols → getitem Examples.cleaned c = Some s → one_kind (to_values s).
Proof.
  apply (encoding_runs_iff Examples.raw Examples.cleaned).
  - exact example_read_csv.
  - vm_compute. reflexivity.
Defined.

(** A numeric [Location] column with an empty cell is such a table: the
    cell is filled with the text [Unknown], and the encoder is given
    numbers and text. *)
Example numeric_location_with_a_gap :
  let raw := setitem Examples.raw "Location" (Plain [Num 1; Num 2; NaN; Num 1; Num 2]) in
  read_csv_frame raw ∧
  ∃ cleaned, cleaned_of raw cleaned ∧ encode_columns features cleaned ∅ = None.
Proof.
  intros raw. split; [apply read_csv_frame_check; by_running|].
  exists (default raw (clean_in_place raw)). split; vm_compute; reflexivity.
Qed.

(** ** Encoding: what it touches *)

(** X8. Encoding works on a copy: the object [df_cleaned] names and every
    other object keep their tables, and encoding the cleaned table a
    second time (lines 135-144, after lines 83-95) gives a new object with
    the same table and the same encoders, so the dictionary of encoders
    line 139 starts over ends up as it was. *)
Theorem encoding_leaves_the_cleaned_table h df_cleaned df_model le_dict h' :
  encoding df_cleaned h = Some ((df_model, le_dict), h') →
  h' !! df_cleaned = h !! df_cleaned ∧
  (∀ l, is_Some (h !! l) → h' !! l = h !! l) ∧
  h !! df_model = None ∧
  (∀ df_dl le_dict2 h2,
     encoding df_cleaned h' = Some ((df_dl, le_dict2), h2) →
     le_dict2 = le_dict ∧ df_dl ≠ df_model ∧ h2 !! df_dl = h' !! df_model ∧
     h2 !! df_model = h' !! df_model).
Proof.
  intros Henc. pose proof (encoding_spec _ _ _ _ _ Henc)
    as (cleaned & encoded & Hc & Hfresh & He & ->).
  assert (∀ l, is_Some (h !! l) → <[df_model := encoded]> h !! l = h !! l) as Hframe.
  { intros l (d & Hl). rewrite lookup_insert_ne; [done|]. intros ->. congruence. }
  split; [apply Hframe; by eexists|]. split; [done|]. split; [done|].
  intros df_dl le2 h2 Henc2.
  destruct (encoding_twice _ _ _ _ _ _ _ _ Henc Henc2) as (e & Hm & Hdl & Hne & -> & _).
  rewrite lookup_insert_eq. rewrite Hm, Hdl.
  pose proof (encoding_spec _ _ _ _ _ Henc2) as (c2 & e2 & _ & Hfresh2 & _ & ->).
  rewrite lookup_insert_ne in Hm by done. rewrite lookup_insert_eq in Hm.
  by injection Hm as ->.
Qed.

Lemma encoding_leaves_the_cleaned_table_witness :
  EncodedExample.heap1 !! EncodedExample.df_cleaned
  = EncodedExample.heap !! EncodedExample.df_cleaned ∧
  (∀ l, is_Some (EncodedExample.heap !! l) →
        EncodedExample.heap1 !! l = EncodedExample.heap !! l) ∧
  EncodedExample.heap !! 1%nat = None ∧
  (∀ df_dl le_dict2 h2,
     encoding EncodedExample.df_cleaned EncodedExample.heap1 = Some ((df_dl, le_dict2), h2) →
     le_dict2 = EncodedExample.le_dict ∧ df_dl ≠ 1%nat ∧
     h2 !! df_dl = EncodedExample.heap1 !! 1%nat ∧
     h2 !! 1%nat = EncodedExample.heap1 !! 1%nat).
Proof.
  apply (encoding_leaves_the_cleaned_table EncodedExample.heap EncodedExample.df_cleaned
           1%nat EncodedExample.le_dict EncodedExample.heap1).
  vm_compute. reflexivity.
Defined.

(** ** Sums over groups *)

Lemma Zsum_app l1 l2 : Zsum (l1 ++ l2) = Zsum l1 + Zsum l2.
Proof. unfold Zsum. induction l1 as [|x l1 IH]; simpl; lia. Qed.

Lemma Zsum_ones {A} (l : list A) : Zsum ((λ _, 1) <$> l) = Z.of_nat (length l).
Proof.
  unfold Zsum. induction l as [|x l IH]; [done|].
  rewrite fmap_cons. cbn [foldr]. rewrite IH. cbn [length]. lia.
Qed.

Lemma weight_where_cons {A} (P : A → Prop) `{∀ x, Decision (P x)} x (L : list (A * Z)) :
  weight_where P (x :: L) = (if decide (P x.1) then x.2 else 0) + weight_where P L.
Proof. unfold weight_where. rewrite filter_cons. by case_decide. Qed.

Lemma Zsum_cons x l : Zsum (x :: l) = x + Zsum l.
Proof. done. Qed.

Lemma weight_where_key_cons {A} `{EqDecision A} (k : A) ks (L : list (A * Z)) :
  k ∉ ks →
  weight_where (λ x, x ∈ k :: ks) L = weight_where (λ x, x = k) L + weight_where (λ x, x ∈ ks) L.
Proof.
  intros Hk. induction L as [|x L IH]; [done|]. rewrite !weight_where_cons, IH.
  destruct (decide (x.1 = k)) as [E|E].
  - rewrite decide_True by (rewrite E; left).
    rewrite (decide_False (P := x.1 ∈ ks)) by (by rewrite E). lia.
  - destruct (decide (x.1 ∈ ks)) as [Hin|Hout].
    + rewrite decide_True by (by right). lia.
    + rewrite decide_False; [lia|]. by intros [?|?]%elem_of_cons.
Qed.

(** Grouping by distinct keys loses and repeats nothing: the sums of the
    groups add up to the sum over the entries whose key is among them. *)
Lemma sum_of_group_sums {A} `{EqDecision A} (keys : list A) (L : list (A * Z)) :
  NoDup keys →
  Zsum ((λ k, weight_where (λ x, x = k) L) <$> keys) = weight_where (λ x, x ∈ keys) L.
Proof.
  induction 1 as [|k ks Hk _ IH].
  - unfold weight_where. induction L as [|x L IHL]; [done|].
    rewrite filter_cons. case_decide as Hx; [by apply elem_of_nil in Hx|done].
  - by rewrite fmap_cons, Zsum_cons, IH, weight_where_key_cons.
Qed.

(** ** The confusion matrix and the accuracy *)

Lemma filter_ext_in {A} (P Q : A → Prop) `{!∀ x, Decision (P x), !∀ x, Decision (Q x)}
    (l : list A) :
  (∀ x, x ∈ l → P x ↔ Q x) → filter P l = filter Q l.
Proof.
  induction l as [|a l IH]; intros Hiff; [done|].
  rewrite !filter_cons. rewrite IH by (intros x Hx; apply Hiff; by right).
  pose proof (Hiff a (list_elem_of_here _ _)). repeat case_decide; try done; tauto.
Qed.

Lemma filter_all {A} (P : A → Prop) `{!∀ x, Decision (P x)} (l : list A) :
  (∀ x, x ∈ l → P x) → filter P l = l.
Proof.
  induction l as [|a l IH]; intros HP; [done|].
  rewrite filter_cons, decide_True by (apply HP; left).
  rewrite IH; [done|]. intros x Hx. apply HP. by right.
Qed.

Lemma count_as_weight {A B} (key : A → B) (P : B → Prop) `{!∀ x, Decision (P x)} (L : list A) :
  Z.of_nat (length (filter (λ x, P (key x)) L)) = weight_where P ((λ x, (key x, 1)) <$> L).
Proof.
  induction L as [|x L IH]; [done|].
  rewrite fmap_cons, weight_where_cons, <- IH, filter_cons. simpl.
  case_decide; cbn [length]; lia.
Qed.

Lemma unique_labels_spec y_true y_pred :
  NoDup (unique_labels y_true y_pred) ∧
  ∀ v, v ∈ unique_labels y_true y_pred ↔ v ∈ y_true ∨ v ∈ y_pred.
Proof.
  unfold unique_labels. split.
  - rewrite merge_sort_Permutation. apply NoDup_remove_dups.
  - intros v. by rewrite merge_sort_Permutation, elem_of_remove_dups, elem_of_app.
Qed.

Lemma zip_labels y_true y_pred t p :
  (t, p) ∈ zip y_true y_pred →
  t ∈ unique_labels y_true y_pred ∧ p ∈ unique_labels y_true y_pred.
Proof.
  intros H. destruct (unique_labels_spec y_true y_pred) as (_ & Hmem).
  rewrite !Hmem. split; [left; by eapply elem_of_zip_l|right; by eapply elem_of_zip_r].
Qed.

(** A row of the matrix adds up to the number of rows with its actual
    label. *)
Lemma confusion_row_sum y_true y_pred a :
  Zsum ((λ p, count_pairs a p y_true y_pred) <$> unique_labels y_true y_pred)
  = Z.of_nat (length (filter (λ tp, tp.1 = a) (zip y_true y_pred))).
Proof.
  destruct (unique_labels_spec y_true y_pred) as (Hnd & _).
  set (labels := unique_labels y_true y_pred) in *. set (L := zip y_true y_pred).
  transitivity (Zsum ((λ k, weight_where (λ x, x = k) ((λ x, (x, 1)) <$> L))
                        <$> (pair a <$> labels))).
  { rewrite <- list_fmap_compose. f_equal. apply list_fmap_ext. intros _ p _. simpl.
    unfold count_pairs. fold L. by rewrite <- (count_as_weight id). }
  rewrite sum_of_group_sums by (apply NoDup_fmap_2; [intros ?? [=]; done|done]).
  rewrite <- (count_as_weight id). unfold id. f_equal. f_equal.
  apply filter_ext_in. intros [t p] Hx. simpl.
  apply zip_labels in Hx as (_ & Hp). fold labels in Hp.
  rewrite list_elem_of_fmap. split.
  - by intros (p' & [= -> ->] & _).
  - intros ->. by exists p.
Qed.

Lemma confusion_entries_total y_true y_pred :
  let labels := unique_labels y_true y_pred in
  matrix_total ((λ a, (λ p, count_pairs a p y_true y_pred) <$> labels) <$> labels)
  = Z.of_nat (length (zip y_true y_pred)).
Proof.
  intros labels. destruct (unique_labels_spec y_true y_pred) as (Hnd & Hmem).
  fold labels in Hnd. set (L := zip y_true y_pred).
  unfold matrix_total. rewrite <- list_fmap_compose.
  erewrite list_fmap_ext; [|intros _ a _; apply (confusion_row_sum y_true y_pred a)].
  fold L.
  transitivity (Zsum ((λ k, weight_where (λ x, x = k) ((λ x : Z * Z, (x.1, 1)) <$> L))
                        <$> labels)).
  { f_equal. apply list_fmap_ext. intros _ a _.
    by rewrite <- (count_as_weight fst (λ t, t = a)). }
  rewrite sum_of_group_sums by done.
  rewrite <- (count_as_weight fst (λ t, t ∈ labels)). do 2 f_equal.
  apply filter_all. intros [t p] Hx. apply zip_labels in Hx as (Ht & _). done.
Qed.

Lemma confusion_entries_trace y_true y_pred :
  let labels := unique_labels y_true y_pred in
  matrix_trace ((λ a, (λ p, count_pairs a p y_true y_pred) <$> labels) <$> labels)
  = Z.of_nat (agreements y_true y_pred).
Proof.
  intros labels. destruct (unique_labels_spec y_true y_pred) as (Hnd & Hmem).
  fold labels in Hnd. set (L := zip y_true y_pred).
  unfold matrix_trace.
  assert (imap (λ i row, default 0 (row !! i))
            ((λ a, (λ p, count_pairs a p y_true y_pred) <$> labels) <$> labels)
          = (λ a, count_pairs a a y_true y_pred) <$> labels) as ->.
  { apply list_eq. intros i. rewrite list_lookup_imap, !list_lookup_fmap.
    destruct (labels !! i) as [a|] eqn:Ha; [|done]. simpl.
    by rewrite list_lookup_fmap, Ha. }
  transitivity (Zsum ((λ k, weight_where (λ x, x = k) ((λ x, (x, 1)) <$> L))
                        <$> ((λ a, (a, a)) <$> labels))).
  { rewrite <- list_fmap_compose. f_equal. apply list_fmap_ext. intros _ a _. simpl.
    unfold count_pairs. fold L. by rewrite <- (count_as_weight id). }
  rewrite sum_of_group_sums by (apply NoDup_fmap_2; [intros ?? [=]; done|done]).
  rewrite <- (count_as_weight id). unfold id, agreements. fold L. do 2 f_equal.
  apply filter_ext_in. intros [t p] Hx. simpl.
  apply zip_labels in Hx as (Ht & _). fold labels in Ht.
  rewrite list_elem_of_fmap. split.
  - by intros (a & [= -> ->] & _).
  - intros ->. by exists p.
Qed.

(** X9. What the matrix of line 243 and the accuracy of line 239 say of the
    same two vectors agrees: the matrix is square with one row per label
    that occurs, its entries add up to the number of rows, its diagonal
    adds up to the number of rows predicted right, and the accuracy is
    the diagonal over the total. *)
Theorem confusion_matrix_totals y_true y_pred m :
  confusion_matrix y_true y_pred = Some m →
  length m = length (unique_labels y_true y_pred) ∧
  Forall (λ row, length row = length m) m ∧
  matrix_total m = Z.of_nat (length y_true) ∧
  matrix_trace m = Z.of_nat (agreements y_true y_pred) ∧
  accuracy_score y_true y_pred
  = Some (matrix_trace m # Pos.of_nat (Z.to_nat (matrix_total m))).
Proof.
  unfold confusion_matrix. case_decide as Hlen; [|done]. intros [= <-].
  destruct Hlen as (Hlen & Hne).
  pose proof (confusion_entries_total y_true y_pred) as Htotal.
  pose proof (confusion_entries_trace y_true y_pred) as Htrace.
  cbv zeta in Htotal, Htrace. rewrite length_zip, <- Hlen, Nat.min_id in Htotal.
  split; [by rewrite length_fmap|]. split.
  { apply Forall_fmap, Forall_forall. intros a _. simpl. by rewrite !length_fmap. }
  split; [done|]. split; [done|].
  rewrite Htotal, Htrace, Nat2Z.id. unfold accuracy_score.
  rewrite decide_True by done. done.
Qed.

Lemma confusion_matrix_totals_witness :
  let m := [[2; 0]; [1; 1]] in
  length m = length (unique_labels [0; 1; 1; 0] [0; 1; 0; 0]) ∧
  Forall (λ row, length row = length m) m ∧
  matrix_total m = Z.of_nat (length [0; 1; 1; 0]) ∧
  matrix_trace m = Z.of_nat (agreements [0; 1; 1; 0] [0; 1; 0; 0]) ∧
  accuracy_score [0; 1; 1; 0] [0; 1; 0; 0]
  = Some (matrix_trace m # Pos.of_nat (Z.to_nat (matrix_total m))).
Proof.
  apply (confusion_matrix_totals [0; 1; 1; 0] [0; 1; 0; 0]). vm_compute. reflexivity.
Defined.

(** X10. The heat map of lines 267-269 names two classes. The matrix has two
    rows exactly when both classes occur among the actual and predicted
    labels; when only one occurs (a test part without hospitalizations
    and a model that predicts none, say) the matrix is the single entry
    [[n]]. *)
Theorem confusion_matrix_shape y_true y_pred m :
  confusion_matrix y_true y_pred = Some m →
  (∀ v, v ∈ (y_true ++ y_pred)%list → v = 0 ∨ v = 1) →
  (0 ∈ (y_true ++ y_pred)%list ∧ 1 ∈ (y_true ++ y_pred)%list → length m = 2%nat) ∧
  (¬ (0 ∈ (y_true ++ y_pred)%list ∧ 1 ∈ (y_true ++ y_pred)%list) →
   m = [[Z.of_nat (length y_true)]]).
Proof.
  unfold confusion_matrix. case_decide as Hlen; [|done]. intros [= <-] Hbin.
  destruct Hlen as (Hlen & Hne).
  destruct (unique_labels_spec y_true y_pred) as (Hnd & Hmem).
  set (labels := unique_labels y_true y_pred) in *.
  assert (∀ v, v ∈ labels ↔ v ∈ (y_true ++ y_pred)%list) as Hmem'.
  { intros v. by rewrite Hmem, elem_of_app. }
  split.
  - intros (H0 & H1). rewrite length_fmap.
    assert (labels ≡ₚ [0; 1]) as ->; [|done].
    apply NoDup_Permutation; [done|by_running|]. intros v. rewrite Hmem'.
    rewrite !elem_of_cons, elem_of_nil. split.
    + intros Hv. destruct (Hbin v Hv) as [->| ->]; auto.
    + intros [->|[->|[]]]; done.
  - intros Hnot.
    assert (∃ v, labels = [v]) as (v & Hv).
    { destruct y_true as [|t y_true]; [done|].
      assert (t ∈ labels) as Ht by (apply Hmem'; left).
      assert (∀ x, x ∈ labels → x = t) as Hall.
      { intros x Hx. apply Hmem' in Hx. apply Hmem' in Ht.
        destruct (Hbin x Hx) as [->| ->], (Hbin t Ht) as [E|E]; subst; try done;
          destruct Hnot; by split. }
      exists t. destruct labels as [|a [|b l]].
      - by apply elem_of_nil in Ht.
      - f_equal. apply Hall. left.
      - apply NoDup_cons in Hnd as (Hab & _). destruct Hab.
        rewrite (Hall a) by left. rewrite (Hall b) by (right; left). left. }
    rewrite Hv. simpl. do 2 f_equal. unfold count_pairs. f_equal.
    rewrite <- (Nat.min_id (length y_true)). rewrite Hlen at 2. rewrite <- length_zip.
    f_equal. apply filter_all. intros [t p] Hx.
    apply zip_labels in Hx as (Ht & Hp). fold labels in Ht, Hp. rewrite Hv in Ht, Hp.
    apply list_elem_of_singleton in Ht, Hp. by subst.
Qed.

Lemma confusion_matrix_shape_witness :
  confusion_matrix [0; 0; 0] [0; 0; 0] = Some [[3]] ∧
  (0 ∈ ([0; 0; 0] ++ [0; 0; 0])%list ∧ 1 ∈ ([0; 0; 0] ++ [0; 0; 0])%list →
   length [[3]] = 2%nat) ∧
  (¬ (0 ∈ ([0; 0; 0] ++ [0; 0; 0])%list ∧ 1 ∈ ([0; 0; 0] ++ [0; 0; 0])%list) →
   [[3]] = [[Z.of_nat (length [0; 0; 0])]]).
Proof.
  split; [vm_compute; reflexivity|].
  apply (confusion_matrix_shape [0; 0; 0] [0; 0; 0] [[3]]).
  - vm_compute. reflexivity.
  - intros v Hv. left. simpl in Hv. repeat (apply elem_of_cons in Hv as [->|Hv]); try done.
    by apply elem_of_nil in Hv.
Defined.

(** ** Error inspection (lines 246-261) *)

Lemma labels_of_final {R} (X : list (list R)) y_test y_pred :
  length y_test = length X → length y_pred = length X →
  (λ r : list R * Z * Z, (r.1.2, r.2)) <$> zip (zip X y_test) y_pred = zip y_test y_pred.
Proof.
  revert y_test y_pred. induction X as [|x X IH]; intros [|t yt] [|p yp] Ht Hp; try done.
  simpl in *. f_equal. apply IH; lia.
Qed.

Lemma filter_split_length {A} (P : A → Prop) `{!∀ x, Decision (P x)} (l : list A) :
  (length (filter (λ x, ¬ P x) l) + length (filter P l) = length l)%nat.
Proof.
  induction l as [|a l IH]; [done|]. rewrite !filter_cons.
  destruct (decide (P a)); [rewrite decide_False by tauto|rewrite decide_True by done];
    simpl; lia.
Qed.

Lemma filter_fmap_length {A B} (f : A → B) (P : B → Prop) `{!∀ x, Decision (P x)} (l : list A) :
  length (filter P (f <$> l)) = length (filter (λ x, P (f x)) l).
Proof.
  induction l as [|a l IH]; [done|]. rewrite fmap_cons, !filter_cons.
  case_decide; simpl; by rewrite IH.
Qed.

(** X11. The table of wrong predictions is consistent with the scores: it
    holds exactly the held-out rows whose two labels differ, in their
    order; together with the rows predicted right they are all rows; and
    their number is what the confusion matrix has off its diagonal. *)
Theorem incorrect_preds_match_the_scores {R} (X_test : list (list R)) y_test y_pred final :
  final_df X_test y_test y_pred = Some final →
  length final = length y_test ∧
  incorrect_preds final `sublist_of` final ∧
  (∀ r, r ∈ incorrect_preds final ↔ r ∈ final ∧ r.1.2 ≠ r.2) ∧
  (length (incorrect_preds final) + agreements y_test y_pred = length y_test)%nat ∧
  (∀ m, confusion_matrix y_test y_pred = Some m →
        matrix_total m - matrix_trace m = Z.of_nat (length (incorrect_preds final))).
Proof.
  unfold final_df. case_decide as Hshape; [|done]. intros [= <-].
  destruct Hshape as (_ & Ht & Hp).
  set (final := zip (zip X_test y_test) y_pred).
  assert (length final = length y_test) as Hlen.
  { unfold final. rewrite !length_zip. lia. }
  assert (length (incorrect_preds final) + agreements y_test y_pred = length y_test)%nat
    as Hsum.
  { unfold agreements, incorrect_preds.
    rewrite <- (labels_of_final X_test y_test y_pred Ht Hp). fold final.
    rewrite (filter_fmap_length (λ r : list R * Z * Z, (r.1.2, r.2)) (λ tp, tp.1 = tp.2)).
    simpl. rewrite <- Hlen. apply (filter_split_length (λ r : list R * Z * Z, r.1.2 = r.2)). }
  split; [done|]. split; [apply sublist_filter|]. split.
  { intros r. unfold incorrect_preds. rewrite list_elem_of_filter. tauto. }
  split; [done|].
  intros m Hm. unfold confusion_matrix in Hm. case_decide as Hok; [|done].
  injection Hm as <-. destruct Hok as (Hlen' & _).
  pose proof (confusion_entries_total y_test y_pred) as Htotal.
  pose proof (confusion_entries_trace y_test y_pred) as Htrace.
  cbv zeta in Htotal, Htrace. rewrite Htotal, Htrace, length_zip. lia.
Qed.

Lemma incorrect_preds_match_the_scores_witness :
  let X_test := [[1; 2; 3; 4; 5]; [1; 2; 3; 4; 5]; [0; 0; 0; 0; 0]; [9; 9; 9; 9; 9]] in
  let y_test := [0; 1; 1; 0] in
  let y_pred := [0; 1; 0; 0] in
  let final := zip (zip X_test y_test) y_pred in
  length final = length y_test ∧
  incorrect_preds final `sublist_of` final ∧
  (∀ r, r ∈ incorrect_preds final ↔ r ∈ final ∧ r.1.2 ≠ r.2) ∧
  (length (incorrect_preds final) + agreements y_test y_pred = length y_test)%nat ∧
  (∀ m, confusion_matrix y_test y_pred = Some m →
        matrix_total m - matrix_trace m = Z.of_nat (length (incorrect_preds final))).
Proof.
  cbv zeta.
  apply (incorrect_preds_match_the_scores
           [[1; 2; 3; 4; 5]; [1; 2; 3; 4; 5]; [0; 0; 0; 0; 0]; [9; 9; 9; 9; 9]]
           [0; 1; 1; 0] [0; 1; 0; 0]).
  vm_compute. reflexivity.
Defined.

(** A matrix with the wrong number of columns, or label vectors of
    another length, stop the inspection. *)
Example final_df_refuses :
  final_df [[1; 2; 3]] [0] [0] = None ∧
  final_df [[1; 2; 3; 4; 5]] [0; 1] [0] = None.
Proof. split; reflexivity. Qed.

(** ** The location ranking (line 53) *)

Lemma Zsum_perm l1 l2 : l1 ≡ₚ l2 → Zsum l1 = Zsum l2.
Proof. induction 1; rewrite ?Zsum_cons; lia. Qed.

Lemma Zsum_nonneg l : Forall (λ x, 0 <= x) l → 0 <= Zsum l.
Proof. induction 1; rewrite ?Zsum_cons; [done|lia]. Qed.

Lemma Zsum_take_le n l : Forall (λ x, 0 <= x) l → Zsum (take n l) <= Zsum l.
Proof.
  intros Hl. rewrite <- (take_drop n l) at 2. rewrite Zsum_app.
  pose proof (Zsum_nonneg (drop n l) (Forall_drop _ _ _ Hl)). lia.
Qed.

(** The counts of all categories add up to the number of rows, when no
    row is missing. *)
Lemma bincount_total ncat codes :
  Forall (λ c, 0 <= c < Z.of_nat ncat) codes →
  Zsum (bincount ncat codes) = Z.of_nat (length codes).
Proof.
  intros Hcodes. unfold bincount.
  transitivity (Zsum ((λ k, weight_where (λ x, x = k) ((λ c, (c, 1)) <$> codes))
                        <$> (Z.of_nat <$> seq 0 ncat))).
  { rewrite <- list_fmap_compose. f_equal. apply list_fmap_ext. intros _ k _. simpl.
    by rewrite <- (count_as_weight id). }
  rewrite sum_of_group_sums by (apply NoDup_fmap_2; [apply Nat2Z.inj'|apply NoDup_seq]).
  rewrite <- (count_as_weight id). unfold id. do 2 f_equal.
  apply filter_all. intros c Hc. rewrite Forall_forall in Hcodes. specialize (Hcodes c Hc).
  apply list_elem_of_fmap. exists (Z.to_nat c). split; [lia|]. apply elem_of_seq. lia.
Qed.

Lemma bincount_nonneg ncat codes : Forall (λ x, 0 <= x) (bincount ncat codes).
Proof. unfold bincount. apply Forall_fmap, Forall_forall. intros k _. simpl. lia. Qed.

Lemma select_mask_length {A B} (p : A → bool) (l : list A) (l' : list B) :
  length l = length l' →
  length (select (p <$> l) l') = length (filter (λ x, p x = true) l).
Proof.
  revert l'. induction l as [|x l IH]; intros [|y l'] Hlen; try done.
  rewrite fmap_cons, filter_cons. cbn [select]. simpl in Hlen.
  destruct (p x) eqn:Hp.
  - rewrite decide_True by done. cbn [length]. rewrite IH by lia. done.
  - rewrite decide_False by done. apply IH. lia.
Qed.

Lemma cell_eqb_true c v : v ≠ NaN → cell_eqb c v = true ↔ c = v.
Proof.
  intros Hv. unfold cell_eqb. destruct c; simpl; rewrite ?bool_decide_eq_true; try done.
Qed.

(** A column filled with [Unknown] and made categorical in a cleaned
    table: its categories are its values, and no code is [-1]. *)
Lemma cleaned_category raw cleaned c :
  read_csv_frame raw → cleaned_of raw cleaned → c ∈ categorical_cols →
  ∃ vs cats codes,
    getitem raw c = Some (Plain vs) ∧
    getitem cleaned c = Some (Categorical cats codes) ∧
    wf_categorical cats codes ∧
    take_code cats <$> codes = (λ x, if isna x then Str "Unknown" else x) <$> vs ∧
    length codes = nrows cleaned ∧
    Forall (λ k, 0 <= k < Z.of_nat (length cats)) codes.
Proof.
  intros Hraw Hclean Hc.
  destruct (cleaned_categorical raw cleaned c Hclean Hc) as (s & s' & Hs & Hfill & Hcl).
  destruct (Hraw _ _ Hs) as (vs & -> & Hlen). simpl in Hfill. injection Hfill as <-.
  set (vs' := (λ x, if isna x then Str "Unknown" else x) <$> vs) in *.
  pose proof (astype_category_wf vs') as Hwf.
  pose proof (to_values_astype_category (Plain vs')) as E. simpl in E.
  exists vs, (categories_of vs'), (code_of (categories_of vs') <$> vs').
  split; [done|]. split; [exact Hcl|]. split; [done|]. split; [exact E|].
  split.
  { rewrite length_fmap. unfold vs'. rewrite length_fmap, Hlen.
    symmetry. by apply cleaned_nrows. }
  destruct Hwf as (Hnd & Hna & Hall). rewrite Forall_forall in Hall |- *.
  intros k Hk. specialize (Hall k Hk). split; [|lia].
  destruct (Z.ltb_spec k 0) as [Hneg|]; [|lia].
  assert (NaN ∈ take_code (categories_of vs') <$> (code_of (categories_of vs') <$> vs')) as Hin.
  { apply list_elem_of_fmap. exists k. split; [|done]. unfold take_code.
    by destruct (Z.ltb_spec k 0); [|lia]. }
  rewrite E in Hin. unfold vs' in Hin. apply list_elem_of_fmap in Hin as (x & Hx & _).
  by destruct x.
Qed.

Lemma filter_fmap_eq {A B} (f : A → B) (P : B → Prop) `{!∀ x, Decision (P x)} (l : list A) :
  filter P (f <$> l) = f <$> filter (λ x, P (f x)) l.
Proof.
  induction l as [|a l IH]; [done|]. rewrite fmap_cons, !filter_cons.
  case_decide; rewrite ?fmap_cons; by rewrite IH.
Qed.

Section locations.
Context `{SortKind}.

(** X12. The location ranking counts hospitalised outbreaks: its counts are
    not negative and add up to no more than the number of outbreaks with
    label [1]; an outbreak whose location was missing is counted under
    the location [Unknown], together with those that carry this text;
    and when the table has at most ten locations, every one of them is
    listed (those without a hospitalised outbreak with count zero) and
    the counts add up to exactly the number of outbreaks with label [1]. *)
Theorem top_locations_counts raw cleaned ranking :
  read_csv_frame raw → cleaned_of raw cleaned →
  top_locations cleaned = Some ranking →
  Forall (λ c, 0 <= c) ranking.*2 ∧
  Zsum ranking.*2 <= hospitalized_outbreaks cleaned ∧
  (∀ hosp vs c,
     getitem cleaned "Hospitalized" = Some hosp →
     getitem raw "Location" = Some (Plain vs) →
     (Str "Unknown", c) ∈ ranking →
     c = Z.of_nat (length (filter (λ v, v = NaN ∨ v = Str "Unknown")
                                  (select (Series_eq hosp (Num 1)) vs)))) ∧
  (∀ cats codes,
     getitem cleaned "Location" = Some (Categorical cats codes) →
     (length cats ≤ 10)%nat →
     ranking.*1 ≡ₚ cats ∧ Zsum ranking.*2 = hospitalized_outbreaks cleaned).
Proof.
  intros Hraw Hclean Htop.
  destruct (cleaned_category raw cleaned "Location" Hraw Hclean)
    as (vs & cats & codes & Hvs & Hloc & Hwf & Hvals & Hlen & Hcodes); [by_running|].
  destruct (cleaned_hospitalized _ _ Hclean) as (s & hosp & Hs & Hlabel & Hhosp).
  assert (length (to_values hosp) = length codes) as Hlen'.
  { rewrite Hlen. pose proof (cleaned_rectangular raw cleaned Hclean) as Hrect.
    rewrite <- (Hrect (read_csv_rectangular _ Hraw) _ _ Hhosp).
    apply Series_len_to_values. }
  unfold top_locations in Htop. rewrite Hhosp in Htop. cbn [mbind option_bind] in Htop.
  rewrite getitem_select, Hloc in Htop. simpl in Htop. injection Htop as <-.
  set (mask := Series_eq hosp (Num 1)).
  set (location := Categorical cats (select mask codes)).
  assert (wf_categorical cats (select mask codes)) as Hwf'.
  { destruct Hwf as (Hnd & Hna & Hall). split; [exact Hnd|]. split; [exact Hna|].
    by apply select_Forall. }
  destruct (count_table_categorical _ _ Hwf') as (Hfst & Hentries).
  fold location in Hfst, Hentries.
  pose proof (value_counts_perm location) as Hperm.
  assert ((count_table location).*2 = bincount (length cats) (select mask codes)) as Hsnd.
  { simpl. apply snd_zip. unfold bincount. by rewrite length_fmap, length_seq. }
  assert (Forall (λ c, 0 <= c) (value_counts location).*2) as Hnonneg.
  { rewrite Hperm, Hsnd. apply bincount_nonneg. }
  assert (Zsum (value_counts location).*2 = hospitalized_outbreaks cleaned) as Htotal.
  { rewrite (Zsum_perm _ (count_table location).*2) by (by rewrite Hperm).
    rewrite Hsnd, bincount_total by (by apply select_Forall).
    unfold hospitalized_outbreaks, occurrences. rewrite Hhosp. f_equal.
    unfold mask, Series_eq. rewrite (select_mask_length _ _ _ Hlen'). f_equal.
    apply filter_ext_in. intros c _. by apply cell_eqb_true. }
  split; [rewrite fmap_take; by apply Forall_take|].
  split; [rewrite fmap_take, <- Htotal; by apply Zsum_take_le|].
  split.
  { intros hosp' vs' c Hh Hv Hin. rewrite Hhosp in Hh. injection Hh as <-.
    rewrite Hvs in Hv. injection Hv as <-.
    apply subseteq_take in Hin. rewrite Hperm in Hin. apply Hentries in Hin as (_ & ->).
    fold mask. rewrite <- select_fmap, Hvals, select_fmap, filter_fmap_eq, length_fmap.
    do 2 f_equal. apply filter_ext_in. intros x _. destruct x; simpl; split; try done.
    - by left.
    - by intros [?|?].
    - intros ->. by right.
    - by intros [?|?]. }
  intros cats' codes' Hloc' Hfew. rewrite Hloc in Hloc'. injection Hloc' as <- <-.
  assert (take 10 (value_counts location) = value_counts location) as ->.
  { apply take_ge. rewrite Hperm. simpl. rewrite length_zip.
    unfold bincount. rewrite length_fmap, length_seq. lia. }
  split; [by rewrite Hperm, Hfst|exact Htotal].
Qed.

End locations.

Example top_locations_example :
  @top_locations merge_kind Examples.cleaned
  = Some [(Str "Restaurant", 2); (Str "Unknown", 1); (Str "Home", 0)].
Proof. vm_compute. reflexivity. Qed.

Lemma top_locations_counts_witness :
  let ranking := [(Str "Restaurant", 2); (Str "Unknown", 1); (Str "Home", 0)] in
  Forall (λ c, 0 <= c) ranking.*2 ∧
  Zsum ranking.*2 <= hospitalized_outbreaks Examples.cleaned ∧
  (∀ hosp vs c,
     getitem Examples.cleaned "Hospitalized" = Some hosp →
     getitem Examples.raw "Location" = Some (Plain vs) →
     (Str "Unknown", c) ∈ ranking →
     c = Z.of_nat (length (filter (λ v, v = NaN ∨ v = Str "Unknown")
                                  (select (Series_eq hosp (Num 1)) vs)))) ∧
  (∀ cats codes,
     getitem Examples.cleaned "Location" = Some (Categorical cats codes) →
     (length cats ≤ 10)%nat →
     ranking.*1 ≡ₚ cats ∧ Zsum ranking.*2 = hospitalized_outbreaks Examples.cleaned).
Proof.
  cbv zeta.
  apply (@top_locations_counts merge_kind Examples.raw Examples.cleaned).
  - exact example_read_csv.
  - vm_compute. reflexivity.
  - vm_compute. reflexivity.
Defined.

(** ** Sums per group *)













Example illness_trend_example :
  illness_trend TrendExample.cleaned
  = Some (mkFrame 2 (list_to_map
            [ ("Year", Plain [Num 2009; Num 2010]);
              ("Illnesses", Plain [Num 7; Num 23]);
              ("Hospitalizations", Plain [Num 3; Num 2]) ])).
Proof. vm_compute. reflexivity. Qed.


Section states.
Context `{SortKind}.


End states.

Example top_states_example :
  @top_states merge_kind Examples.cleaned_no_state
  = Some [(Str "CA", 28); (Str "TX", 5); (Str "NY", 2)].
Proof. vm_compute. reflexivity. Qed.

